(** * URL shortener: the registry and analytics engine of [urlService]

    A shallow embedding of the [URLService] class (the URL registry, its
    code generator, expiry computation and click recorder) and of the
    platform primitives it calls, followed by the properties of the
    service stated in the specification. *)

From Stdlib Require Import List String Ascii ZArith NArith Arith Bool Lia.
From Stdlib Require Import Permutation Sorted DecimalString.
Import ListNotations.

Local Open Scope list_scope.

(** ** The URL parsing primitive behind [new URL(url)]

    [new URL(url)] runs the basic URL parser of the URL standard with a
    null base and throws a [TypeError] when the parser returns failure.
    Strings are scalar value strings, kept as their UTF-8 bytes; every
    code point the state machine tests for is ASCII. The parser is followed
    up to the path start state: no later state (path, opaque path, query,
    fragment) can fail or change the scheme, the host or the port.

    Two algorithms the standard takes from elsewhere are parameters of
    the model: Unicode ToASCII (UTS 46), reached only for a domain that is
    not plain ASCII or has an [xn--] label, and the IPv6 parser, reached
    only for a host written in square brackets. *)
Module URL.

Definition code (c : ascii) : N := N_of_ascii c.

Definition between (lo hi : N) (c : ascii) : bool :=
  ((lo <=? code c) && (code c <=? hi))%N.

Definition is_ascii_digit (c : ascii) : bool := between 48 57 c.
Definition is_ascii_upper_alpha (c : ascii) : bool := between 65 90 c.
Definition is_ascii_lower_alpha (c : ascii) : bool := between 97 122 c.
Definition is_ascii_alpha (c : ascii) : bool :=
  is_ascii_upper_alpha c || is_ascii_lower_alpha c.
Definition is_ascii_alphanumeric (c : ascii) : bool :=
  is_ascii_digit c || is_ascii_alpha c.
Definition is_ascii_hex_digit (c : ascii) : bool :=
  is_ascii_digit c || between 65 70 c || between 97 102 c.
Definition is_ascii_byte (c : ascii) : bool := (code c <? 128)%N.
Definition is_c0_control_or_space (c : ascii) : bool := (code c <=? 32)%N.
Definition is_ascii_tab_or_newline (c : ascii) : bool :=
  ((code c =? 9) || (code c =? 10) || (code c =? 13))%N.

Definition ascii_lowercase (c : ascii) : ascii :=
  if is_ascii_upper_alpha c then ascii_of_N (code c + 32) else c.

Definition is_one_of (c : ascii) (s : string) : bool :=
  existsb (Ascii.eqb c) (list_ascii_of_string s).

(** The value of a digit in radix up to 16. *)
Definition digit_value (c : ascii) : N :=
  if is_ascii_digit c then code c - 48
  else if between 65 70 c then code c - 55
  else code c - 87.

Definition is_radix_digit (R : N) (c : ascii) : bool :=
  (is_ascii_hex_digit c && (digit_value c <? R))%N.

Definition is_empty {A} (l : list A) : bool :=
  match l with [] => true | _ => false end.

Fixpoint drop_while {A} (p : A -> bool) (l : list A) : list A :=
  match l with
  | [] => []
  | x :: t => if p x then drop_while p t else l
  end.

Definition strip_c0_control_or_space (input : list ascii) : list ascii :=
  rev (drop_while is_c0_control_or_space
         (rev (drop_while is_c0_control_or_space input))).

Definition remove_tab_or_newline (input : list ascii) : list ascii :=
  filter (fun c => negb (is_ascii_tab_or_newline c)) input.

Fixpoint strictly_split (delimiter : ascii) (input : list ascii)
  : list (list ascii) :=
  match input with
  | [] => [[]]
  | c :: rest =>
      if Ascii.eqb c delimiter then [] :: strictly_split delimiter rest
      else match strictly_split delimiter rest with
           | token :: tokens => (c :: token) :: tokens
           | [] => [[c]]
           end
  end.

Fixpoint percent_decode (input : list ascii) : list ascii :=
  match input with
  | [] => []
  | c :: rest =>
      if Ascii.eqb c "%" then
        match rest with
        | h1 :: h2 :: rest' =>
            if is_ascii_hex_digit h1 && is_ascii_hex_digit h2
            then ascii_of_N (digit_value h1 * 16 + digit_value h2)
                   :: percent_decode rest'
            else c :: percent_decode rest
        | _ => c :: percent_decode rest
        end
      else c :: percent_decode rest
  end.

Inductive host : Type :=
| Domain (name : list ascii)
| IPv4 (address : N)
| IPv6 (pieces : list N)
| OpaqueHost (name : list ascii)
| EmptyHost.

(** The part of a URL record that is settled when the path starts. A
    null host or port is [None]. *)
Record url : Type := mk_url {
  scheme : string;
  host_of : option host;
  port : option N
}.

Definition is_special (s : string) : bool :=
  existsb (String.eqb s) ["ftp"; "file"; "http"; "https"; "ws"; "wss"]%string.

Definition default_port (s : string) : option N :=
  if String.eqb s "ftp" then Some 21%N
  else if String.eqb s "http" || String.eqb s "ws" then Some 80%N
  else if String.eqb s "https" || String.eqb s "wss" then Some 443%N
  else None.

Definition forbidden_host_code_point (c : ascii) : bool :=
  existsb (N.eqb (code c))
    [0; 9; 10; 13; 32; 35; 47; 58; 60; 62; 63; 64; 91; 92; 93; 94; 124]%N.

Definition forbidden_domain_code_point (c : ascii) : bool :=
  forbidden_host_code_point c || (code c <=? 31)%N
  || (code c =? 37)%N || (code c =? 127)%N.

(** Digits of [input] read in radix [R]; failure on any other code point. *)
Fixpoint parse_radix (R : N) (acc : N) (input : list ascii) : option N :=
  match input with
  | [] => Some acc
  | c :: rest =>
      if is_radix_digit R c
      then parse_radix R (acc * R + digit_value c)%N rest
      else None
  end.

Definition IPv4_number_parser (input : list ascii) : option N :=
  match input with
  | [] => None
  | "0"%char :: c :: rest =>
      if Ascii.eqb c "x" || Ascii.eqb c "X"
      then parse_radix 16 0 rest
      else parse_radix 8 0 (c :: rest)
  | _ => parse_radix 10 0 input
  end.

Definition ends_in_a_number (input : list ascii) : bool :=
  let parts := strictly_split "." input in
  let parts :=
    if is_empty (last parts []) then
      if (List.length parts =? 1)%nat then [] else removelast parts
    else parts in
  match parts with
  | [] => false
  | _ =>
      let l := last parts [] in
      (negb (is_empty l) && forallb is_ascii_digit l)
      || match IPv4_number_parser l with Some _ => true | None => false end
  end.

Fixpoint IPv4_numbers (parts : list (list ascii)) : option (list N) :=
  match parts with
  | [] => Some []
  | part :: rest =>
      match IPv4_number_parser part, IPv4_numbers rest with
      | Some n, Some ns => Some (n :: ns)
      | _, _ => None
      end
  end.

Fixpoint IPv4_sum (numbers : list N) (counter : N) : N :=
  match numbers with
  | [] => 0%N
  | [l] => l
  | n :: rest => (n * 256 ^ (3 - counter) + IPv4_sum rest (counter + 1))%N
  end.

Definition IPv4_parser (input : list ascii) : option N :=
  let parts := strictly_split "." input in
  let parts :=
    if is_empty (last parts []) && (1 <? List.length parts)%nat
    then removelast parts else parts in
  if (4 <? List.length parts)%nat then None
  else match IPv4_numbers parts with
       | None => None
       | Some numbers =>
           if existsb (fun n => (255 <? n)%N) (removelast numbers) then None
           else if (256 ^ (5 - N.of_nat (List.length numbers)) <=? last numbers 0)%N
                then None
                else Some (IPv4_sum numbers 0)
       end.

Definition hex_digit_of (n : N) : ascii :=
  if (n <? 10)%N then ascii_of_N (n + 48) else ascii_of_N (n + 55).

(** UTF-8 percent-encoding with the C0 control percent-encode set. *)
Definition percent_encode_c0 (input : list ascii) : list ascii :=
  flat_map (fun c =>
    if ((code c <? 32) || (126 <? code c))%N
    then ["%"%char; hex_digit_of (code c / 16); hex_digit_of (code c mod 16)]
    else [c]) input.

Definition opaque_host_parser (input : list ascii) : option host :=
  if existsb forbidden_host_code_point input then None
  else match input with
       | [] => Some EmptyHost
       | _ => Some (OpaqueHost (percent_encode_c0 input))
       end.

Definition starts_with_xn (label : list ascii) : bool :=
  match label with
  | a :: b :: c :: d :: _ =>
      Ascii.eqb (ascii_lowercase a) "x" && Ascii.eqb (ascii_lowercase b) "n"
      && Ascii.eqb c "-" && Ascii.eqb d "-"
  | _ => false
  end.

Section Parser.

(** Unicode ToASCII on the percent-decoded bytes of a domain, with the
    flags of the standard's domain to ASCII for [beStrict] false. *)
Variable unicode_ToASCII : list ascii -> option (list ascii).

(** The IPv6 parser, on the text between the square brackets. *)
Variable IPv6_parser : list ascii -> option (list N).

(** For an ASCII domain none of whose labels starts with [xn--], ToASCII
    is ASCII lowercasing (the standard's own remark on this step). *)
Definition domain_to_ASCII (domain : list ascii) : option (list ascii) :=
  let result :=
    if forallb is_ascii_byte domain
       && negb (existsb starts_with_xn (strictly_split "." domain))
    then Some (map ascii_lowercase domain)
    else unicode_ToASCII domain in
  match result with
  | Some (c :: r) => Some (c :: r)
  | _ => None
  end.

Definition host_parser (input : list ascii) (isOpaque : bool) : option host :=
  match input with
  | "["%char :: inner =>
      if Ascii.eqb (last inner "["%char) "]" && negb (is_empty inner)
      then option_map IPv6 (IPv6_parser (removelast inner))
      else None
  | _ =>
      if isOpaque then opaque_host_parser input
      else match domain_to_ASCII (percent_decode input) with
           | None => None
           | Some asciiDomain =>
               if existsb forbidden_domain_code_point asciiDomain then None
               else if ends_in_a_number asciiDomain
                    then option_map IPv4 (IPv4_parser asciiDomain)
                    else Some (Domain asciiDomain)
           end
  end.

(** The code points that end the authority, the host and the port. *)
Definition ends_authority (special : bool) (c : ascii) : bool :=
  is_one_of c "/?#" || (special && Ascii.eqb c "\").

Definition port_of_buffer (s : string) (h : host) (buffer : list ascii)
  : option url :=
  match buffer with
  | [] => Some (mk_url s (Some h) None)
  | _ =>
      match parse_radix 10 0 buffer with
      | None => None
      | Some p =>
          if (65535 <? p)%N then None
          else Some (mk_url s (Some h)
                       (if match default_port s with
                           | Some d => (d =? p)%N
                           | None => false
                           end
                        then None else Some p))
      end
  end.

Fixpoint port_state (s : string) (h : host) (buffer input : list ascii)
  : option url :=
  match input with
  | [] => port_of_buffer s h buffer
  | c :: rest =>
      if is_ascii_digit c then port_state s h (buffer ++ [c]) rest
      else if ends_authority (is_special s) c then port_of_buffer s h buffer
      else None
  end.

Definition host_of_buffer (s : string) (buffer : list ascii) : option url :=
  if is_special s && is_empty buffer then None
  else match host_parser buffer (negb (is_special s)) with
       | None => None
       | Some h => Some (mk_url s (Some h) None)
       end.

Fixpoint host_state (s : string) (insideBrackets : bool)
  (buffer input : list ascii) : option url :=
  match input with
  | [] => host_of_buffer s buffer
  | c :: rest =>
      if Ascii.eqb c ":" && negb insideBrackets then
        match buffer with
        | [] => None
        | _ =>
            match host_parser buffer (negb (is_special s)) with
            | None => None
            | Some h => port_state s h [] rest
            end
        end
      else if ends_authority (is_special s) c then host_of_buffer s buffer
      else host_state s
             (if Ascii.eqb c "[" then true
              else if Ascii.eqb c "]" then false else insideBrackets)
             (buffer ++ [c]) rest
  end.

(** [start] is the input from the first code point of [buffer] on: when
    the authority ends, the pointer goes back there and the host state
    reads the buffer again. *)
Fixpoint authority_state (s : string) (atSignSeen : bool)
  (buffer start input : list ascii) : option url :=
  match input with
  | [] =>
      if atSignSeen && is_empty buffer then None
      else host_state s false [] start
  | c :: rest =>
      if Ascii.eqb c "@" then authority_state s true [] rest rest
      else if ends_authority (is_special s) c then
        if atSignSeen && is_empty buffer then None
        else host_state s false [] start
      else authority_state s atSignSeen (buffer ++ [c]) start rest
  end.

Fixpoint special_authority_ignore_slashes_state (s : string)
  (input : list ascii) : option url :=
  match input with
  | [] => authority_state s false [] [] []
  | c :: rest =>
      if is_one_of c "/\" then special_authority_ignore_slashes_state s rest
      else authority_state s false [] input input
  end.

Definition special_authority_slashes_state (s : string) (input : list ascii)
  : option url :=
  match input with
  | "/"%char :: "/"%char :: rest =>
      special_authority_ignore_slashes_state s rest
  | _ => special_authority_ignore_slashes_state s input
  end.

Definition path_or_authority_state (s : string) (input : list ascii)
  : option url :=
  match input with
  | "/"%char :: rest => authority_state s false [] rest rest
  | _ => Some (mk_url s None None)
  end.

Definition file_url (h : host) : url := mk_url "file" (Some h) None.

Definition is_windows_drive_letter (buffer : list ascii) : bool :=
  match buffer with
  | [a; b] => is_ascii_alpha a && is_one_of b ":|"
  | _ => false
  end.

Definition file_host_of_buffer (buffer : list ascii) : option url :=
  if is_windows_drive_letter buffer then Some (file_url EmptyHost)
  else match buffer with
       | [] => Some (file_url EmptyHost)
       | _ =>
           match host_parser buffer false with
           | None => None
           | Some (Domain d) =>
               if String.eqb (string_of_list_ascii d) "localhost"
               then Some (file_url EmptyHost)
               else Some (file_url (Domain d))
           | Some h => Some (file_url h)
           end
       end.

Fixpoint file_host_state (buffer input : list ascii) : option url :=
  match input with
  | [] => file_host_of_buffer buffer
  | c :: rest =>
      if is_one_of c "/\?#" then file_host_of_buffer buffer
      else file_host_state (buffer ++ [c]) rest
  end.

Definition file_slash_state (input : list ascii) : option url :=
  match input with
  | c :: rest =>
      if is_one_of c "/\" then file_host_state [] rest
      else Some (file_url EmptyHost)
  | [] => Some (file_url EmptyHost)
  end.

Definition file_state (input : list ascii) : option url :=
  match input with
  | c :: rest =>
      if is_one_of c "/\" then file_slash_state rest
      else Some (file_url EmptyHost)
  | [] => Some (file_url EmptyHost)
  end.

Definition is_scheme_code_point (c : ascii) : bool :=
  is_ascii_alphanumeric c || is_one_of c "+-.".

(** Without a base, the no scheme state is failure; so is the end of the
    input before a colon. *)
Fixpoint scheme_state (buffer input : list ascii) : option url :=
  match input with
  | [] => None
  | c :: rest =>
      if is_scheme_code_point c
      then scheme_state (buffer ++ [ascii_lowercase c]) rest
      else if Ascii.eqb c ":" then
        let s := string_of_list_ascii buffer in
        if String.eqb s "file" then file_state rest
        else if is_special s then special_authority_slashes_state s rest
        else match rest with
             | "/"%char :: rest' => path_or_authority_state s rest'
             | _ => Some (mk_url s None None)
             end
      else None
  end.

Definition scheme_start_state (input : list ascii) : option url :=
  match input with
  | c :: rest =>
      if is_ascii_alpha c then scheme_state [ascii_lowercase c] rest
      else None
  | [] => None
  end.

Definition preprocess (input : string) : list ascii :=
  remove_tab_or_newline
    (strip_c0_control_or_space (list_ascii_of_string input)).

Definition basic_URL_parser (input : string) : option url :=
  scheme_start_state (preprocess input).

End Parser.

End URL.


(** ** The platform the service runs on

    The clock, the random source and the two algorithms the URL parser
    borrows, as the service sees them. [Date_now k] is the time value, in
    milliseconds, of the [k]-th reading of the clock by the service
    ([new Date()] or [Date.now()]); [Math_random_floor k n] is
    [Math.floor(r * n)] for the [k]-th value [r] that [Math.random()]
    returns to the service. The readings and draws of the logging sink,
    which stamps its own entries, are not counted. *)
Record Platform : Type := {
  unicode_ToASCII : list ascii -> option (list ascii);
  IPv6_parser : list ascii -> option (list N);
  Date_now : nat -> Z;
  Math_random_floor : nat -> nat -> nat;
  navigator_userAgent : string
}.

(** ** Data model *)

(** [id: Date.now() + Math.random()], kept as its two summands: the clock
    reading and the number of the draw that gave the fraction. *)
Definition token : Type := (Z * nat)%type.

Module Click.
Record clickData : Type := {
  id : token;
  timestamp : Z;
  source : string;
  location : string;
  userAgent : string
}.
End Click.

(** A record of the registry. [createdAt] and [expiresAt] are ISO strings
    in the source; [toISOString] and [new Date(iso)] are inverse to each
    other on valid dates, so the time value in milliseconds stands for the
    string. *)
Record urlData : Type := {
  id : token;
  originalURL : string;
  shortCode : string;
  shortURL : string;
  createdAt : Z;
  expiresAt : Z;
  validityMinutes : Z;
  clicks : list Click.clickData;
  totalClicks : nat
}.

(** The value received for [validityMinutes]: a number that
    [Number.isInteger] accepts, or anything else. *)
Inductive number : Type :=
| Integer (z : Z)
| NonInteger.

(** What the service throws. [Error] carries the message of
    [new Error(message)]; [RangeError] is thrown by [toISOString] on an
    invalid date. *)
Inductive exn : Type :=
| Error (message : string)
| RangeError.

Definition InvalidURL : exn := Error "Invalid URL format".
Definition InvalidValidity : exn :=
  Error "Validity period must be a positive integer".
Definition InvalidShortcodeFormat : exn :=
  Error "Custom shortcode must be alphanumeric and max 20 characters".
Definition ShortcodeConflict : exn := Error "Custom shortcode already exists".
Definition NotFound : exn := Error "URL not found".
Definition Expired : exn := Error "URL has expired".

(** The item under the key [shortened_urls]. *)
Inductive item : Type :=
| NoItem
| Unparsable
| Stored (records : list urlData).

(** The state the service acts on: its own [urls] array, the item in
    [localStorage] and whether [setItem] would throw, the entries the
    logger has received (level and message), and how many clock readings
    and random draws the service has made. *)
Record World : Type := mk_World {
  urls : list urlData;
  localStorage : item;
  quota_exceeded : bool;
  logs : list (string * string);
  clock_reads : nat;
  random_draws : nat
}.

Definition set_urls (l : list urlData) (w : World) : World :=
  mk_World l (localStorage w) (quota_exceeded w) (logs w)
    (clock_reads w) (random_draws w).

Definition set_localStorage (i : item) (w : World) : World :=
  mk_World (urls w) i (quota_exceeded w) (logs w)
    (clock_reads w) (random_draws w).

Definition set_logs (l : list (string * string)) (w : World) : World :=
  mk_World (urls w) (localStorage w) (quota_exceeded w) l
    (clock_reads w) (random_draws w).

Definition set_clock_reads (n : nat) (w : World) : World :=
  mk_World (urls w) (localStorage w) (quota_exceeded w) (logs w)
    n (random_draws w).

Definition tick_clock (w : World) : World :=
  set_clock_reads (S (clock_reads w)) w.

Definition set_random_draws (n : nat) (w : World) : World :=
  mk_World (urls w) (localStorage w) (quota_exceeded w) (logs w)
    (clock_reads w) n.

Definition tick_random (w : World) : World :=
  set_random_draws (S (random_draws w)) w.

(** ** Computations of the service

    A call returns normally, throws, or is still in the retry loop of the
    code generator when the fuel given to the loop is used up. A thrown
    exception keeps the state reached so far. *)
Inductive completion (A : Type) : Type :=
| Normal (a : A)
| Throw (e : exn)
| Looping.

Arguments Normal {A} a.
Arguments Throw {A} e.
Arguments Looping {A}.

Definition M (A : Type) : Type := World -> completion A * World.

Definition ret {A} (a : A) : M A := fun w => (Normal a, w).

Definition throw {A} (e : exn) : M A := fun w => (Throw e, w).

Definition bind {A B} (c : M A) (k : A -> M B) : M B :=
  fun w =>
    match c w with
    | (Normal a, w') => k a w'
    | (Throw e, w') => (Throw e, w')
    | (Looping, w') => (Looping, w')
    end.

Declare Scope service_scope.
Delimit Scope service_scope with service.
Notation "x <- c ;; k" := (bind c (fun x => k))
  (at level 61, c at next level, right associativity) : service_scope.
Notation "c ;;; k" := (bind c (fun _ => k))
  (at level 61, right associativity) : service_scope.

Definition get_urls : M (list urlData) := fun w => (Normal (urls w), w).

Definition put_urls (l : list urlData) : M unit :=
  fun w => (Normal tt, set_urls l w).

Local Open Scope service_scope.
Local Open Scope string_scope.

(** ** The logger, as far as the service is concerned: [log] puts the
    entry in front and keeps the most recent [maxLogs]. *)
Definition maxLogs : nat := 1000.

Definition logger_log (level message : string) : M unit :=
  fun w => (Normal tt, set_logs (firstn maxLogs ((level, message) :: logs w)) w).

Definition logger_info : string -> M unit := logger_log "info".
Definition logger_warn : string -> M unit := logger_log "warn".
Definition logger_error : string -> M unit := logger_log "error".

(** ** The [URLService] class *)
Section URLService.

Variable platform : Platform.

Definition new_Date : M Z :=
  fun w => (Normal (Date_now platform (clock_reads w)), tick_clock w).

(** [Math.floor(Math.random() * n)]. *)
Definition random_index (n : nat) : M nat :=
  fun w => (Normal (Math_random_floor platform (random_draws w) n),
            tick_random w).

(** [Date.now() + Math.random()]. *)
Definition fresh_token : M token :=
  t <- new_Date ;;
  fun w => (Normal (t, random_draws w), tick_random w).

(** A time value outside the range of [Date] makes an invalid date. The
    source adds and multiplies doubles: for a time value of the clock and
    an integer number of minutes, [now.getTime() + minutes * 60 * 1000] is
    exact whenever the exact sum is within the range, and is out of the
    range whenever the exact sum is; so the sum is taken in [Z]. *)
Definition max_time : Z := 8640000000000000.

Definition valid_time (t : Z) : bool :=
  (- max_time <=? t)%Z && (t <=? max_time)%Z.

(** [date.toISOString()] for the date of time value [t]. *)
Definition toISOString (t : Z) : M Z :=
  if valid_time t then ret t else throw RangeError.

Definition loadURLs : M (list urlData) :=
  fun w =>
    match localStorage w with
    | Stored l => (logger_info "URLs loaded from storage" ;;; ret l) w
    | NoItem => (logger_info "URLs loaded from storage" ;;; ret []) w
    | Unparsable =>
        (logger_error "Failed to load URLs from storage" ;;; ret []) w
    end.

Definition initializeService : M unit := logger_info "URL Service initialized".

Definition constructor : M unit :=
  l <- loadURLs ;;
  put_urls l ;;;
  initializeService.

Definition saveURLs : M unit :=
  fun w =>
    if quota_exceeded w
    then logger_error "Failed to save URLs to storage" w
    else logger_info "URLs saved to storage"
           (set_localStorage (Stored (urls w)) w).

Definition chars : string :=
  "abcdefghijklmnopqrstuvwxyzABCDEFGHIJKLMNOPQRSTUVWXYZ0123456789".

(** [s.charAt(i)]: the empty string when [i] is out of range. *)
Definition charAt (s : string) (i : nat) : string :=
  match String.get i s with
  | Some c => String c ""
  | None => ""
  end.

Fixpoint generateShortCode_from (result : string) (remaining : nat)
  : M string :=
  match remaining with
  | O => ret result
  | S k =>
      i <- random_index (String.length chars) ;;
      generateShortCode_from (result ++ charAt chars i) k
  end.

Definition generateShortCode (length : nat) : M string :=
  generateShortCode_from "" length.

(** [new URL(url)]: the record, or [None] for the [TypeError]. *)
Definition new_URL (url : string) : option URL.url :=
  URL.basic_URL_parser (unicode_ToASCII platform) (IPv6_parser platform) url.

Definition isValidURL (url : string) : bool :=
  match new_URL url with
  | Some _ => true
  | None => false
  end.

Definition has_shortCode (code : string) (u : urlData) : bool :=
  String.eqb (shortCode u) code.

Definition isShortCodeUnique (code : string) : M bool :=
  l <- get_urls ;;
  ret (negb (existsb (has_shortCode code) l)).

(** [/^[a-zA-Z0-9]+$/.test(s)]. *)
Definition alphanumeric (s : string) : bool :=
  negb (String.eqb s "")
  && forallb URL.is_ascii_alphanumeric (list_ascii_of_string s).

(** The [do ... while] loop of the generator, for at most [fuel] rounds. *)
Fixpoint generate_unique (fuel : nat) : M string :=
  match fuel with
  | O => fun w => (Looping, w)
  | S fuel' =>
      code <- generateShortCode 6 ;;
      unique <- isShortCodeUnique code ;;
      if unique then ret code else generate_unique fuel'
  end.

(** A custom short code is used when it is truthy: neither [null] nor
    the empty string. *)
Definition truthy (customShortCode : option string) : option string :=
  match customShortCode with
  | Some "" => None
  | other => other
  end.

(** The retry loop runs for at most [fuel] rounds. The test
    [!Number.isInteger(validityMinutes) || validityMinutes <= 0] is the
    match on [validityMinutes] with the comparison in its integer case. *)
Definition createShortURL (fuel : nat) (originalURL : string)
  (customShortCode : option string) (validityMinutes : number) : M urlData :=
  logger_info "Creating short URL" ;;;
  if negb (isValidURL originalURL) then
    logger_error "Invalid URL format" ;;;
    throw InvalidURL
  else
    match validityMinutes with
    | NonInteger =>
        logger_error "Validity period must be a positive integer" ;;;
        throw InvalidValidity
    | Integer minutes =>
        if (minutes <=? 0)%Z then
          logger_error "Validity period must be a positive integer" ;;;
          throw InvalidValidity
        else
          code <-
            match truthy customShortCode with
            | Some custom =>
                if negb (alphanumeric custom)
                   || (20 <? String.length custom)%nat
                then
                  logger_error
                    "Custom shortcode must be alphanumeric and max 20 characters" ;;;
                  throw InvalidShortcodeFormat
                else
                  unique <- isShortCodeUnique custom ;;
                  if negb unique then
                    logger_error "Custom shortcode already exists" ;;;
                    throw ShortcodeConflict
                  else ret custom
            | None => generate_unique fuel
            end ;;
          now <- new_Date ;;
          let expiryDate := (now + minutes * 60 * 1000)%Z in
          i <- fresh_token ;;
          created <- toISOString now ;;
          expires <- toISOString expiryDate ;;
          let data :=
            {| id := i;
               originalURL := originalURL;
               shortCode := code;
               shortURL := "http://localhost:3000/" ++ code;
               createdAt := created;
               expiresAt := expires;
               validityMinutes := minutes;
               clicks := [];
               totalClicks := 0 |} in
          l <- get_urls ;;
          put_urls (l ++ [data])%list ;;;
          saveURLs ;;;
          logger_info "Short URL created successfully" ;;;
          ret data
    end.

Definition getURLByShortCode (code : string) : M (option urlData) :=
  l <- get_urls ;;
  let found := find (has_shortCode code) l in
  match found with
  | Some _ => logger_info "URL found by short code"
  | None => logger_warn "URL not found by short code"
  end ;;;
  ret found.

(** [now > expiry] on the time values of the two dates. *)
Definition isURLExpired (data : urlData) : M bool :=
  now <- new_Date ;;
  ret (expiresAt data <? now)%Z.

Definition mockLocations : list string :=
  ["New York, US"; "London, UK"; "Tokyo, JP"; "Sydney, AU"; "Berlin, DE";
   "Toronto, CA"; "Mumbai, IN"; "SÃ£o Paulo, BR"].

(** The index drawn is within the array for every value of
    [Math.random()]; the default of [nth] stands for [undefined]. *)
Definition getLocationData : M string :=
  i <- random_index (List.length mockLocations) ;;
  ret (nth i mockLocations "undefined").

(** The object found by [getURLByShortCode] is the one in the array:
    [push] and the assignment to [totalClicks] change the first record
    with that code, in place. *)
Fixpoint update_found (code : string) (f : urlData -> urlData)
  (l : list urlData) : list urlData :=
  match l with
  | [] => []
  | u :: t =>
      if has_shortCode code u then f u :: t
      else u :: update_found code f t
  end.

Definition push_click (c : Click.clickData) (u : urlData) : urlData :=
  let pushed := (clicks u ++ [c])%list in
  {| id := id u;
     originalURL := originalURL u;
     shortCode := shortCode u;
     shortURL := shortURL u;
     createdAt := createdAt u;
     expiresAt := expiresAt u;
     validityMinutes := validityMinutes u;
     clicks := pushed;
     totalClicks := List.length pushed |}.

(** The promise of the [async] method settles with the completion of its
    body; the one [await], on the mock location, comes after both checks
    and before the record is touched. *)
Definition recordClick (code : string) (source : string) : M urlData :=
  logger_info "Recording click" ;;;
  found <- getURLByShortCode code ;;
  match found with
  | None =>
      logger_error "URL not found" ;;;
      throw NotFound
  | Some data =>
      expired <- isURLExpired data ;;
      if expired then
        logger_error "URL has expired" ;;;
        throw Expired
      else
        loc <- getLocationData ;;
        i <- fresh_token ;;
        time <- new_Date ;;
        let click :=
          {| Click.id := i;
             Click.timestamp := time;
             Click.source := source;
             Click.location := loc;
             Click.userAgent := navigator_userAgent platform |} in
        l <- get_urls ;;
        put_urls (update_found code (push_click click) l) ;;;
        saveURLs ;;;
        logger_info "Click recorded successfully" ;;;
        ret (push_click click data)
  end.

(** [Array.prototype.sort]: a stable sort by the comparator, in place.
    [a] stays in front of [b] when [compare a b <= 0]. *)
Fixpoint sort_insert {A} (compare : A -> A -> Z) (a : A) (l : list A)
  : list A :=
  match l with
  | [] => [a]
  | b :: t =>
      if (compare a b <=? 0)%Z then a :: l
      else b :: sort_insert compare a t
  end.

Fixpoint Array_sort {A} (compare : A -> A -> Z) (l : list A) : list A :=
  match l with
  | [] => []
  | a :: t => sort_insert compare a (Array_sort compare t)
  end.

(** [(a, b) => new Date(b.createdAt) - new Date(a.createdAt)]. *)
Definition by_createdAt_descending (a b : urlData) : Z :=
  (createdAt b - createdAt a)%Z.

Definition getAllURLs : M (list urlData) :=
  logger_info "Retrieving all URLs" ;;;
  l <- get_urls ;;
  let sorted := Array_sort by_createdAt_descending l in
  put_urls sorted ;;;
  ret sorted.

(** [this.urls.filter(url => !this.isURLExpired(url))]: the callback
    reads the clock once for each record, in order. *)
Fixpoint filter_not_expired (l : list urlData) : M (list urlData) :=
  match l with
  | [] => ret []
  | u :: t =>
      expired <- isURLExpired u ;;
      kept <- filter_not_expired t ;;
      ret (if negb expired then u :: kept else kept)
  end.

Definition deleteExpiredURLs : M nat :=
  l <- get_urls ;;
  let initialCount := List.length l in
  kept <- filter_not_expired l ;;
  put_urls kept ;;;
  let deletedCount := initialCount - List.length kept in
  (if (0 <? deletedCount)%nat then
     saveURLs ;;;
     logger_info "Expired URLs cleaned up"
   else ret tt) ;;;
  ret deletedCount.

End URLService.

(** ** Calls, runs and the predicates of the specification *)
Section Runs.

Variable platform : Platform.

Inductive call : Type :=
| CreateShortURL (fuel : nat) (originalURL : string)
    (customShortCode : option string) (validityMinutes : number)
| GetURLByShortCode (code : string)
| IsURLExpired (data : urlData)
| RecordClick (code source : string)
| GetAllURLs
| DeleteExpiredURLs.

(** The state a call leaves, however it completes. *)
Definition perform (c : call) (w : World) : World :=
  match c with
  | CreateShortURL fuel url custom minutes =>
      snd (createShortURL platform fuel url custom minutes w)
  | GetURLByShortCode code => snd (getURLByShortCode code w)
  | IsURLExpired data => snd (isURLExpired platform data w)
  | RecordClick code source => snd (recordClick platform code source w)
  | GetAllURLs => snd (getAllURLs w)
  | DeleteExpiredURLs => snd (deleteExpiredURLs platform w)
  end.

Definition run (cs : list call) (w : World) : World :=
  fold_left (fun w' c => perform c w') cs w.

(** [k] calls of [recordClick] on [code], each of which returned. *)
Inductive clicked (code : string) : nat -> World -> World -> Prop :=
| clicked_O w : clicked code 0 w w
| clicked_S k w w1 w2 source data :
    clicked code k w w1 ->
    recordClick platform code source w1 = (Normal data, w2) ->
    clicked code (S k) w w2.

(** Links created one after the other with no custom short code, each
    call returning its record. *)
Inductive created : World -> list urlData -> World -> Prop :=
| created_nil w : created w [] w
| created_cons w w1 w2 fuel url minutes data rest :
    createShortURL platform fuel url None minutes w = (Normal data, w1) ->
    created w1 rest w2 ->
    created w (data :: rest) w2.

(** The shortcode format check: [^[A-Za-z0-9]+$] and at most 20 long. *)
Definition well_formed_code (code : string) : Prop :=
  alphanumeric code = true /\ String.length code <= 20.

(** The validation and state errors of [createShortURL], each with the
    condition that raises it once the checks before it have passed. The
    clock is read for [createdAt] after the short code is settled. *)
Inductive rejected (url : string) (custom : option string) (minutes : number)
  (w : World) : exn -> Prop :=
| rejected_url :
    isValidURL platform url = false ->
    rejected url custom minutes w InvalidURL
| rejected_validity :
    isValidURL platform url = true ->
    (minutes = NonInteger \/ exists m, minutes = Integer m /\ (m <= 0)%Z) ->
    rejected url custom minutes w InvalidValidity
| rejected_format m code :
    isValidURL platform url = true ->
    minutes = Integer m -> (0 < m)%Z ->
    truthy custom = Some code ->
    ~ well_formed_code code ->
    rejected url custom minutes w InvalidShortcodeFormat
| rejected_conflict m code :
    isValidURL platform url = true ->
    minutes = Integer m -> (0 < m)%Z ->
    truthy custom = Some code ->
    well_formed_code code ->
    existsb (has_shortCode code) (urls w) = true ->
    rejected url custom minutes w ShortcodeConflict
| rejected_date m :
    isValidURL platform url = true ->
    minutes = Integer m -> (0 < m)%Z ->
    (forall code, truthy custom = Some code ->
       well_formed_code code
       /\ existsb (has_shortCode code) (urls w) = false) ->
    valid_time (Date_now platform (clock_reads w))
    && valid_time (Date_now platform (clock_reads w) + m * 60 * 1000) = false ->
    rejected url custom minutes w RangeError.

End Runs.

(** The code that [generateShortCode] builds from the draws numbered [p]
    and up. *)
Fixpoint drawn_from (platform : Platform) (result : string)
  (remaining p : nat) : string :=
  match remaining with
  | O => result
  | S k =>
      drawn_from platform
        (result ++ charAt chars (Math_random_floor platform p (String.length chars)))
        k (S p)
  end.

(** The records that the sweep keeps when its first clock reading is the
    one numbered [p]. *)
Fixpoint kept_from (platform : Platform) (p : nat) (l : list urlData)
  : list urlData :=
  match l with
  | [] => []
  | u :: t =>
      if (expiresAt u <? Date_now platform p)%Z
      then kept_from platform (S p) t
      else u :: kept_from platform (S p) t
  end.

Definition code_drawn_at (platform : Platform) (p : nat) : string :=
  drawn_from platform "" 6 p.

(** No record of the list has the short code. *)
Definition fresh (code : string) (l : list urlData) : Prop :=
  existsb (has_shortCode code) l = false.

(** A short code can be settled: the custom code is well formed and not
    in the registry or, with no custom code, one of the codes drawn in the
    rounds of the generator is not in the registry. *)
Definition code_available (platform : Platform) (fuel : nat)
  (custom : option string) (w : World) : Prop :=
  match truthy custom with
  | Some code => well_formed_code code /\ fresh code (urls w)
  | None =>
      exists k, k < fuel
        /\ fresh (code_drawn_at platform (random_draws w + 6 * k)) (urls w)
  end.

Definition shortCodes (l : list urlData) : list string := map shortCode l.

(** Most recent first. *)
Definition newest_first (a b : urlData) : Prop := (createdAt b <= createdAt a)%Z.

Definition created_at (t : Z) (u : urlData) : bool := (createdAt u =? t)%Z.

(** [isExpired] at the clock reading [t]. *)
Definition expired_at (t : Z) (u : urlData) : bool := (expiresAt u <? t)%Z.

Definition counts_clicks (u : urlData) : Prop :=
  totalClicks u = List.length (clicks u).

Definition window_exact (u : urlData) : Prop :=
  (expiresAt u - createdAt u = validityMinutes u * 60000)%Z.

(** What no call may change in a record once it is in the registry:
    everything but [clicks] and [totalClicks]. *)
Definition fixed_part (u : urlData)
  : token * string * string * string * Z * Z * Z :=
  (id u, originalURL u, shortCode u, shortURL u,
   createdAt u, expiresAt u, validityMinutes u).

(** A host that names a machine: a domain, which is never empty, or an
    IP address; not the empty host, not an opaque host. *)
Definition names_a_host (h : URL.host) : Prop :=
  match h with
  | URL.Domain (_ :: _) | URL.IPv4 _ | URL.IPv6 _ => True
  | _ => False
  end.

(** The schemes for which the parser insists on a host. *)
Definition needs_host (s : string) : bool :=
  URL.is_special s && negb (String.eqb s "file").

(** What a state of the parser hands on: the scheme it was given and, for
    a special scheme, a host that names a machine. *)
Definition settled (s : string) (u : URL.url) : Prop :=
  URL.scheme u = s
  /\ (URL.is_special s = true ->
      exists h, URL.host_of u = Some h /\ names_a_host h).

(** The registry and its persisted mirror are as they were. *)
Definition untouched (w w' : World) : Prop :=
  urls w' = urls w /\ localStorage w' = localStorage w.

(** ** A platform and registries to run the service on *)

Definition demo_platform : Platform :=
  {| unicode_ToASCII := fun _ => None;
     IPv6_parser := fun _ => None;
     Date_now := fun k => (1000 + Z.of_nat k)%Z;
     Math_random_floor := fun k n => if (k <? 13)%nat then 0 else k mod n;
     navigator_userAgent := "Mozilla/5.0" |}.

(** The clock stands still at [t]. *)
Definition frozen_platform (t : Z) : Platform :=
  {| unicode_ToASCII := fun _ => None;
     IPv6_parser := fun _ => None;
     Date_now := fun _ => t;
     Math_random_floor := fun k n => k mod n;
     navigator_userAgent := "Mozilla/5.0" |}.

Definition empty_world : World := mk_World [] NoItem false [] 0 0.

Definition one_link : World :=
  perform demo_platform
    (CreateShortURL 3 "https://a.b" (Some "promo1") (Integer 30)) empty_world.

(** The record of [one_link]. *)
Definition promo1_link : urlData :=
  {| id := (1001%Z, 0);
     originalURL := "https://a.b";
     shortCode := "promo1";
     shortURL := "http://localhost:3000/promo1";
     createdAt := 1000;
     expiresAt := 1801000;
     validityMinutes := 30;
     clicks := [];
     totalClicks := 0 |}.

Definition two_links : World :=
  perform demo_platform
    (CreateShortURL 3 "https://example.com" None (Integer 1)) one_link.

(** * The logger and the components that call the service *)

(** ** The [Logger] class

    The class behind the logging calls of the service, with its own
    persisted item [app_logs]. [reading k] is the [k]-th reading of the
    clock by the logger, a valid time value; entries keep the time value
    for the ISO string, and [id] as for the records. *)
Module Logger.

(** The values handed to the logger as [data]. An [Error] object has no
    enumerable property of its own: [JSON.stringify] writes it as [{}]. *)
#[warnings="-register-all"]
Inductive json : Type :=
| JNull
| JBool (b : bool)
| JNumber (z : Z)
| JString (s : string)
| JArray (items : list json)
| JObject (members : list (string * json))
| JError.

(** [JSON.parse(JSON.stringify(value))]. *)
Fixpoint JSON_clone (value : json) : json :=
  match value with
  | JArray items => JArray (map JSON_clone items)
  | JObject members =>
      JObject (map (fun m => (fst m, JSON_clone (snd m))) members)
  | JError => JObject []
  | other => other
  end.

Record logEntry : Type := {
  id : token;
  timestamp : Z;
  level : string;
  message : string;
  data : json;
  userAgent : string;
  url : string
}.

Definition clone_entry (e : logEntry) : logEntry :=
  {| id := id e;
     timestamp := timestamp e;
     level := level e;
     message := message e;
     data := JSON_clone (data e);
     userAgent := userAgent e;
     url := url e |}.

(** The item under the key [app_logs]. *)
Inductive item : Type :=
| NoItem
| Unparsable
| Stored (entries : list logEntry).

(** A call on the console: the line printed for an entry with the method
    chosen for its level, or the warning that the logs could not be
    stored. *)
Inductive console_call : Type :=
| Printed (method : string) (entry : logEntry)
| Storage_warning.

Record state : Type := mk_state {
  logs : list logEntry;
  app_logs : item;
  setItem_throws : bool;
  console : list console_call;
  clock_reads : nat;
  random_draws : nat
}.

Section Class.

Variable reading : nat -> Z.
Variable navigator_userAgent : string.
Variable location_href : string.

(** [new Logger()], on a browser whose storage holds [stored]. *)
Definition new_Logger (stored : item) (throws : bool) : state :=
  mk_state [] stored throws [] 0 0.

Definition console_method (level : string) : string :=
  if String.eqb level "error" then "error"
  else if String.eqb level "warn" then "warn"
  else "log".

Definition log (level message : string) (data : json) (s : state) : state :=
  let logEntry :=
    {| id := (reading (S (clock_reads s)), random_draws s);
       timestamp := reading (clock_reads s);
       level := level;
       message := message;
       data := data;
       userAgent := navigator_userAgent;
       url := location_href |} in
  let unshifted := logEntry :: logs s in
  let kept :=
    if (maxLogs <? List.length unshifted)%nat
    then firstn maxLogs unshifted else unshifted in
  let stored :=
    if setItem_throws s then app_logs s
    else Stored (map clone_entry (firstn 100 kept)) in
  let warned :=
    if setItem_throws s then (console s ++ [Storage_warning])%list
    else console s in
  mk_state kept stored (setItem_throws s)
    (warned ++ [Printed (console_method level) logEntry])%list
    (2 + clock_reads s) (S (random_draws s)).

Definition info : string -> json -> state -> state := log "info".
Definition warn : string -> json -> state -> state := log "warn".
Definition error : string -> json -> state -> state := log "error".
Definition debug : string -> json -> state -> state := log "debug".

Definition getLogs (s : state) : list logEntry := logs s.

Definition clearLogs (s : state) : state :=
  info "Logs cleared" JNull
    (mk_state [] NoItem (setItem_throws s) (console s)
       (clock_reads s) (random_draws s)).

(** An item that parses to something other than an array of entries is
    not among the items of the model. *)
Definition loadLogs (s : state) : state :=
  match app_logs s with
  | Stored entries =>
      info "Logs loaded from localStorage"
        (JObject [("count", JNumber (Z.of_nat (List.length entries)))])
        (mk_state entries (app_logs s) (setItem_throws s) (console s)
           (clock_reads s) (random_draws s))
  | NoItem => s
  | Unparsable => error "Failed to load logs from localStorage" JError s
  end.

(** The module: [new Logger()] and [loadLogs()]. *)
Definition logger (stored : item) (throws : bool) : state :=
  loadLogs (new_Logger stored throws).

End Class.

(** What the service-level view of the logger keeps of an entry. *)
Definition seen (e : logEntry) : string * string := (level e, message e).

End Logger.

(** ** Helpers of the components *)

(** [try { body } catch (error) { handler }]. *)
Definition try_catch {A} (body : M A) (handler : exn -> M A) : M A :=
  fun w =>
    match body w with
    | (Throw e, w') => handler e w'
    | other => other
    end.

(** The decimal numeral of an integer, as a template literal writes it. *)
Definition numeral (z : Z) : string := NilZero.string_of_int (Z.to_int z).

(** A toast, as passed to [toast({...})]. *)
Record toast : Type := {
  title : string;
  description : string;
  variant : option string
}.

Definition destructive (title description : string) : toast :=
  {| title := title; description := description;
     variant := Some "destructive" |}.

Definition utf8 (bytes : list nat) : string :=
  string_of_list_ascii (map ascii_of_nat bytes).

(** The white space and line terminators that [trim] removes, in UTF-8:
    U+0009 to U+000D, U+0020, U+00A0, U+1680, U+2000 to U+200A, U+2028,
    U+2029, U+202F, U+205F, U+3000 and U+FEFF. *)
Definition white_space : list string :=
  map utf8
    ([[9]; [10]; [11]; [12]; [13]; [32]; [194; 160]; [225; 154; 128]]
     ++ map (fun k => [226; 128; 128 + k]) (seq 0 11)
     ++ [[226; 128; 168]; [226; 128; 169]; [226; 128; 175];
         [226; 129; 159]; [227; 128; 128]; [239; 187; 191]])%list.

(** The rest of [s] after the first entry of [spaces] that [s] begins
    with, if there is one. *)
Fixpoint strip_one (spaces : list string) (s : string) : option string :=
  match spaces with
  | [] => None
  | space :: others =>
      if String.prefix space s
      then Some (String.substring (String.length space)
                   (String.length s - String.length space) s)
      else strip_one others s
  end.

Fixpoint strip_all (spaces : list string) (fuel : nat) (s : string) : string :=
  match fuel with
  | O => s
  | S fuel' =>
      match strip_one spaces s with
      | Some rest => strip_all spaces fuel' rest
      | None => s
      end
  end.

Definition reverse (s : string) : string :=
  string_of_list_ascii (rev (list_ascii_of_string s)).

(** [s.trim()]: each strip removes at least one byte, so the length of
    [s] is fuel enough. *)
Definition trim (s : string) : string :=
  let n := String.length s in
  reverse (strip_all (map reverse white_space) n
             (reverse (strip_all white_space n s))).

(** [array.indexOf(x)], on strings. *)
Fixpoint indexOf (x : string) (l : list string) : Z :=
  match l with
  | [] => -1
  | y :: t =>
      if String.eqb y x then 0
      else let i := indexOf x t in if (i <? 0)%Z then -1 else (i + 1)%Z
  end.

(** [array.filter((item, index) => p(item, index))], from index [i]. *)
Fixpoint filter_indexed {A} (p : A -> nat -> bool) (i : nat) (l : list A)
  : list A :=
  match l with
  | [] => []
  | a :: t =>
      if p a i then a :: filter_indexed p (S i) t
      else filter_indexed p (S i) t
  end.

(** [array.forEach((item, index) => ...)] collecting what each call
    pushes, from index [i]. *)
Fixpoint flat_map_indexed {A B} (f : A -> nat -> list B) (i : nat)
  (l : list A) : list B :=
  match l with
  | [] => []
  | a :: t => (f a i ++ flat_map_indexed f (S i) t)%list
  end.

(** ** The [URLForm] component and the page that holds it

    A handler acts on the state of the render it was made in and leaves
    the state of the next render; the logger is the one of the service's
    world. *)
Module Form.

(** The value of the validity field: [''] or what [parseInt] read. *)
Inductive minutes_input : Type :=
| Blank
| Entered (value : number).

(** [Number(value)]. *)
Definition Number (value : minutes_input) : number :=
  match value with
  | Blank => Integer 0
  | Entered n => n
  end.

Record field : Type := mk_field {
  id : Z;
  originalURL : string;
  validityMinutes : minutes_input;
  customShortCode : string
}.

(** The [field] and [value] of [updateURL]. *)
Inductive change : Type :=
| Set_originalURL (value : string)
| Set_validityMinutes (value : minutes_input)
| Set_customShortCode (value : string).

(** The state of [URLForm], the toasts shown, and [recentURLs] of the
    page, which [onURLsCreated] sets. *)
Record state : Type := mk_state {
  urls : list field;
  isLoading : bool;
  toasts : list toast;
  recentURLs : list urlData
}.

Definition initial : state :=
  mk_state [mk_field 1 "" (Entered (Integer 30)) ""] false [] [].

Definition setUrls (l : list field) (s : state) : state :=
  mk_state l (isLoading s) (toasts s) (recentURLs s).

Definition setIsLoading (b : bool) (s : state) : state :=
  mk_state (urls s) b (toasts s) (recentURLs s).

Definition show (t : toast) (s : state) : state :=
  mk_state (urls s) (isLoading s) (toasts s ++ [t])%list (recentURLs s).

Definition setRecentURLs (l : list urlData) (s : state) : state :=
  mk_state (urls s) (isLoading s) (toasts s) l.

(** [now] is the value of [Date.now()] in the call. *)
Definition addURLField (now : Z) (s : state) : M state :=
  if (5 <=? List.length (urls s))%nat then
    ret (show (destructive "Maximum Limit Reached"
                 "You can only shorten up to 5 URLs at once.") s)
  else
    let newUrl := mk_field now "" (Entered (Integer 30)) "" in
    logger_info "URL field added" ;;;
    ret (setUrls (urls s ++ [newUrl])%list s).

Definition removeURLField (i : Z) (s : state) : M state :=
  if (List.length (urls s) =? 1)%nat then
    ret (show (destructive "Cannot Remove"
                 "At least one URL field is required.") s)
  else
    logger_info "URL field removed" ;;;
    ret (setUrls (filter (fun u => negb (id u =? i)%Z) (urls s)) s).

Definition apply_change (c : change) (u : field) : field :=
  match c with
  | Set_originalURL v => mk_field (id u) v (validityMinutes u) (customShortCode u)
  | Set_validityMinutes v => mk_field (id u) (originalURL u) v (customShortCode u)
  | Set_customShortCode v => mk_field (id u) (originalURL u) (validityMinutes u) v
  end.

Definition updateURL (i : Z) (c : change) (s : state) : state :=
  setUrls (map (fun u => if (id u =? i)%Z then apply_change c u else u)
             (urls s)) s.

(** [!Number.isInteger(n) || n <= 0]. *)
Definition not_positive_integer (n : number) : bool :=
  match n with
  | NonInteger => true
  | Integer z => (z <=? 0)%Z
  end.

(** The format test of the custom short code, as in the service. *)
Definition bad_format (code : string) : bool :=
  negb (alphanumeric code) || (20 <? String.length code)%nat.

Definition truthy_string (s : string) : bool := negb (String.eqb s "").

Section Handlers.

Variable platform : Platform.

(** The message of the [RangeError] that [toISOString] throws, which the
    engine words. *)
Variable invalid_time_message : string.

Definition message_of (e : exn) : string :=
  match e with
  | Error m => m
  | RangeError => invalid_time_message
  end.

(** The errors that the callback of [forEach] pushes for one field. *)
Definition field_errors (u : field) (index : nat) : list string :=
  let label := "URL " ++ numeral (Z.of_nat index + 1)%Z in
  let required :=
    if negb (truthy_string (trim (originalURL u)))
    then [label ++ ": Original URL is required"]
    else if negb (isValidURL platform (originalURL u))
         then [label ++ ": Invalid URL format"]
         else [] in
  let validity :=
    if not_positive_integer (Number (validityMinutes u))
    then [label ++ ": Validity must be a positive integer"]
    else [] in
  let shortcode :=
    if truthy_string (customShortCode u) && bad_format (customShortCode u)
    then [label
          ++ ": Custom shortcode must be alphanumeric and max 20 characters"]
    else [] in
  (required ++ validity ++ shortcode)%list.

Definition customCodes (l : list field) : list string :=
  map customShortCode (filter (fun u => truthy_string (customShortCode u)) l).

Definition duplicates (codes : list string) : list string :=
  filter_indexed
    (fun code index => negb (indexOf code codes =? Z.of_nat index)%Z) 0 codes.

Definition validateForm (s : state) : list string :=
  (flat_map_indexed field_errors 0 (urls s)
   ++ (if (0 <? List.length (duplicates (customCodes (urls s))))%nat
       then ["Duplicate custom shortcodes are not allowed"]
       else []))%list.

(** [customShortCode || null]. *)
Definition or_null (code : string) : option string :=
  if truthy_string code then Some code else None.

(** The body of the [for ... of] loop: the record is pushed to [results],
    or the error is caught, shown and logged. *)
Definition shorten_one (fuel : nat) (u : field)
  (acc : list urlData * state) : M (list urlData * state) :=
  try_catch
    (result <- createShortURL platform fuel (originalURL u)
                 (or_null (customShortCode u)) (Number (validityMinutes u)) ;;
     ret ((fst acc ++ [result])%list, snd acc))
    (fun error =>
       logger_error "Failed to create short URL" ;;;
       ret (fst acc,
            show (destructive "Error Creating Short URL" (message_of error))
              (snd acc))).

Fixpoint shorten_all (fuel : nat) (l : list field)
  (acc : list urlData * state) : M (list urlData * state) :=
  match l with
  | [] => ret acc
  | u :: t =>
      acc' <- shorten_one fuel u acc ;;
      shorten_all fuel t acc'
  end.

(** [handleURLsCreated] of the page. *)
Definition handleURLsCreated (newURLs : list urlData) (s : state) : M state :=
  logger_info "New URLs created and displayed" ;;;
  ret (setRecentURLs newURLs s).

Definition success (n : nat) : toast :=
  {| title := "Success!";
     description :=
       numeral (Z.of_nat n) ++ " URL" ++ (if (1 <? n)%nat then "s" else "")
       ++ " shortened successfully!";
     variant := None |}.

(** [now] is the value of [Date.now()] for the field of the reset form.
    The toast comes before the logger call in the handler of a caught
    error; the two act on different states. *)
Definition handleSubmit (fuel : nat) (now : Z) (s : state) : M state :=
  let validationErrors := validateForm s in
  if (0 <? List.length validationErrors)%nat then
    logger_error "Form validation failed" ;;;
    ret (fold_left
           (fun s' error => show (destructive "Validation Error" error) s')
           validationErrors s)
  else
    logger_info "Starting URL shortening process" ;;;
    s' <- try_catch
            (done <- shorten_all fuel (urls s) ([], setIsLoading true s) ;;
             let results := fst done in
             if (0 <? List.length results)%nat then
               let shown := show (success (List.length results)) (snd done) in
               let reset :=
                 setUrls [mk_field now "" (Entered (Integer 30)) ""] shown in
               notified <- handleURLsCreated results reset ;;
               logger_info "URLs shortened successfully" ;;;
               ret notified
             else ret (snd done))
            (fun _ =>
               logger_error "Unexpected error during URL shortening" ;;;
               ret (show (destructive "Unexpected Error"
                            "An unexpected error occurred. Please try again.")
                      (setIsLoading true s))) ;;
    ret (setIsLoading false s').

End Handlers.

End Form.

(** ** The [URLResults] component *)
Module Results.

(** [now] is the reading of [new Date()]. The quotients are exact in
    doubles for the time values of a clock after 1970 and of a valid
    expiry date. *)
Definition getTimeRemaining (now expiresAt : Z) : string :=
  let diff := (expiresAt - now)%Z in
  if (diff <=? 0)%Z then "Expired"
  else
    let minutes := (diff / (1000 * 60))%Z in
    let hours := (minutes / 60)%Z in
    let days := (hours / 24)%Z in
    if (0 <? days)%Z
    then numeral days ++ "d " ++ numeral (Z.rem hours 24) ++ "h remaining"
    else if (0 <? hours)%Z
         then numeral hours ++ "h " ++ numeral (Z.rem minutes 60)
              ++ "m remaining"
         else numeral minutes ++ "m remaining".

End Results.

(** ** The [Statistics] page *)
Module Statistics.

Record state : Type := mk_state {
  urls : list urlData;
  loading : bool;
  toasts : list toast
}.

Definition setUrls (l : list urlData) (s : state) : state :=
  mk_state l (loading s) (toasts s).

Definition setLoading (b : bool) (s : state) : state :=
  mk_state (urls s) b (toasts s).

Definition show (t : toast) (s : state) : state :=
  mk_state (urls s) (loading s) (toasts s ++ [t])%list.

(** [now] is the reading of [new Date()]. *)
Definition isExpired (now expiresAt : Z) : bool := (expiresAt <? now)%Z.

(** [first] is the reading of the clock in [isExpired], [second] the one
    after it. *)
Definition getStatusColor (first second expiresAt : Z) : string :=
  if isExpired first expiresAt then "text-red-400"
  else
    let diff := (expiresAt - second)%Z in
    let minutes := (diff / (1000 * 60))%Z in
    if (minutes <? 60)%Z then "text-yellow-400" else "text-green-400".

Definition getStatusText (first second expiresAt : Z) : string :=
  if isExpired first expiresAt then "Expired"
  else
    let diff := (expiresAt - second)%Z in
    let minutes := (diff / (1000 * 60))%Z in
    let hours := (minutes / 60)%Z in
    let days := (hours / 24)%Z in
    if (0 <? days)%Z
    then numeral days ++ "d " ++ numeral (Z.rem hours 24) ++ "h remaining"
    else if (0 <? hours)%Z
         then numeral hours ++ "h " ++ numeral (Z.rem minutes 60)
              ++ "m remaining"
         else numeral minutes ++ "m remaining".

Definition loadStatistics (platform : Platform) (s : state) : M state :=
  let started := setLoading true s in
  s' <- try_catch
          (deletedCount <- deleteExpiredURLs platform ;;
           (if (0 <? deletedCount)%nat
            then logger_info "Expired URLs cleaned up on statistics page load"
            else ret tt) ;;;
           allUrls <- getAllURLs ;;
           logger_info "Statistics loaded" ;;;
           ret (setUrls allUrls started))
          (fun _ =>
             logger_error "Failed to load statistics" ;;;
             ret (show (destructive "Error" "Failed to load statistics")
                    started)) ;;
  ret (setLoading false s').

End Statistics.

(** ** The [RedirectHandler] page *)

(** The type of the records, for the page whose state has a field of
    the same name. *)
Definition link : Type := urlData.

Module Redirect.

Record state : Type := mk_state {
  status : string;
  urlData : option link;
  countdown : nat
}.

Definition initial : state := mk_state "loading" None 3.




End Redirect.

(** Every draw for the code generator is an index of [chars], as
    [Math.floor(Math.random() * 62)] is. *)
Definition draws_in_range (platform : Platform) : Prop :=
  forall k,
    Math_random_floor platform k (String.length chars) < String.length chars.

(** The clock never runs backwards. *)
Definition clock_monotone (platform : Platform) : Prop :=
  forall j k, j <= k -> (Date_now platform j <= Date_now platform k)%Z.

(** ** Runs of the logger *)

(** A call [logger.log(level, message, data)]. *)
Definition log_call : Type := string * string * Logger.json.

(** What a call hands over, as it stands in the entry made for it. *)
Definition logged_as (e : Logger.logEntry) : log_call :=
  (Logger.level e, Logger.message e, Logger.data e).

(** The calls are made one after the other. *)
Definition log_all (reading : nat -> Z) (navigator_userAgent location_href : string)
  (cs : list log_call) (s : Logger.state) : Logger.state :=
  fold_left
    (fun s c =>
       Logger.log reading navigator_userAgent location_href
         (fst (fst c)) (snd (fst c)) (snd c) s)
    cs s.

(** ** Conditions on the form *)

(** The form has one to five fields, with distinct ids. *)
Definition form_tidy (s : Form.state) : Prop :=
  1 <= List.length (Form.urls s) <= 5
  /\ NoDup (map Form.id (Form.urls s)).

(** A field that the service takes, but for the short code being taken
    already and the date being out of range. *)
Definition field_ok (platform : Platform) (u : Form.field) : Prop :=
  trim (Form.originalURL u) <> ""
  /\ isValidURL platform (Form.originalURL u) = true
  /\ (exists m, Form.Number (Form.validityMinutes u) = Integer m /\ (0 < m)%Z)
  /\ (Form.customShortCode u = ""
      \/ well_formed_code (Form.customShortCode u)).

(** The error toasts shown for the errors, one after the other. *)
Definition shown (title : string) (errors : list string) (s : Form.state)
  : Form.state :=
  fold_left (fun s' error => Form.show (destructive title error) s') errors s.

(** The field of the form after a reset. *)
Definition blank_field (now : Z) : Form.field :=
  Form.mk_field now "" (Form.Entered (Integer 30)) "".

(** ** The time left, as the components word it *)

(** The text for [d] days, [h] hours and [m] minutes. *)
Definition remaining_text (d h m : Z) : string :=
  if (0 <? d)%Z then numeral d ++ "d " ++ numeral h ++ "h remaining"
  else if (0 <? h)%Z then numeral h ++ "h " ++ numeral m ++ "m remaining"
       else numeral m ++ "m remaining".

(** ** The history of a record *)

(** The computation never sets the count of clock readings back. *)
Definition advances {A} (c : M A) : Prop :=
  forall w, clock_reads w <= clock_reads (snd (c w)).

(** Up to the time [t], the clicks of the record are in the order of
    their timestamps, none of them earlier than the creation. *)
Definition chronological (t : Z) (u : urlData) : Prop :=
  (createdAt u <= t)%Z
  /\ Forall (fun c => (createdAt u <= Click.timestamp c <= t)%Z) (clicks u)
  /\ StronglySorted
       (fun a b => (Click.timestamp a <= Click.timestamp b)%Z) (clicks u).

(** [Math.floor(Math.random() * n)] is an index below [n]. *)
Definition random_floor_in_range (platform : Platform) : Prop :=
  forall k n, 0 < n -> Math_random_floor platform k n < n.

(** ** States to run the logger and the components on *)


Definition demo_reading (k : nat) : Z := (1000 + Z.of_nat k)%Z.

(** The logger of a first visit. *)
Definition demo_logger : Logger.state :=
  Logger.logger demo_reading "Mozilla/5.0" "http://localhost:3000/"
    Logger.NoItem false.

(** The form with a URL typed into its field. *)
Definition filled_form : Form.state :=
  Form.updateURL 1 (Form.Set_originalURL "https://a.b") Form.initial.

(** The statistics page before its first load. *)
Definition loading_page : Statistics.state := Statistics.mk_state [] true [].

(** A create, two clicks, a listing and a sweep, on [one_link]. *)
Definition demo_calls : list call :=
  [CreateShortURL 3 "https://a.c" None (Integer 5);
   RecordClick "promo1" "direct";
   RecordClick "promo1" "qr";
   GetAllURLs;
   DeleteExpiredURLs].

(** * Properties of the service *)

Local Arguments firstn : simpl never.

(** ** Sorting *)

Lemma sort_insert_Permutation {A} (compare : A -> A -> Z) (a : A) (l : list A) :
  Permutation (a :: l) (sort_insert compare a l).
Proof.
  induction l as [|b t IH]; simpl.
  - reflexivity.
  - destruct (compare a b <=? 0)%Z.
    + reflexivity.
    + eapply perm_trans; [apply perm_swap | apply perm_skip, IH].
Qed.

Lemma Array_sort_Permutation {A} (compare : A -> A -> Z) (l : list A) :
  Permutation l (Array_sort compare l).
Proof.
  induction l as [|a t IH]; simpl.
  - constructor.
  - eapply perm_trans; [apply perm_skip, IH | apply sort_insert_Permutation].
Qed.

Lemma sort_insert_newest_first (a : urlData) (l : list urlData) :
  StronglySorted newest_first l ->
  StronglySorted newest_first (sort_insert by_createdAt_descending a l).
Proof.
  induction 1 as [|b t Hsorted IH Hall]; simpl.
  - repeat constructor.
  - unfold by_createdAt_descending at 1.
    destruct (Z.leb_spec (createdAt b - createdAt a) 0) as [Hle|Hgt].
    + constructor; [constructor; assumption|].
      constructor; [unfold newest_first; lia|].
      eapply Forall_impl; [|exact Hall].
      unfold newest_first; intros; lia.
    + constructor; [exact IH|].
      eapply Permutation_Forall; [apply sort_insert_Permutation|].
      constructor; [unfold newest_first; lia | exact Hall].
Qed.

Lemma Array_sort_newest_first (l : list urlData) :
  StronglySorted newest_first (Array_sort by_createdAt_descending l).
Proof.
  induction l as [|a t IH]; simpl.
  - constructor.
  - apply sort_insert_newest_first, IH.
Qed.

(** The sort is stable: records created at the same instant keep their
    order. *)
Lemma sort_insert_stable (t : Z) (a : urlData) (l : list urlData) :
  filter (created_at t) (sort_insert by_createdAt_descending a l)
  = filter (created_at t) (a :: l).
Proof.
  induction l as [|b l' IH]; [reflexivity|].
  cbn [sort_insert]. unfold by_createdAt_descending at 1.
  destruct (Z.leb_spec (createdAt b - createdAt a) 0) as [Hle|Hgt];
    [reflexivity|].
  cbn [filter] in *. rewrite IH. unfold created_at.
  destruct (Z.eqb_spec (createdAt a) t), (Z.eqb_spec (createdAt b) t);
    try reflexivity; lia.
Qed.

Lemma Array_sort_stable (t : Z) (l : list urlData) :
  filter (created_at t) (Array_sort by_createdAt_descending l)
  = filter (created_at t) l.
Proof.
  induction l as [|a l' IH]; [reflexivity|].
  cbn [Array_sort]. rewrite sort_insert_stable.
  cbn [filter]. rewrite IH. reflexivity.
Qed.

(** ** C1: [getAllURLs] *)

(** C1, as stated, fails: on the registry of two links created one after
    the other, [getAllURLs] returns the later link first and leaves the
    [urls] array in that order, not in the order it had. *)
Lemma getAllURLs_reorders_two_links :
  shortCodes (urls two_links) = ["promo1"; "aaaaaa"]
  /\ shortCodes (urls (snd (getAllURLs two_links))) = ["aaaaaa"; "promo1"]
  /\ ~ untouched two_links (snd (getAllURLs two_links)).
Proof.
  split; [vm_compute; reflexivity|].
  split; [vm_compute; reflexivity|].
  intros [Hurls _]. apply (f_equal shortCodes) in Hurls.
  vm_compute in Hurls. discriminate Hurls.
Qed.

(** C1, amended: [getAllURLs] returns every record, most recent first and
    in a stable order, writes nothing to [localStorage] and changes no
    record; what it returns is the [urls] array itself, sorted in place,
    so the registry holds the same records in the returned order. *)
Theorem getAllURLs_sorts_in_place (w : World) :
  exists w',
    getAllURLs w = (Normal (urls w'), w')
    /\ urls w' = Array_sort by_createdAt_descending (urls w)
    /\ StronglySorted newest_first (urls w')
    /\ Permutation (urls w) (urls w')
    /\ (forall t, filter (created_at t) (urls w')
                  = filter (created_at t) (urls w))
    /\ localStorage w' = localStorage w
    /\ logs w' = firstn maxLogs (("info", "Retrieving all URLs") :: logs w).
Proof.
  exists (snd (getAllURLs w)).
  split; [reflexivity|].
  change (urls (snd (getAllURLs w)))
    with (Array_sort by_createdAt_descending (urls w)).
  split; [reflexivity|].
  split; [apply Array_sort_newest_first|].
  split; [apply Array_sort_Permutation|].
  split; [intro t; apply Array_sort_stable|].
  split; reflexivity.
Qed.

(** ** The code generator and [createShortURL] *)

Section Registry.
Variable platform : Platform.

Lemma generateShortCode_from_draws (remaining : nat) :
  forall result w,
    generateShortCode_from platform result remaining w
    = (Normal (drawn_from platform result remaining (random_draws w)),
       set_random_draws (random_draws w + remaining) w).
Proof.
  induction remaining as [|k IH]; intros result w.
  - cbn. rewrite Nat.add_0_r. destruct w; reflexivity.
  - cbn [generateShortCode_from]. unfold bind, random_index. rewrite IH.
    cbn. f_equal. unfold set_random_draws, tick_random. cbn. f_equal. lia.
Qed.

Lemma generate_unique_outcome (fuel : nat) :
  forall w,
    match generate_unique platform fuel w with
    | (Normal code, w') =>
        fresh code (urls w)
        /\ exists k, k < fuel
           /\ code = code_drawn_at platform (random_draws w + 6 * k)
           /\ (forall j, j < k ->
                 ~ fresh (code_drawn_at platform (random_draws w + 6 * j)) (urls w))
           /\ w' = set_random_draws (random_draws w + 6 * S k) w
    | (Throw _, _) => False
    | (Looping, w') =>
        (forall j, j < fuel ->
           ~ fresh (code_drawn_at platform (random_draws w + 6 * j)) (urls w))
        /\ w' = set_random_draws (random_draws w + 6 * fuel) w
    end.
Proof.
  induction fuel as [|fuel IH]; intro w.
  - cbn. split; [intros j Hj; lia|].
    rewrite Nat.add_0_r. destruct w; reflexivity.
  - cbn [generate_unique]. unfold bind at 1. unfold generateShortCode.
    rewrite generateShortCode_from_draws.
    unfold bind at 1. unfold isShortCodeUnique, bind, get_urls, ret.
    cbn [urls set_random_draws].
    destruct (existsb _ (urls w)) eqn:Htaken; cbn [negb].
    + assert (Hfirst : forall j, j < 1 ->
        ~ fresh (code_drawn_at platform (random_draws w + 6 * j)) (urls w)).
      { intros j Hj Hfresh. replace j with 0 in Hfresh by lia.
        rewrite Nat.add_0_r in Hfresh. unfold fresh, code_drawn_at in Hfresh.
        congruence. }
      specialize (IH (set_random_draws (random_draws w + 6) w)).
      cbn [random_draws set_random_draws urls] in IH.
      destruct (generate_unique platform fuel _) as [[code| |] w'].
      * destruct IH as [Hfresh (k & Hk & Hcode & Hearlier & Hw')].
        split; [exact Hfresh|].
        exists (S k). split; [lia|].
        split; [rewrite Hcode; f_equal; lia|].
        split.
        -- intros [|j] Hj; [apply Hfirst; lia|].
           replace (random_draws w + 6 * S j) with (random_draws w + 6 + 6 * j)
             by lia.
           apply Hearlier; lia.
        -- rewrite Hw'. unfold set_random_draws; cbn. f_equal. lia.
      * exact IH.
      * destruct IH as [Hall Hw']. split.
        -- intros [|j] Hj; [apply Hfirst; lia|].
           replace (random_draws w + 6 * S j) with (random_draws w + 6 + 6 * j)
             by lia.
           apply Hall; lia.
        -- rewrite Hw'. unfold set_random_draws; cbn. f_equal. lia.
    + split; [exact Htaken|]. exists 0. split; [lia|].
      split; [rewrite Nat.add_0_r; reflexivity|].
      split; [intros j Hj; lia | reflexivity].
Qed.

Lemma well_formed_code_test (code : string) :
  negb (alphanumeric code) || (20 <? String.length code)%nat = false
  <-> well_formed_code code.
Proof.
  unfold well_formed_code. rewrite orb_false_iff, negb_false_iff, Nat.ltb_ge.
  reflexivity.
Qed.

Lemma createShortURL_outcome fuel url custom minutes w :
  match createShortURL platform fuel url custom minutes w with
  | (Normal data, w') =>
      isValidURL platform url = true
      /\ (exists m, minutes = Integer m /\ (0 < m)%Z
            /\ validityMinutes data = m
            /\ expiresAt data = (createdAt data + m * 60 * 1000)%Z)
      /\ fresh (shortCode data) (urls w)
      /\ match truthy custom with
         | Some code => shortCode data = code /\ well_formed_code code
         | None => exists k, k < fuel
             /\ shortCode data = code_drawn_at platform (random_draws w + 6 * k)
         end
      /\ originalURL data = url
      /\ shortURL data = "http://localhost:3000/" ++ shortCode data
      /\ clicks data = [] /\ totalClicks data = 0
      /\ createdAt data = Date_now platform (clock_reads w)
      /\ urls w' = (urls w ++ [data])%list
      /\ localStorage w' = (if quota_exceeded w then localStorage w
                            else Stored (urls w ++ [data])%list)
  | (Throw e, w') => untouched w w' /\ rejected platform url custom minutes w e
  | (Looping, w') =>
      untouched w w' /\ truthy custom = None
      /\ forall j, j < fuel ->
           ~ fresh (code_drawn_at platform (random_draws w + 6 * j)) (urls w)
  end.
Proof.
  unfold createShortURL. unfold bind at 1. cbn [logger_info logger_log].
  destruct (isValidURL platform url) eqn:Hvalid; cbn [negb];
    [|split; [split; reflexivity | constructor; assumption]].
  destruct minutes as [m|];
    [|split; [split; reflexivity | constructor; auto]].
  destruct (Z.leb_spec m 0) as [Hle|Hpos];
    [split; [split; reflexivity | constructor; eauto]|].
  set (w0 := set_logs _ w).
  assert (Hw0 : untouched w w0) by (split; reflexivity).
  assert (Hclock : clock_reads w0 = clock_reads w) by reflexivity.
  assert (Hquota : quota_exceeded w0 = quota_exceeded w) by reflexivity.
  assert (Hdraws : random_draws w0 = random_draws w) by reflexivity.
  clearbody w0.
  lazymatch goal with
  | |- context [bind ?c ?k w0] => set (tail := k); set (pick := c)
  end.
  assert (Htail : forall code w1,
    untouched w w1 -> clock_reads w1 = clock_reads w ->
    quota_exceeded w1 = quota_exceeded w ->
    match tail code w1 with
    | (Normal data, w') =>
        (validityMinutes data = m
         /\ expiresAt data = (createdAt data + m * 60 * 1000)%Z)
        /\ shortCode data = code
        /\ originalURL data = url
        /\ shortURL data = "http://localhost:3000/" ++ shortCode data
        /\ clicks data = [] /\ totalClicks data = 0
        /\ createdAt data = Date_now platform (clock_reads w)
        /\ urls w' = (urls w ++ [data])%list
        /\ localStorage w' = (if quota_exceeded w then localStorage w
                              else Stored (urls w ++ [data])%list)
    | (Throw e, w') =>
        untouched w w' /\ e = RangeError
        /\ valid_time (Date_now platform (clock_reads w))
           && valid_time (Date_now platform (clock_reads w) + m * 60 * 1000)
           = false
    | (Looping, w') => False
    end).
  { intros code w1 [Hu Hs] Hc Hq. subst tail. cbv beta.
    unfold bind at 1, new_Date. unfold bind at 1, fresh_token, bind at 1, new_Date.
    cbn [clock_reads tick_clock set_clock_reads random_draws]. unfold bind at 1, toISOString.
    rewrite Hc.
    destruct (valid_time (Date_now platform (clock_reads w))); cbn [ret throw];
      [|repeat split; assumption].
    unfold bind at 1.
    destruct (valid_time _); cbn [ret throw andb]; [|repeat split; assumption].
    unfold bind at 1, get_urls. unfold bind at 1, put_urls.
    unfold bind at 1, saveURLs.
    cbn [quota_exceeded set_urls tick_random set_random_draws tick_clock
         set_clock_reads urls].
    rewrite Hq.
    destruct (quota_exceeded w); cbn; rewrite Hu; try rewrite Hs;
      repeat split; reflexivity. }
  clearbody tail.
  unfold bind at 1. subst pick.
  destruct (truthy custom) as [c|] eqn:Hcustom.
  - destruct (negb (alphanumeric c) || (20 <? String.length c)%nat) eqn:Hformat.
    + cbn. split; [exact Hw0|].
      eapply rejected_format; eauto.
      rewrite <- well_formed_code_test. congruence.
    + apply well_formed_code_test in Hformat.
      unfold bind at 1. unfold isShortCodeUnique, bind at 1, get_urls, ret.
      destruct Hw0 as [Hu0 Hs0]. rewrite Hu0.
      destruct (existsb (has_shortCode c) (urls w)) eqn:Htaken; cbn [negb].
      * cbn. split; [split; assumption|].
        eapply rejected_conflict; eauto.
      * specialize (Htail c w0 (conj Hu0 Hs0) Hclock Hquota).
        destruct (tail c w0) as [[data| |] w']; [| |contradiction].
        -- destruct Htail as (Hm & Hcode & Hrest).
           split; [reflexivity|]. split; [exists m; tauto|].
           split; [unfold fresh; rewrite Hcode; exact Htaken|].
           split; [split; assumption | exact Hrest].
        -- destruct Htail as (Hw' & -> & Hrange). split; [exact Hw'|].
           eapply rejected_date; eauto.
           intros code Hcode. rewrite Hcustom in Hcode.
           injection Hcode as <-. split; assumption.
  - pose proof (generate_unique_outcome fuel w0) as Hgen.
    destruct Hw0 as [Hu0 Hs0]. rewrite Hu0, Hdraws in Hgen.
    destruct (generate_unique platform fuel w0) as [[code| |] w1].
    + destruct Hgen as [Hfresh (k & Hk & Hcode & _ & Hw1)].
      assert (Hw1' : untouched w w1) by (rewrite Hw1; split; assumption).
      specialize (Htail code w1 Hw1').
      rewrite Hw1 in Htail at 1 2. specialize (Htail Hclock Hquota).
      destruct (tail code w1) as [[data| |] w']; [| |contradiction].
      * destruct Htail as (Hm & Hcode' & Hrest).
        split; [reflexivity|]. split; [exists m; tauto|].
        split; [unfold fresh; rewrite Hcode'; exact Hfresh|].
        split; [exists k; split; [exact Hk | congruence] | exact Hrest].
      * destruct Htail as (Hw' & -> & Hrange). split; [exact Hw'|].
        eapply rejected_date; eauto. intros c Hc. rewrite Hcustom in Hc. discriminate Hc.
    + contradiction.
    + destruct Hgen as [Hall Hw1]. split; [rewrite Hw1; split; assumption|].
      split; [reflexivity | exact Hall].
Qed.

Lemma has_shortCode_In (code : string) (l : list urlData) :
  existsb (has_shortCode code) l = true <-> In code (shortCodes l).
Proof.
  unfold shortCodes. rewrite existsb_exists, in_map_iff.
  split; intros [u [H1 H2]]; exists u.
  - apply String.eqb_eq in H2. auto.
  - split; [assumption|]. apply String.eqb_eq. assumption.
Qed.

Lemma fresh_not_In (code : string) (l : list urlData) :
  fresh code l <-> ~ In code (shortCodes l).
Proof.
  unfold fresh. rewrite <- has_shortCode_In.
  destruct (existsb _ l); split; congruence.
Qed.

Lemma find_unique (u : urlData) (l : list urlData) :
  NoDup (shortCodes l) -> In u l ->
  find (has_shortCode (shortCode u)) l = Some u.
Proof.
  induction l as [|v t IH]; cbn; intros Hnd Hin; [contradiction|].
  inversion Hnd as [|? ? Hnotin Hnd']; subst.
  unfold has_shortCode at 1.
  destruct Hin as [->|Hin].
  - rewrite String.eqb_refl. reflexivity.
  - destruct (String.eqb_spec (shortCode v) (shortCode u)) as [Heq|Hne].
    + exfalso. apply Hnotin. rewrite Heq. apply in_map. exact Hin.
    + apply IH; assumption.
Qed.

Lemma saveURLs_outcome (w : World) :
  saveURLs w
  = (Normal tt,
     if quota_exceeded w
     then snd (logger_error "Failed to save URLs to storage" w)
     else snd (logger_info "URLs saved to storage"
                 (set_localStorage (Stored (urls w)) w))).
Proof. unfold saveURLs. destruct (quota_exceeded w); reflexivity. Qed.

Lemma recordClick_outcome (code source : string) (w : World) :
  match recordClick platform code source w with
  | (Normal data, w') =>
      exists found click,
        find (has_shortCode code) (urls w) = Some found
        /\ expired_at (Date_now platform (clock_reads w)) found = false
        /\ data = push_click click found
        /\ Click.source click = source
        /\ urls w' = update_found code (push_click click) (urls w)
        /\ localStorage w' = (if quota_exceeded w then localStorage w
                              else Stored (urls w'))
  | (Throw e, w') =>
      untouched w w'
      /\ (e = NotFound /\ find (has_shortCode code) (urls w) = None
          \/ e = Expired /\ exists found,
               find (has_shortCode code) (urls w) = Some found
               /\ expired_at (Date_now platform (clock_reads w)) found = true)
  | (Looping, _) => False
  end.
Proof.
  unfold recordClick. unfold bind at 1. cbn [logger_info logger_log].
  unfold bind at 1. unfold getURLByShortCode, bind at 1, get_urls.
  cbn [urls set_logs].
  destruct (find (has_shortCode code) (urls w)) as [found|] eqn:Hfind.
  - unfold bind at 1. cbn [logger_info logger_log ret].
    unfold bind at 1. unfold isURLExpired, bind at 1, new_Date, ret.
    cbn [clock_reads set_logs]. fold (expired_at (Date_now platform (clock_reads w)) found).
    destruct (expired_at _ found) eqn:Hexpired.
    + cbn. split; [split; reflexivity|]. right. split; [reflexivity|]. eauto.
    + unfold bind at 1, getLocationData, bind at 1, random_index, ret.
      unfold bind at 1, fresh_token, bind at 1, new_Date.
      unfold bind at 1, new_Date. unfold bind at 1, get_urls.
      unfold bind at 1, put_urls. unfold bind at 1. rewrite saveURLs_outcome.
      cbn [quota_exceeded set_urls tick_random set_random_draws tick_clock
           set_clock_reads set_logs urls].
      destruct (quota_exceeded w); cbn; exists found; eexists;
        (split; [reflexivity|]); (split; [exact Hexpired|]);
        repeat split; reflexivity.
  - cbn. split; [split; reflexivity|]. left. split; reflexivity.
Qed.

Lemma filter_not_expired_kept (l : list urlData) :
  forall w,
    filter_not_expired platform l w
    = (Normal (kept_from platform (clock_reads w) l),
       set_clock_reads (clock_reads w + List.length l) w).
Proof.
  induction l as [|u t IH]; intro w.
  - cbn. rewrite Nat.add_0_r. destruct w; reflexivity.
  - cbn [filter_not_expired kept_from]. unfold bind at 1, isURLExpired, bind at 1, new_Date, ret.
    unfold bind at 1. rewrite IH. cbn [clock_reads tick_clock set_clock_reads].
    destruct (expiresAt u <? _)%Z; cbn; f_equal; unfold set_clock_reads; cbn;
      f_equal; lia.
Qed.

Lemma deleteExpiredURLs_outcome (w : World) :
  let kept := kept_from platform (clock_reads w) (urls w) in
  let deleted := List.length (urls w) - List.length kept in
  exists w',
    deleteExpiredURLs platform w = (Normal deleted, w')
    /\ urls w' = kept
    /\ clock_reads w' = clock_reads w + List.length (urls w)
    /\ localStorage w' = (if (0 <? deleted)%nat && negb (quota_exceeded w)
                          then Stored kept else localStorage w).
Proof.
  intros kept deleted. unfold deleteExpiredURLs.
  unfold bind at 1, get_urls. unfold bind at 1. rewrite filter_not_expired_kept.
  fold kept. unfold bind at 1, put_urls. unfold bind at 1.
  fold deleted. destruct (0 <? deleted)%nat; cbn [andb].
  - unfold bind at 1. rewrite saveURLs_outcome.
    cbn [quota_exceeded set_urls set_clock_reads].
    destruct (quota_exceeded w); cbn; eexists; repeat split; reflexivity.
  - cbn. eexists; repeat split; reflexivity.
Qed.

End Registry.

Section Rejections.

Variable platform : Platform.

Lemma truthy_well_formed (code : string) :
  well_formed_code code -> truthy (Some code) = Some code.
Proof.
  intros [Halnum _]. destruct code; [discriminate Halnum | reflexivity].
Qed.

(** ** C3: a custom short code that is taken *)

(** C3: with a record of short code [code] in the registry, a call of
    [createShortURL] with the custom short code [code] that gets as far as
    the uniqueness check (a valid URL and a positive integer validity
    period, the checks made first; the code of a record is well formed)
    throws [ShortcodeConflict] and leaves the [urls] array and its
    persisted mirror as they were: no record is appended. And whatever
    call of [createShortURL] throws, it has changed neither. *)
Theorem createShortURL_conflict_leaves_registry
  (fuel : nat) (url code : string) (m : Z) (w : World) :
  In code (shortCodes (urls w)) ->
  well_formed_code code ->
  isValidURL platform url = true ->
  (0 < m)%Z ->
  (exists w',
     createShortURL platform fuel url (Some code) (Integer m) w
     = (Throw ShortcodeConflict, w')
     /\ untouched w w'
     /\ List.length (urls w') = List.length (urls w))
  /\ (forall fuel0 url0 custom0 minutes0 w0 e w0',
        createShortURL platform fuel0 url0 custom0 minutes0 w0 = (Throw e, w0') ->
        untouched w0 w0').
Proof.
  intros Htaken Hformat Hvalid Hpos. split.
  - pose proof (createShortURL_outcome platform fuel url (Some code) (Integer m) w)
      as Hout.
    rewrite (truthy_well_formed code Hformat) in Hout.
    apply has_shortCode_In in Htaken.
    destruct (createShortURL platform fuel url (Some code) (Integer m) w)
      as [[data| e|] w'].
    + destruct Hout as (_ & _ & Hfresh & [Hcode _] & _).
      unfold fresh in Hfresh. congruence.
    + destruct Hout as [Hsame Hwhy]. exists w'.
      assert (e = ShortcodeConflict) as ->.
      { inversion Hwhy as [Hbad | _ Hbad | m' c _ _ _ Hc Hbad | | m' _ _ _ Hc _];
          try reflexivity.
        - congruence.
        - destruct Hbad as [Hbad | (m' & Hm' & Hle)];
            [discriminate Hbad | injection Hm' as <-; lia].
        - rewrite (truthy_well_formed code Hformat) in Hc.
          injection Hc as <-. contradiction.
        - destruct (Hc code (truthy_well_formed code Hformat)) as [_ Hfresh].
          congruence. }
      split; [reflexivity|]. split; [exact Hsame|].
      destruct Hsame as [-> _]. reflexivity.
    + destruct Hout as (_ & Hnone & _). discriminate Hnone.
  - intros fuel0 url0 custom0 minutes0 w0 e w0' Hthrow.
    pose proof (createShortURL_outcome platform fuel0 url0 custom0 minutes0 w0)
      as Hout.
    rewrite Hthrow in Hout. apply Hout.
Qed.

(** ** C4: a click on an expired link *)

(** C4: in a registry whose short codes are distinct, [recordClick] on the
    code of a record whose [expiresAt] is before the clock reading of the
    call throws [Expired]; the [urls] array and its persisted mirror are
    as they were, so the record is still there with the [clicks] and the
    [totalClicks] it had. *)
Theorem recordClick_expired_rejected
  (data : urlData) (source : string) (w : World) :
  NoDup (shortCodes (urls w)) ->
  In data (urls w) ->
  (expiresAt data < Date_now platform (clock_reads w))%Z ->
  exists w',
    recordClick platform (shortCode data) source w = (Throw Expired, w')
    /\ untouched w w'
    /\ In data (urls w').
Proof.
  intros Hdistinct Hin Hpast.
  pose proof (recordClick_outcome platform (shortCode data) source w) as Hout.
  rewrite (find_unique data (urls w) Hdistinct Hin) in Hout.
  assert (Hexpired : expired_at (Date_now platform (clock_reads w)) data = true)
    by (apply Z.ltb_lt; exact Hpast).
  destruct (recordClick platform (shortCode data) source w) as [[r| e|] w'].
  - destruct Hout as (found & click & Hfound & Hvalid & _).
    injection Hfound as <-. congruence.
  - destruct Hout as [Hsame [[_ Hnone] | [-> _]]]; [discriminate Hnone|].
    exists w'. split; [reflexivity|]. split; [exact Hsame|].
    destruct Hsame as [-> _]. exact Hin.
  - contradiction.
Qed.

End Rejections.

Section Evolution.
Variable platform : Platform.

(** ** What each call does to the [urls] array *)

Lemma perform_registry (c : call) (w : World) :
  match c with
  | CreateShortURL fuel url custom minutes =>
      urls (perform platform c w) = urls w
      \/ exists data w',
           createShortURL platform fuel url custom minutes w = (Normal data, w')
           /\ urls (perform platform c w) = (urls w ++ [data])%list
  | RecordClick code source =>
      urls (perform platform c w) = urls w
      \/ exists click,
           urls (perform platform c w)
           = update_found code (push_click click) (urls w)
  | GetAllURLs =>
      urls (perform platform c w) = Array_sort by_createdAt_descending (urls w)
  | DeleteExpiredURLs =>
      urls (perform platform c w) = kept_from platform (clock_reads w) (urls w)
  | GetURLByShortCode _ | IsURLExpired _ =>
      urls (perform platform c w) = urls w
  end.
Proof.
  destruct c as [fuel url custom minutes|code|data|code source| |];
    cbn [perform].
  - pose proof (createShortURL_outcome platform fuel url custom minutes w) as Hout.
    destruct (createShortURL platform fuel url custom minutes w)
      as [[data| e|] w'] eqn:Hcall; cbn [snd].
    + right. exists data, w'. split; [reflexivity|]. apply Hout.
    + left. apply Hout.
    + left. apply Hout.
  - unfold getURLByShortCode, bind, get_urls.
    destruct (find _ (urls w)); reflexivity.
  - reflexivity.
  - pose proof (recordClick_outcome platform code source w) as Hout.
    destruct (recordClick platform code source w) as [[data| e|] w']; cbn [snd].
    + right. destruct Hout as (found & click & _ & _ & _ & _ & Hurls & _).
      exists click. exact Hurls.
    + left. apply Hout.
    + contradiction.
  - reflexivity.
  - destruct (deleteExpiredURLs_outcome platform w) as (w' & Hcall & Hurls & _).
    rewrite Hcall. exact Hurls.
Qed.

Lemma kept_from_incl (p : nat) (l : list urlData) :
  incl (kept_from platform p l) l.
Proof.
  revert p. induction l as [|u t IH]; intro p; cbn; [apply incl_refl|].
  destruct (expiresAt u <? _)%Z.
  - apply incl_tl, IH.
  - apply incl_cons; [left; reflexivity | apply incl_tl, IH].
Qed.

Lemma update_found_In (code : string) (f : urlData -> urlData)
  (l : list urlData) (u' : urlData) :
  In u' (update_found code f l) -> In u' l \/ exists u, In u l /\ u' = f u.
Proof.
  induction l as [|v t IH]; cbn; [tauto|].
  destruct (has_shortCode code v); cbn.
  - intros [<-|Hin]; [right; exists v; auto | left; auto].
  - intros [<-|Hin]; [left; auto|].
    destruct (IH Hin) as [H|(u & Hu & ->)]; [left; auto | right; exists u; auto].
Qed.

(** Every record of the registry after a call was in it before the call,
    up to the click pushed on it, or is the record the call returned. *)
Lemma perform_lineage (c : call) (w : World) (u' : urlData) :
  In u' (urls (perform platform c w)) ->
  In u' (urls w)
  \/ (exists u click, In u (urls w) /\ u' = push_click click u)
  \/ (exists fuel url custom minutes w',
        c = CreateShortURL fuel url custom minutes
        /\ createShortURL platform fuel url custom minutes w = (Normal u', w')).
Proof.
  pose proof (perform_registry c w) as Hreg.
  destruct c as [fuel url custom minutes|code|data|code source| |].
  - destruct Hreg as [->|(data & w' & Hcall & ->)]; [auto|].
    rewrite in_app_iff. cbn. intros [Hin|[<-|[]]]; [auto|].
    right. right. exists fuel, url, custom, minutes, w'. auto.
  - rewrite Hreg. auto.
  - rewrite Hreg. auto.
  - destruct Hreg as [->|(click & ->)]; [auto|].
    intro Hin. apply update_found_In in Hin.
    destruct Hin as [Hin|(u & Hu & ->)]; [auto|].
    right. left. exists u, click. auto.
  - rewrite Hreg. intro Hin. left.
    eapply Permutation_in; [|exact Hin].
    apply Permutation_sym, Array_sort_Permutation.
  - rewrite Hreg. intro Hin. left. eapply kept_from_incl. exact Hin.
Qed.

(** A property of records that a pushed click keeps and that the record
    returned by [createShortURL] has is an invariant of the registry. *)
Lemma perform_invariant (P : urlData -> Prop) :
  (forall u click, P u -> P (push_click click u)) ->
  (forall fuel url custom minutes w data w',
     createShortURL platform fuel url custom minutes w = (Normal data, w') ->
     P data) ->
  forall c w, Forall P (urls w) -> Forall P (urls (perform platform c w)).
Proof.
  intros Hclick Hnew c w Hall. rewrite Forall_forall in *.
  intros u' Hin. apply perform_lineage in Hin.
  destruct Hin as [Hin|[(u & click & Hu & ->)|(fuel & url & custom & minutes & w' & _ & Hcall)]].
  - auto.
  - auto.
  - eapply Hnew. exact Hcall.
Qed.

Lemma run_invariant (P : urlData -> Prop) :
  (forall u click, P u -> P (push_click click u)) ->
  (forall fuel url custom minutes w data w',
     createShortURL platform fuel url custom minutes w = (Normal data, w') ->
     P data) ->
  forall cs w, Forall P (urls w) -> Forall P (urls (run platform cs w)).
Proof.
  intros Hclick Hnew cs. induction cs as [|c cs IH]; intros w Hall; cbn.
  - exact Hall.
  - apply IH. apply perform_invariant; assumption.
Qed.

End Evolution.

Section Returns.

Variable platform : Platform.

(** ** When the calls return *)

(** [createShortURL] returns a record for a valid URL, a positive integer
    validity period within the range of dates and a short code that can
    be settled. *)
Lemma createShortURL_returns
  (fuel : nat) (url : string) (custom : option string) (m : Z) (w : World) :
  isValidURL platform url = true ->
  (0 < m)%Z ->
  valid_time (Date_now platform (clock_reads w))
  && valid_time (Date_now platform (clock_reads w) + m * 60 * 1000) = true ->
  code_available platform fuel custom w ->
  exists data w',
    createShortURL platform fuel url custom (Integer m) w = (Normal data, w').
Proof.
  intros Hvalid Hpos Htime Hcode. unfold code_available in Hcode.
  pose proof (createShortURL_outcome platform fuel url custom (Integer m) w)
    as Hout.
  destruct (createShortURL platform fuel url custom (Integer m) w)
    as [[data| e|] w'].
  - eauto.
  - exfalso. destruct Hout as [_ Hwhy].
    inversion Hwhy as [Hbad | _ Hbad | m' c _ _ _ Hc Hbad | m' c _ _ _ Hc _ Hbad
                       | m' _ Hm' _ _ Hbad].
    + congruence.
    + destruct Hbad as [Hbad | (m' & Hm' & Hle)];
        [discriminate Hbad | injection Hm' as <-; lia].
    + rewrite Hc in Hcode. tauto.
    + rewrite Hc in Hcode. destruct Hcode as [_ Hfresh].
      unfold fresh in Hfresh. congruence.
    + injection Hm' as <-. congruence.
  - exfalso. destruct Hout as (_ & Hnone & Hall). rewrite Hnone in Hcode.
    destruct Hcode as (k & Hk & Hfresh). exact (Hall k Hk Hfresh).
Qed.

(** [recordClick] returns the record it has updated when the lookup finds
    a record that is not expired. *)
Lemma recordClick_returns (code source : string) (w : World) (u : urlData) :
  find (has_shortCode code) (urls w) = Some u ->
  expired_at (Date_now platform (clock_reads w)) u = false ->
  exists click w',
    recordClick platform code source w = (Normal (push_click click u), w').
Proof.
  intros Hfind Hvalid.
  pose proof (recordClick_outcome platform code source w) as Hout.
  destruct (recordClick platform code source w) as [[data| e|] w'].
  - destruct Hout as (found & click & Hfound & _ & -> & _).
    exists click, w'. congruence.
  - exfalso. destruct Hout as [_ [[_ Hnone]|[_ (found & Hfound & Hexpired)]]];
      congruence.
  - contradiction.
Qed.

End Returns.

Section Invariants.
Variable platform : Platform.

Lemma find_update_found (code : string) (f : urlData -> urlData)
  (l : list urlData) :
  (forall u, shortCode (f u) = shortCode u) ->
  find (has_shortCode code) (update_found code f l)
  = option_map f (find (has_shortCode code) l).
Proof.
  intro Hcode. induction l as [|v t IH]; cbn; [reflexivity|].
  destruct (has_shortCode code v) eqn:Hv; cbn.
  - unfold has_shortCode in *. rewrite Hcode, Hv. reflexivity.
  - rewrite Hv. exact IH.
Qed.

Lemma shortCodes_update_found (code : string) (f : urlData -> urlData)
  (l : list urlData) :
  (forall u, shortCode (f u) = shortCode u) ->
  shortCodes (update_found code f l) = shortCodes l.
Proof.
  intro Hcode. unfold shortCodes.
  induction l as [|v t IH]; cbn; [reflexivity|].
  destruct (has_shortCode code v); cbn; [rewrite Hcode | rewrite IH];
    reflexivity.
Qed.

Lemma shortCodes_kept_from (p : nat) (l : list urlData) :
  NoDup (shortCodes l) -> NoDup (shortCodes (kept_from platform p l)).
Proof.
  revert p. induction l as [|u t IH]; intros p Hnd; cbn; [constructor|].
  inversion Hnd as [|? ? Hnotin Hnd']; subst.
  destruct (expiresAt u <? _)%Z; [apply IH; exact Hnd'|].
  cbn. constructor; [|apply IH; exact Hnd'].
  intro Hin. apply Hnotin. unfold shortCodes in *.
  apply in_map_iff in Hin. destruct Hin as (v & Hv & Hin).
  apply in_map_iff. exists v. split; [exact Hv|].
  eapply kept_from_incl. exact Hin.
Qed.

(** The short codes of the registry stay distinct, whatever is called. *)
Lemma perform_distinct_codes (c : call) (w : World) :
  NoDup (shortCodes (urls w)) ->
  NoDup (shortCodes (urls (perform platform c w))).
Proof.
  intro Hnd. pose proof (perform_registry platform c w) as Hreg.
  destruct c as [fuel url custom minutes|code|data|code source| |].
  - destruct Hreg as [->|(data & w' & Hcall & ->)]; [exact Hnd|].
    pose proof (createShortURL_outcome platform fuel url custom minutes w) as Hout.
    rewrite Hcall in Hout. destruct Hout as (_ & _ & Hfresh & _).
    apply fresh_not_In in Hfresh.
    unfold shortCodes in *. rewrite map_app. cbn.
    apply NoDup_app; [exact Hnd | repeat constructor; intros [] |].
    intros a Ha [<-|[]]. apply Hfresh. exact Ha.
  - rewrite Hreg. exact Hnd.
  - rewrite Hreg. exact Hnd.
  - destruct Hreg as [->|(click & ->)]; [exact Hnd|].
    rewrite shortCodes_update_found; [exact Hnd | reflexivity].
  - rewrite Hreg. eapply Permutation_NoDup; [|exact Hnd].
    unfold shortCodes. apply Permutation_map, Array_sort_Permutation.
  - rewrite Hreg. apply shortCodes_kept_from. exact Hnd.
Qed.

Lemma run_distinct_codes (cs : list call) :
  forall w, NoDup (shortCodes (urls w)) ->
            NoDup (shortCodes (urls (run platform cs w))).
Proof.
  induction cs as [|c cs IH]; intros w Hnd; cbn; [exact Hnd|].
  apply IH, perform_distinct_codes, Hnd.
Qed.

Lemma clicked_counts (code : string) (k : nat) (w w' : World) (u : urlData) :
  clicked platform code k w w' ->
  find (has_shortCode code) (urls w) = Some u ->
  counts_clicks u ->
  exists u',
    find (has_shortCode code) (urls w') = Some u'
    /\ List.length (clicks u') = List.length (clicks u) + k
    /\ counts_clicks u'.
Proof.
  intros Hrun Hfind Hu. induction Hrun as [w|k w w1 w2 source data Hrun IH Hcall].
  - exists u. rewrite Nat.add_0_r. auto.
  - destruct (IH Hfind) as (u1 & Hfind1 & Hlen1 & Hu1).
    pose proof (recordClick_outcome platform code source w1) as Hout.
    rewrite Hcall in Hout.
    destruct Hout as (found & click & Hfound & _ & _ & _ & Hurls & _).
    exists (push_click click u1). rewrite Hurls.
    rewrite find_update_found by reflexivity. rewrite Hfind1.
    split; [reflexivity|]. split; [|reflexivity].
    cbn. rewrite length_app. cbn. lia.
Qed.

(** ** C5: [totalClicks] is the number of clicks *)

(** C5: [totalClicks === clicks.length] holds of every record of the
    registry after any calls if it held before them (it holds of the empty
    registry); [createShortURL] returns a record with no click and
    [totalClicks] 0; and after [k] calls of [recordClick] on the code of
    such a record, each of which returned, the record of that code has
    [k] clicks and [totalClicks] [k]. A call of [recordClick] does return,
    with one click more, when the lookup finds a record that is not
    expired. *)
Theorem totalClicks_counts_clicks :
  (forall cs w,
     Forall counts_clicks (urls w) ->
     Forall counts_clicks (urls (run platform cs w)))
  /\ (forall fuel url custom minutes w data w',
        createShortURL platform fuel url custom minutes w = (Normal data, w') ->
        clicks data = [] /\ totalClicks data = 0)
  /\ (forall code k w w' u,
        find (has_shortCode code) (urls w) = Some u ->
        clicks u = [] -> totalClicks u = 0 ->
        clicked platform code k w w' ->
        exists u',
          find (has_shortCode code) (urls w') = Some u'
          /\ totalClicks u' = k /\ List.length (clicks u') = k)
  /\ (forall code source w u,
        find (has_shortCode code) (urls w) = Some u ->
        expired_at (Date_now platform (clock_reads w)) u = false ->
        exists data w',
          recordClick platform code source w = (Normal data, w')
          /\ List.length (clicks data) = S (List.length (clicks u))
          /\ totalClicks data = List.length (clicks data)).
Proof.
  assert (Hnew : forall fuel url custom minutes w data w',
    createShortURL platform fuel url custom minutes w = (Normal data, w') ->
    clicks data = [] /\ totalClicks data = 0).
  { intros fuel url custom minutes w data w' Hcall.
    pose proof (createShortURL_outcome platform fuel url custom minutes w) as Hout.
    rewrite Hcall in Hout. tauto. }
  split; [|split; [|split]].
  - apply run_invariant.
    + intros u click _. reflexivity.
    + intros fuel url custom minutes w data w' Hcall.
      destruct (Hnew _ _ _ _ _ _ _ Hcall) as [Hclicks Htotal].
      unfold counts_clicks. rewrite Hclicks, Htotal. reflexivity.
  - exact Hnew.
  - intros code k w w' u Hfind Hclicks Htotal Hrun.
    assert (Hu : counts_clicks u)
      by (unfold counts_clicks; rewrite Hclicks, Htotal; reflexivity).
    destruct (clicked_counts code k w w' u Hrun Hfind Hu)
      as (u' & Hfind' & Hlen & Hu').
    exists u'. rewrite Hclicks in Hlen. cbn in Hlen.
    unfold counts_clicks in Hu'. repeat split; [exact Hfind' | lia | lia].
  - intros code source w u Hfind Hvalid.
    destruct (recordClick_returns platform code source w u Hfind Hvalid)
      as (click & w' & Hcall).
    exists (push_click click u), w'. split; [exact Hcall|].
    cbn. rewrite length_app. cbn. split; [lia | reflexivity].
Qed.

(** ** C6: the validity window *)

(** C6: the record that [createShortURL] returns was asked for with a
    valid URL and a positive integer [validityMinutes], and its
    [expiresAt] is its [createdAt] plus [validityMinutes * 60000]
    milliseconds, exactly; no call changes the two afterwards: the
    equation holds of every record of the registry after any calls if it
    held before them. And a record is returned for every valid URL and
    positive integer validity period within the range of dates, once a
    short code can be settled. *)
Theorem createShortURL_window_exact
  (fuel : nat) (url : string) (custom : option string) (minutes : number)
  (w : World) (data : urlData) (w' : World) :
  createShortURL platform fuel url custom minutes w = (Normal data, w') ->
  isValidURL platform url = true
  /\ (exists m,
        minutes = Integer m /\ (0 < m)%Z /\ validityMinutes data = m
        /\ (expiresAt data - createdAt data = m * 60000)%Z)
  /\ (forall cs w0,
        Forall window_exact (urls w0) ->
        Forall window_exact (urls (run platform cs w0)))
  /\ (forall fuel0 url0 custom0 m0 w0,
        isValidURL platform url0 = true ->
        (0 < m0)%Z ->
        valid_time (Date_now platform (clock_reads w0))
        && valid_time (Date_now platform (clock_reads w0) + m0 * 60 * 1000)
        = true ->
        code_available platform fuel0 custom0 w0 ->
        exists data0 w0',
          createShortURL platform fuel0 url0 custom0 (Integer m0) w0
          = (Normal data0, w0')).
Proof.
  intro Hcall.
  pose proof (createShortURL_outcome platform fuel url custom minutes w) as Hout.
  rewrite Hcall in Hout.
  destruct Hout as (Hvalid & (m & Hm & Hpos & Hv & Hexp) & _).
  split; [exact Hvalid|]. split; [exists m; repeat split; try assumption; lia|].
  split; [|intros fuel0 url0 custom0 m0 w0; apply createShortURL_returns].
  apply run_invariant.
  - intros u click Hu. exact Hu.
  - intros fuel0 url0 custom0 minutes0 w0 data0 w0' Hcall0.
    pose proof (createShortURL_outcome platform fuel0 url0 custom0 minutes0 w0)
      as Hout0.
    rewrite Hcall0 in Hout0.
    destruct Hout0 as (_ & (m0 & _ & _ & Hv0 & Hexp0) & _).
    unfold window_exact. rewrite Hv0, Hexp0. lia.
Qed.

End Invariants.

Section Expiry.
Variable platform : Platform.

Lemma run_app (cs1 cs2 : list call) (w : World) :
  run platform (cs1 ++ cs2) w = run platform cs2 (run platform cs1 w).
Proof. unfold run. apply fold_left_app. Qed.

(** ** C10: expiry is permanent *)

(** C10: every record of the registry after any calls has the identifier,
    the URL, the short code, the [createdAt], the [expiresAt] and the
    [validityMinutes] of a record that was in the registry before them or
    that a [createShortURL] call among them returned: no call changes
    [expiresAt]. [isURLExpired] compares [expiresAt] with the clock
    reading, so a record that is expired at a reading [t] is expired at
    every reading [t' >= t]. *)
Theorem expiry_is_permanent :
  (forall cs w u',
     In u' (urls (run platform cs w)) ->
     (exists u, In u (urls w) /\ fixed_part u' = fixed_part u)
     \/ (exists cs1 fuel url custom minutes cs2 data w',
           cs = (cs1 ++ CreateShortURL fuel url custom minutes :: cs2)%list
           /\ createShortURL platform fuel url custom minutes
                (run platform cs1 w) = (Normal data, w')
           /\ fixed_part u' = fixed_part data))
  /\ (forall u w,
        isURLExpired platform u w
        = (Normal (expired_at (Date_now platform (clock_reads w)) u),
           tick_clock w))
  /\ (forall u u' t t',
        expiresAt u' = expiresAt u ->
        expired_at t u = true -> (t <= t')%Z -> expired_at t' u' = true).
Proof.
  split; [|split].
  - intros cs. induction cs as [|c cs IH] using rev_ind; intros w u' Hin.
    + left. exists u'. auto.
    + rewrite run_app in Hin. cbn in Hin.
      apply perform_lineage in Hin.
      destruct Hin as [Hin|[(u1 & click & Hin & ->)|Hnew]].
      * destruct (IH w u' Hin) as [Hold|Hnew]; [left; exact Hold|].
        right.
        destruct Hnew as (cs1 & fuel & url & custom & minutes & cs2 & data & w'
                          & -> & Hcall & Hfixed).
        exists cs1, fuel, url, custom, minutes, (cs2 ++ [c])%list, data, w'.
        rewrite <- app_assoc. auto.
      * destruct (IH w u1 Hin) as [(u & Hu & Hfixed)|Hnew].
        -- left. exists u. split; [exact Hu|]. rewrite <- Hfixed. reflexivity.
        -- right.
           destruct Hnew as (cs1 & fuel & url & custom & minutes & cs2 & data
                             & w' & -> & Hcall & Hfixed).
           exists cs1, fuel, url, custom, minutes, (cs2 ++ [c])%list, data, w'.
           rewrite <- app_assoc. split; [reflexivity|]. split; [exact Hcall|].
           rewrite <- Hfixed. reflexivity.
      * destruct Hnew as (fuel & url & custom & minutes & w' & -> & Hcall).
        right. exists cs, fuel, url, custom, minutes, [], u', w'. auto.
  - reflexivity.
  - intros u u' t t' Hsame Hexpired Hlater. unfold expired_at in *.
    rewrite Hsame. apply Z.ltb_lt. apply Z.ltb_lt in Hexpired. lia.
Qed.

End Expiry.

Section Generation.
Variable platform : Platform.

(** The retry loop returns as soon as a drawn code is not in the
    registry. *)
Lemma generate_unique_finds (fuel k : nat) (w : World) :
  k < fuel ->
  fresh (code_drawn_at platform (random_draws w + 6 * k)) (urls w) ->
  exists code w', generate_unique platform fuel w = (Normal code, w').
Proof.
  intros Hk Hfresh. pose proof (generate_unique_outcome platform fuel w) as Hout.
  destruct (generate_unique platform fuel w) as [[code| e|] w'].
  - eauto.
  - contradiction.
  - destruct Hout as [Hall _]. exfalso. exact (Hall k Hk Hfresh).
Qed.


(** ** C7: generated short codes are distinct *)

(** C7: the records of any number of links created one after the other
    with no custom short code have short codes that differ from each other
    and from every code the registry held before, and they are the
    records appended to the registry; for the loop of the generator
    returns only a code that no record of the registry has, and it does
    return when one of the codes it draws within its rounds is such a
    code; the call then returns its record, for a valid URL and a
    positive integer validity period within the range of dates. *)
Theorem created_codes_distinct (w : World) (rs : list urlData) (w' : World) :
  created platform w rs w' ->
  (NoDup (shortCodes rs)
   /\ (forall r, In r rs -> fresh (shortCode r) (urls w))
   /\ urls w' = (urls w ++ rs)%list)
  /\ (forall fuel w0 code w1,
        generate_unique platform fuel w0 = (Normal code, w1) ->
        fresh code (urls w0))
  /\ (forall fuel k w0,
        k < fuel ->
        fresh (code_drawn_at platform (random_draws w0 + 6 * k)) (urls w0) ->
        exists code w1, generate_unique platform fuel w0 = (Normal code, w1))
  /\ (forall fuel url m w0,
        isValidURL platform url = true ->
        (0 < m)%Z ->
        valid_time (Date_now platform (clock_reads w0))
        && valid_time (Date_now platform (clock_reads w0) + m * 60 * 1000)
        = true ->
        code_available platform fuel None w0 ->
        exists data w1,
          createShortURL platform fuel url None (Integer m) w0
          = (Normal data, w1)).
Proof.
  intro Hrun. split; [|split; [|split]];
    [| | |intros fuel url m w0; apply createShortURL_returns].
  - induction Hrun as [w|w w1 w2 fuel url minutes data rest Hcall Hrest IH].
    + split; [constructor|]. split; [intros r []|].
      rewrite app_nil_r. reflexivity.
    + pose proof (createShortURL_outcome platform fuel url None minutes w) as Hout.
      rewrite Hcall in Hout.
      destruct Hout as (_ & _ & Hfresh & _ & _ & _ & _ & _ & _ & Hurls & _).
      destruct IH as (Hnd & Hnew & Hurls').
      assert (Hsplit : forall r, In r rest ->
                fresh (shortCode r) (urls w) /\ shortCode r <> shortCode data).
      { intros r Hr. specialize (Hnew r Hr).
        rewrite fresh_not_In in *. rewrite Hurls in Hnew.
        unfold shortCodes in *. rewrite map_app, in_app_iff in Hnew. cbn in Hnew.
        split; [tauto|]. intro Heq. apply Hnew. right. left. congruence. }
      split; [|split].
      * cbn. constructor; [|exact Hnd].
        unfold shortCodes. rewrite in_map_iff. intros (r & Hcode & Hr).
        destruct (Hsplit r Hr) as [_ Hne]. contradiction.
      * intros r [<-|Hr]; [exact Hfresh | apply Hsplit, Hr].
      * rewrite Hurls', Hurls, <- app_assoc. reflexivity.
  - intros fuel w0 code w1 Hgen.
    pose proof (generate_unique_outcome platform fuel w0) as Hout.
    rewrite Hgen in Hout. apply Hout.
  - intros fuel k w0. apply generate_unique_finds.
Qed.

(** ** C9: the empty string as custom short code *)

(** C9: the empty string does not match the format rule, yet
    [createShortURL] with the empty string as custom short code does what
    it does with none: for a valid URL (and a positive integer validity
    period within the range of dates) it returns a record with a generated
    short code as soon as the generator draws a code that is not in the
    registry, and it never throws [InvalidShortcodeFormat] or
    [ShortcodeConflict]. *)
Theorem createShortURL_empty_custom_code
  (fuel : nat) (url : string) (m : Z) (k : nat) (w : World) :
  isValidURL platform url = true ->
  (0 < m)%Z ->
  valid_time (Date_now platform (clock_reads w))
  && valid_time (Date_now platform (clock_reads w) + m * 60 * 1000) = true ->
  k < fuel ->
  fresh (code_drawn_at platform (random_draws w + 6 * k)) (urls w) ->
  alphanumeric "" = false
  /\ (forall minutes,
        createShortURL platform fuel url (Some "") minutes w
        = createShortURL platform fuel url None minutes w)
  /\ (exists data w' j,
        createShortURL platform fuel url (Some "") (Integer m) w
        = (Normal data, w')
        /\ j < fuel
        /\ shortCode data = code_drawn_at platform (random_draws w + 6 * j)
        /\ fresh (shortCode data) (urls w)
        /\ urls w' = (urls w ++ [data])%list)
  /\ (forall fuel0 url0 minutes0 w0 e w0',
        createShortURL platform fuel0 url0 (Some "") minutes0 w0
        = (Throw e, w0') ->
        e <> InvalidShortcodeFormat /\ e <> ShortcodeConflict).
Proof.
  intros Hvalid Hpos Htime Hk Hfresh.
  split; [reflexivity|]. split; [reflexivity|]. split.
  - destruct (createShortURL_returns platform fuel url (Some "") m w
                Hvalid Hpos Htime (ex_intro _ k (conj Hk Hfresh)))
      as (data & w' & Hcall).
    pose proof (createShortURL_outcome platform fuel url (Some "") (Integer m) w)
      as Hout.
    rewrite Hcall in Hout. cbn [truthy] in Hout.
    destruct Hout as (_ & _ & Hfresh' & (j & Hj & Hcode) & _ & _ & _ & _ & _
                      & Hurls & _).
    exists data, w', j. auto.
  - intros fuel0 url0 minutes0 w0 e w0' Hcall.
    pose proof (createShortURL_outcome platform fuel0 url0 (Some "") minutes0 w0)
      as Hout.
    rewrite Hcall in Hout. destruct Hout as [_ Hwhy].
    inversion Hwhy as [Hbad | _ Hbad | m' c _ _ _ Hc _ | m' c _ _ _ Hc _
                       | m' _ Hm' _ _ Hbad];
      try discriminate Hc; split; discriminate.
Qed.

End Generation.

Section Sweep.
Variable platform : Platform.

Lemma kept_from_frozen (t : Z) (l : list urlData) :
  forall p,
    (forall k, p <= k -> Date_now platform k = t) ->
    kept_from platform p l = filter (fun u => negb (expired_at t u)) l.
Proof.
  induction l as [|u l' IH]; intros p Hclock; cbn; [reflexivity|].
  rewrite (Hclock p) by lia. unfold expired_at at 1.
  rewrite (IH (S p)) by (intros k Hk; apply Hclock; lia).
  destruct (expiresAt u <? t)%Z; reflexivity.
Qed.

Lemma filter_filter_same {A} (f : A -> bool) (l : list A) :
  filter f (filter f l) = filter f l.
Proof.
  induction l as [|a l' IH]; cbn; [reflexivity|].
  destruct (f a) eqn:Ha; cbn; [rewrite Ha, IH | rewrite IH]; reflexivity.
Qed.

(** ** C8: sweeping twice *)

(** C8: while the clock stands at [t], [deleteExpiredURLs] returns the
    number of records that are expired at [t] and leaves none of them in
    the registry; called again, it returns 0 and changes neither the
    registry nor its persisted mirror. *)
Theorem deleteExpiredURLs_twice (t : Z) (w : World) :
  (forall k, clock_reads w <= k -> Date_now platform k = t) ->
  exists n w1 w2,
    deleteExpiredURLs platform w = (Normal n, w1)
    /\ n = List.length (filter (expired_at t) (urls w))
    /\ Forall (fun u => expired_at t u = false) (urls w1)
    /\ deleteExpiredURLs platform w1 = (Normal 0, w2)
    /\ untouched w1 w2.
Proof.
  intro Hclock.
  destruct (deleteExpiredURLs_outcome platform w) as (w1 & Hcall & Hurls & Hreads & _).
  destruct (deleteExpiredURLs_outcome platform w1) as (w2 & Hcall' & Hurls' & _ & Hstore).
  rewrite (kept_from_frozen t) in Hurls by exact Hclock.
  rewrite (kept_from_frozen t) in Hurls', Hcall', Hstore
    by (intros k Hk; apply Hclock; lia).
  rewrite Hurls, filter_filter_same in Hurls', Hcall', Hstore.
  rewrite Nat.sub_diag in Hcall', Hstore. cbn in Hstore.
  rewrite (kept_from_frozen t) in Hcall by exact Hclock.
  eexists _, w1, w2. split; [exact Hcall|].
  split.
  - pose proof (filter_length (expired_at t) (urls w)) as Hlen. lia.
  - split.
    + rewrite Hurls. apply Forall_forall. intros u Hu.
      apply filter_In in Hu. destruct Hu as [_ Hu].
      apply negb_true_iff. exact Hu.
    + split; [exact Hcall'|]. split; [rewrite Hurls'; auto | exact Hstore].
Qed.

End Sweep.

Section Parsing.
Variable toASCII : list ascii -> option (list ascii).
Variable parse6 : list ascii -> option (list N).

Ltac break_match H :=
  repeat match type of H with
    | context [match ?x with _ => _ end] => destruct x eqn:?; try discriminate H
    end.

Lemma domain_to_ASCII_not_empty (domain r : list ascii) :
  URL.domain_to_ASCII toASCII domain = Some r -> r <> [].
Proof.
  unfold URL.domain_to_ASCII. intro H.
  break_match H; injection H as <-; discriminate.
Qed.

Lemma host_parser_names_a_host (buffer : list ascii) (h : URL.host) :
  URL.host_parser toASCII parse6 buffer false = Some h -> names_a_host h.
Proof.
  unfold URL.host_parser, option_map. intro H.
  break_match H; injection H as <-; try exact I;
    match goal with
    | Hd : URL.domain_to_ASCII _ _ = Some ?l |- _ =>
        apply domain_to_ASCII_not_empty in Hd; destruct l;
        [contradiction | exact I]
    end.
Qed.

Lemma port_of_buffer_settled (s : string) (h : URL.host) (buffer : list ascii)
  (u : URL.url) :
  (URL.is_special s = true -> names_a_host h) ->
  URL.port_of_buffer s h buffer = Some u -> settled s u.
Proof.
  intros Hh H. unfold URL.port_of_buffer in H.
  break_match H; injection H as <-; (split; [reflexivity|]);
    intros Hs; exists h; auto.
Qed.

Lemma port_state_settled (s : string) (h : URL.host) (input : list ascii) :
  (URL.is_special s = true -> names_a_host h) ->
  forall buffer u, URL.port_state s h buffer input = Some u -> settled s u.
Proof.
  intro Hh. induction input as [|c rest IH]; intros buffer u;
    cbn [URL.port_state].
  - apply port_of_buffer_settled, Hh.
  - destruct (URL.is_ascii_digit c); [apply IH|].
    destruct (URL.ends_authority _ c); [|discriminate].
    apply port_of_buffer_settled, Hh.
Qed.

Lemma host_of_buffer_settled (s : string) (buffer : list ascii) (u : URL.url) :
  URL.host_of_buffer toASCII parse6 s buffer = Some u -> settled s u.
Proof.
  unfold URL.host_of_buffer.
  destruct (URL.is_special s) eqn:Hspecial; cbn [andb negb].
  - destruct (URL.is_empty buffer); [discriminate|].
    destruct (URL.host_parser _ _ buffer false) as [h|] eqn:Hhost; [|discriminate].
    intros [= <-]. split; [reflexivity|]. intros _. exists h.
    split; [reflexivity|]. eapply host_parser_names_a_host, Hhost.
  - destruct (URL.host_parser _ _ buffer true); [|discriminate].
    intros [= <-]. split; [reflexivity|]. intro Hs. congruence.
Qed.

Lemma host_state_settled (s : string) (input : list ascii) :
  forall inside buffer u,
    URL.host_state toASCII parse6 s inside buffer input = Some u -> settled s u.
Proof.
  induction input as [|c rest IH]; intros inside buffer u;
    cbn [URL.host_state].
  - apply host_of_buffer_settled.
  - destruct (Ascii.eqb c ":" && negb inside).
    + destruct buffer as [|b bs]; [discriminate|].
      destruct (URL.host_parser _ _ (b :: bs) (negb (URL.is_special s)))
        as [h|] eqn:Hhost; [|discriminate].
      apply port_state_settled. intro Hspecial. rewrite Hspecial in Hhost.
      eapply host_parser_names_a_host, Hhost.
    + destruct (URL.ends_authority _ c); [apply host_of_buffer_settled | apply IH].
Qed.

Lemma authority_state_settled (s : string) (input : list ascii) :
  forall seen buffer start u,
    URL.authority_state toASCII parse6 s seen buffer start input = Some u ->
    settled s u.
Proof.
  induction input as [|c rest IH]; intros seen buffer start u;
    cbn [URL.authority_state].
  - destruct (seen && URL.is_empty buffer); [discriminate|].
    apply host_state_settled.
  - destruct (Ascii.eqb c "@"); [apply IH|].
    destruct (URL.ends_authority _ c); [|apply IH].
    destruct (seen && URL.is_empty buffer); [discriminate|].
    apply host_state_settled.
Qed.

Lemma special_authority_settled (s : string) (input : list ascii) (u : URL.url) :
  URL.special_authority_slashes_state toASCII parse6 s input = Some u ->
  settled s u.
Proof.
  assert (Hignore : forall l,
    URL.special_authority_ignore_slashes_state toASCII parse6 s l = Some u ->
    settled s u).
  { induction l as [|c rest IH]; cbn [URL.special_authority_ignore_slashes_state].
    - apply authority_state_settled.
    - destruct (URL.is_one_of c "/\"); [exact IH | apply authority_state_settled]. }
  unfold URL.special_authority_slashes_state. intro H.
  break_match H; exact (Hignore _ H).
Qed.

Lemma file_host_state_scheme (input : list ascii) :
  forall buffer u,
    URL.file_host_state toASCII parse6 buffer input = Some u ->
    URL.scheme u = "file".
Proof.
  assert (Hend : forall buffer u,
    URL.file_host_of_buffer toASCII parse6 buffer = Some u ->
    URL.scheme u = "file").
  { intros buffer u H. unfold URL.file_host_of_buffer, URL.file_url in H.
    break_match H; injection H as <-; reflexivity. }
  induction input as [|c rest IH]; intros buffer u;
    cbn [URL.file_host_state]; [apply Hend|].
  destruct (URL.is_one_of c _); [apply Hend | apply IH].
Qed.

Lemma file_state_scheme (input : list ascii) (u : URL.url) :
  URL.file_state toASCII parse6 input = Some u -> URL.scheme u = "file".
Proof.
  unfold URL.file_state, URL.file_slash_state, URL.file_url. intro H.
  destruct input as [|c rest]; [injection H as <-; reflexivity|].
  destruct (URL.is_one_of c _); [|injection H as <-; reflexivity].
  destruct rest as [|d rest']; [injection H as <-; reflexivity|].
  destruct (URL.is_one_of d _); [|injection H as <-; reflexivity].
  eapply file_host_state_scheme, H.
Qed.

Lemma scheme_state_settled (input : list ascii) :
  forall buffer u,
    URL.scheme_state toASCII parse6 buffer input = Some u ->
    (exists name rest,
       input = (name ++ ":"%char :: rest)%list
       /\ forallb URL.is_scheme_code_point name = true
       /\ URL.scheme u
          = string_of_list_ascii (buffer ++ map URL.ascii_lowercase name))
    /\ (needs_host (URL.scheme u) = true ->
        exists h, URL.host_of u = Some h /\ names_a_host h).
Proof.
  induction input as [|c rest IH]; intros buffer u; cbn [URL.scheme_state];
    [discriminate|].
  destruct (URL.is_scheme_code_point c) eqn:Hc.
  - intro H. destruct (IH _ _ H) as [(name & rest' & -> & Hname & Hscheme) Hhost].
    split; [|exact Hhost].
    exists (c :: name), rest'. cbn. rewrite Hc, Hname, Hscheme, <- app_assoc.
    auto.
  - destruct (Ascii.eqb_spec c ":") as [->|]; [|discriminate].
    intro H.
    assert (Hs : settled (string_of_list_ascii buffer) u
                 \/ URL.scheme u = string_of_list_ascii buffer
                    /\ needs_host (string_of_list_ascii buffer) = false).
    { destruct (String.eqb_spec (string_of_list_ascii buffer) "file") as [Hfile|_].
      - right. rewrite Hfile. split; [|reflexivity].
        eapply file_state_scheme, H.
      - destruct (URL.is_special (string_of_list_ascii buffer)) eqn:Hspecial.
        + left. eapply special_authority_settled, H.
        + assert (Hplain : settled (string_of_list_ascii buffer)
                             (URL.mk_url (string_of_list_ascii buffer) None None)).
          { split; [reflexivity|]. congruence. }
          left. unfold URL.path_or_authority_state in H.
          break_match H; try (injection H as <-; exact Hplain);
            eapply authority_state_settled, H. }
    split.
    + exists [], rest. cbn. rewrite app_nil_r.
      split; [reflexivity|]. split; [reflexivity|].
      destruct Hs as [[Hs _]|[Hs _]]; exact Hs.
    + destruct Hs as [[Hs Hhost]|[Hs Hno]]; rewrite Hs; unfold needs_host.
      * intro Hneeds. apply andb_true_iff in Hneeds. apply Hhost, Hneeds.
      * unfold needs_host in Hno. congruence.
Qed.

End Parsing.

Section Validation.
Variable platform : Platform.

(** ** C2: [isValidURL] *)

(** C2, amended: [isValidURL] never throws and returns true exactly when
    [new URL] accepts the string. An accepted string begins, after
    trimming, with a scheme and a colon, so every string without a scheme
    is rejected; a host is required only for the schemes [http], [https],
    [ws], [wss] and [ftp], and a string with a scheme and no host, such as
    [mailto:a], is accepted. [isValidURL("not-a-url")] is false and
    [isValidURL("https://a.b")] is true. *)
Theorem isValidURL_is_what_the_parser_accepts :
  (forall s, isValidURL platform s = true
             <-> exists u, new_URL platform s = Some u)
  /\ (forall s u,
        new_URL platform s = Some u ->
        (exists name rest,
           URL.preprocess s = (name ++ ":"%char :: rest)%list
           /\ name <> []
           /\ forallb URL.is_scheme_code_point name = true
           /\ URL.scheme u
              = string_of_list_ascii (map URL.ascii_lowercase name))
        /\ (needs_host (URL.scheme u) = true ->
            exists h, URL.host_of u = Some h /\ names_a_host h))
  /\ isValidURL platform "not-a-url" = false
  /\ isValidURL platform "https://a.b" = true
  /\ isValidURL platform "mailto:a" = true
  /\ new_URL platform "mailto:a" = Some (URL.mk_url "mailto" None None).
Proof.
  split; [|split].
  - intro s. unfold isValidURL. destruct (new_URL platform s) as [u|].
    + split; [eauto | reflexivity].
    + split; [discriminate | intros [u Hu]; discriminate Hu].
  - intros s u. unfold new_URL, URL.basic_URL_parser, URL.scheme_start_state.
    destruct (URL.preprocess s) as [|c rest]; [discriminate|].
    destruct (URL.is_ascii_alpha c) eqn:Halpha; [|discriminate].
    intro H. apply scheme_state_settled in H.
    destruct H as [(name & rest' & -> & Hname & Hscheme) Hhost].
    split; [|exact Hhost].
    exists (c :: name), rest'. split; [reflexivity|]. split; [discriminate|].
    split; [|exact Hscheme].
    cbn [forallb]. rewrite Hname, andb_true_r.
    unfold URL.is_scheme_code_point, URL.is_ascii_alphanumeric.
    rewrite Halpha, orb_true_r. reflexivity.
  - repeat split; vm_compute; reflexivity.
Qed.

End Validation.

(** C2, as stated, fails: [new URL("mailto:a")] succeeds, so
    [isValidURL("mailto:a")] is true, and the URL it parses to has a
    scheme and no host. *)
Lemma isValidURL_accepts_mailto_without_host :
  isValidURL demo_platform "mailto:a" = true
  /\ option_map URL.scheme (new_URL demo_platform "mailto:a") = Some "mailto"
  /\ option_map URL.host_of (new_URL demo_platform "mailto:a") = Some None.
Proof. repeat split; vm_compute; reflexivity. Qed.

(** * The theorems at work on the demo registries *)

(** C3 on the registry that holds [promo1]: a second link asked for with
    that code. *)
Lemma createShortURL_conflict_on_promo1 :
  exists w',
    createShortURL demo_platform 3 "https://example.com" (Some "promo1")
      (Integer 10) one_link
    = (Throw ShortcodeConflict, w')
    /\ untouched one_link w'
    /\ List.length (urls w') = List.length (urls one_link).
Proof.
  apply (createShortURL_conflict_leaves_registry
           demo_platform 3 "https://example.com" "promo1" 10 one_link).
  - vm_compute. left. reflexivity.
  - split; [reflexivity | vm_compute; lia].
  - vm_compute. reflexivity.
  - lia.
Defined.

(** C4 on the same registry, read when the clock is past the expiry of
    [promo1]. *)
Lemma recordClick_on_promo1_after_expiry :
  exists w',
    recordClick (frozen_platform 2000000) "promo1" "direct" one_link
    = (Throw Expired, w')
    /\ untouched one_link w'
    /\ In promo1_link (urls w').
Proof.
  apply (recordClick_expired_rejected
           (frozen_platform 2000000) promo1_link "direct" one_link).
  - vm_compute. constructor; [intros [] | constructor].
  - vm_compute. left. reflexivity.
  - vm_compute. reflexivity.
Defined.

(** C6 on the call that created [promo1]: thirty minutes are 1800000
    milliseconds. *)
Lemma createShortURL_promo1_window :
  isValidURL demo_platform "https://a.b" = true
  /\ (exists m,
        Integer 30 = Integer m /\ (0 < m)%Z /\ validityMinutes promo1_link = m
        /\ (expiresAt promo1_link - createdAt promo1_link = m * 60000)%Z).
Proof.
  assert (Hcall : createShortURL demo_platform 3 "https://a.b" (Some "promo1")
                    (Integer 30) empty_world = (Normal promo1_link, one_link))
    by (vm_compute; reflexivity).
  destruct (createShortURL_window_exact demo_platform 3 "https://a.b"
              (Some "promo1") (Integer 30) empty_world promo1_link one_link Hcall)
    as (Hvalid & Hwindow & _).
  split; [exact Hvalid | exact Hwindow].
Defined.

(** C7 on three links created in a row: the generator draws [aaaaaa]
    twice, rejects it the second time and draws again. *)
Lemma three_generated_codes_distinct :
  exists rs w',
    created demo_platform empty_world rs w'
    /\ shortCodes rs = ["aaaaaa"; "nopqrs"; "uvwxyz"]
    /\ NoDup (shortCodes rs).
Proof.
  assert (Hrun : exists rs w',
            created demo_platform empty_world rs w'
            /\ shortCodes rs = ["aaaaaa"; "nopqrs"; "uvwxyz"]).
  { do 2 eexists. split.
    - eapply (created_cons demo_platform _ _ _ 3 "https://a.b" (Integer 30));
        [vm_compute; reflexivity|].
      eapply (created_cons demo_platform _ _ _ 3 "https://a.c" (Integer 5));
        [vm_compute; reflexivity|].
      eapply (created_cons demo_platform _ _ _ 3 "mailto:a" (Integer 1));
        [vm_compute; reflexivity|].
      apply created_nil.
    - reflexivity. }
  destruct Hrun as (rs & w' & Hcreated & Hcodes).
  exists rs, w'. split; [exact Hcreated|]. split; [exact Hcodes|].
  apply (created_codes_distinct demo_platform empty_world rs w' Hcreated).
Defined.

(** C8 on the registry of two links, at a time when the one-minute link
    has expired and the other has not. *)
Lemma sweep_two_links_twice :
  exists n w1 w2,
    deleteExpiredURLs (frozen_platform 100000) two_links = (Normal n, w1)
    /\ n = List.length (filter (expired_at 100000) (urls two_links))
    /\ Forall (fun u => expired_at 100000 u = false) (urls w1)
    /\ deleteExpiredURLs (frozen_platform 100000) w1 = (Normal 0, w2)
    /\ untouched w1 w2.
Proof.
  apply (deleteExpiredURLs_twice (frozen_platform 100000) 100000 two_links).
  intros k Hk. reflexivity.
Defined.

(** C9 on the registry that holds [promo1]. *)
Lemma createShortURL_empty_code_on_one_link :
  exists data w' j,
    createShortURL demo_platform 3 "https://a.b" (Some "") (Integer 30) one_link
    = (Normal data, w')
    /\ j < 3
    /\ shortCode data
       = code_drawn_at demo_platform (random_draws one_link + 6 * j)
    /\ fresh (shortCode data) (urls one_link)
    /\ urls w' = (urls one_link ++ [data])%list.
Proof.
  apply (createShortURL_empty_custom_code
           demo_platform 3 "https://a.b" 30 0 one_link).
  - vm_compute. reflexivity.
  - lia.
  - vm_compute. reflexivity.
  - lia.
  - vm_compute. reflexivity.
Defined.

(** C5 on the registry that holds [promo1]: two clicks while the link is
    valid. *)
Lemma two_clicks_on_promo1 :
  exists w' u',
    clicked demo_platform "promo1" 2 one_link w'
    /\ find (has_shortCode "promo1") (urls w') = Some u'
    /\ totalClicks u' = 2 /\ List.length (clicks u') = 2.
Proof.
  assert (Hrun : exists w', clicked demo_platform "promo1" 2 one_link w').
  { eexists.
    eapply (clicked_S demo_platform "promo1" 1 one_link _ _ "qr").
    - eapply (clicked_S demo_platform "promo1" 0 one_link _ _ "direct").
      + apply clicked_O.
      + vm_compute. reflexivity.
    - vm_compute. reflexivity. }
  destruct Hrun as [w' Hrun].
  destruct (proj1 (proj2 (proj2 (totalClicks_counts_clicks demo_platform)))
              "promo1" 2 one_link w' promo1_link
              eq_refl eq_refl eq_refl Hrun) as (u' & Hfind & Htotal & Hlen).
  exists w', u'. auto.
Defined.

(** * More of the service, the logger and the components *)

Section Lookup.
Variable platform : Platform.

Lemma getURLByShortCode_outcome (code : string) (w : World) :
  exists w',
    getURLByShortCode code w = (Normal (find (has_shortCode code) (urls w)), w')
    /\ untouched w w'
    /\ clock_reads w' = clock_reads w
    /\ random_draws w' = random_draws w
    /\ quota_exceeded w' = quota_exceeded w.
Proof.
  unfold getURLByShortCode, bind, get_urls.
  destruct (find (has_shortCode code) (urls w)); cbn;
    eexists; repeat split; reflexivity.
Qed.

Lemma find_none_fresh (code : string) (l : list urlData) :
  find (has_shortCode code) l = None <-> fresh code l.
Proof.
  unfold fresh. induction l as [|u t IH]; cbn; [tauto|].
  destruct (has_shortCode code u); cbn; [split; discriminate | exact IH].
Qed.

Lemma find_appended (code : string) (l : list urlData) (u : urlData) :
  fresh code l -> shortCode u = code ->
  find (has_shortCode code) (l ++ [u]) = Some u.
Proof.
  intros Hfresh Hcode. apply find_none_fresh in Hfresh.
  induction l as [|v t IH]; cbn in *.
  - unfold has_shortCode. rewrite Hcode, String.eqb_refl. reflexivity.
  - destruct (has_shortCode code v); [discriminate | apply IH, Hfresh].
Qed.

(** X1: the record that [createShortURL] returns is the one that
    [getURLByShortCode] finds under its short code right after, and the
    lookup changes neither the registry nor its persisted mirror. *)
Theorem createShortURL_then_lookup
  (fuel : nat) (url : string) (custom : option string) (minutes : number)
  (w : World) (data : urlData) (w' : World) :
  createShortURL platform fuel url custom minutes w = (Normal data, w') ->
  exists w'',
    getURLByShortCode (shortCode data) w' = (Normal (Some data), w'')
    /\ untouched w' w''.
Proof.
  intro Hcall.
  pose proof (createShortURL_outcome platform fuel url custom minutes w) as Hout.
  rewrite Hcall in Hout.
  destruct Hout as (_ & _ & Hfresh & _ & _ & _ & _ & _ & _ & Hurls & _).
  destruct (getURLByShortCode_outcome (shortCode data) w')
    as (w'' & Hlookup & Hsame & _).
  exists w''. split; [|exact Hsame].
  rewrite Hlookup, Hurls, (find_appended _ _ data Hfresh eq_refl). reflexivity.
Qed.

(** X2: [getURLByShortCode] never throws. For a code that no record has
    it returns nothing, and for a code of a registry with distinct codes
    it returns the record itself; either way the registry and its
    persisted mirror stay as they were, and neither the clock nor the
    random source is read. *)
Theorem getURLByShortCode_miss_and_hit (code : string) (w : World) :
  exists found w',
    getURLByShortCode code w = (Normal found, w')
    /\ untouched w w'
    /\ clock_reads w' = clock_reads w
    /\ random_draws w' = random_draws w
    /\ (found = None <-> ~ In code (shortCodes (urls w)))
    /\ (forall u, found = Some u -> In u (urls w) /\ shortCode u = code)
    /\ (forall u, NoDup (shortCodes (urls w)) -> In u (urls w) ->
                  shortCode u = code -> found = Some u).
Proof.
  destruct (getURLByShortCode_outcome code w)
    as (w' & Hlookup & Hsame & Hclock & Hdraws & _).
  exists (find (has_shortCode code) (urls w)), w'.
  split; [exact Hlookup|]. split; [exact Hsame|].
  split; [exact Hclock|]. split; [exact Hdraws|]. split; [|split].
  - rewrite find_none_fresh. apply fresh_not_In.
  - intros u Hfound. apply find_some in Hfound. destruct Hfound as [Hin Hcode].
    split; [exact Hin|]. apply String.eqb_eq. exact Hcode.
  - intros u Hnd Hin <-. apply find_unique; assumption.
Qed.

(** X3: [recordClick] on a code that no record has throws [NotFound]
    before it reads the clock or draws a random number, and leaves the
    registry and its persisted mirror as they were. *)
Theorem recordClick_unknown_code (code source : string) (w : World) :
  ~ In code (shortCodes (urls w)) ->
  exists w',
    recordClick platform code source w = (Throw NotFound, w')
    /\ untouched w w'
    /\ clock_reads w' = clock_reads w
    /\ random_draws w' = random_draws w.
Proof.
  intro Hmiss. apply fresh_not_In, find_none_fresh in Hmiss.
  unfold recordClick. unfold bind at 1. cbn [logger_info logger_log].
  unfold bind at 1. unfold getURLByShortCode, bind at 1, get_urls.
  cbn [urls set_logs]. rewrite Hmiss. cbn.
  eexists. repeat split; reflexivity.
Qed.






End Lookup.

Section Persistence.
Variable platform : Platform.

Lemma constructor_outcome (w : World) :
  exists w',
    constructor w = (Normal tt, w')
    /\ urls w' = match localStorage w with
                 | Stored l => l
                 | _ => []
                 end
    /\ localStorage w' = localStorage w.
Proof.
  unfold constructor, bind, loadURLs.
  destruct (localStorage w) eqn:Hitem; cbn;
    (eexists; split; [reflexivity|]; split; [reflexivity|]; exact Hitem).
Qed.

(** X5: whenever a call has written the registry to [localStorage] (a
    [createShortURL] or a [recordClick] that returns, a sweep that
    removes a record, with a [setItem] that does not throw), the item
    holds the registry as it is, and a service constructed anew from it
    starts with exactly this registry. The constructor never throws: with
    no item, or one that does not parse, it starts empty. *)
Theorem reload_restores_registry (w : World) :
  quota_exceeded w = false ->
  (forall fuel url custom minutes data w',
     createShortURL platform fuel url custom minutes w = (Normal data, w') ->
     localStorage w' = Stored (urls w')
     /\ urls (snd (constructor w')) = urls w')
  /\ (forall code source data w',
        recordClick platform code source w = (Normal data, w') ->
        localStorage w' = Stored (urls w')
        /\ urls (snd (constructor w')) = urls w')
  /\ (forall n w',
        deleteExpiredURLs platform w = (Normal n, w') -> 0 < n ->
        localStorage w' = Stored (urls w')
        /\ urls (snd (constructor w')) = urls w')
  /\ (forall w0, fst (constructor w0) = Normal tt
                 /\ (localStorage w0 = NoItem \/ localStorage w0 = Unparsable ->
                     urls (snd (constructor w0)) = [])).
Proof.
  intro Hquota.
  assert (Hreload : forall w', localStorage w' = Stored (urls w') ->
            localStorage w' = Stored (urls w')
            /\ urls (snd (constructor w')) = urls w').
  { intros w' Hitem. split; [exact Hitem|].
    destruct (constructor_outcome w') as (w'' & Hcall & Hurls & _).
    rewrite Hcall, Hitem in *. exact Hurls. }
  split; [|split; [|split]].
  - intros fuel url custom minutes data w' Hcall. apply Hreload.
    pose proof (createShortURL_outcome platform fuel url custom minutes w) as Hout.
    rewrite Hcall, Hquota in Hout.
    destruct Hout as (_ & _ & _ & _ & _ & _ & _ & _ & _ & Hurls & Hitem).
    congruence.
  - intros code source data w' Hcall. apply Hreload.
    pose proof (recordClick_outcome platform code source w) as Hout.
    rewrite Hcall, Hquota in Hout.
    destruct Hout as (found & click & _ & _ & _ & _ & _ & Hitem). exact Hitem.
  - intros n w' Hcall Hn. apply Hreload.
    destruct (deleteExpiredURLs_outcome platform w) as (w1 & Hcall1 & Hurls & _ & Hitem).
    rewrite Hcall in Hcall1. injection Hcall1 as Hn1 <-.
    rewrite <- Hn1, Hquota in Hitem.
    apply Nat.ltb_lt in Hn. rewrite Hn in Hitem. cbn in Hitem. congruence.
  - intro w0. destruct (constructor_outcome w0) as (w' & Hcall & Hurls & _).
    rewrite Hcall. split; [reflexivity|].
    intros [Hitem|Hitem]; cbn; rewrite Hurls, Hitem; reflexivity.
Qed.


End Persistence.

Section Listing.

Lemma Array_sort_sorted_id (l : list urlData) :
  StronglySorted newest_first l ->
  Array_sort by_createdAt_descending l = l.
Proof.
  induction 1 as [|a t Hsorted IH Hall]; cbn; [reflexivity|].
  rewrite IH. destruct t as [|b t']; [reflexivity|].
  cbn. unfold by_createdAt_descending.
  inversion Hall as [|? ? Hab _]; subst. unfold newest_first in Hab.
  destruct (Z.leb_spec (createdAt b - createdAt a) 0); [reflexivity | lia].
Qed.

(** X7: [getAllURLs] called a second time returns the list it returned
    the first time and leaves the registry, sorted by the first call, as
    it is. *)
Theorem getAllURLs_twice (w : World) :
  exists l w1 w2,
    getAllURLs w = (Normal l, w1)
    /\ getAllURLs w1 = (Normal l, w2)
    /\ untouched w1 w2.
Proof.
  exists (Array_sort by_createdAt_descending (urls w)),
         (snd (getAllURLs w)), (snd (getAllURLs (snd (getAllURLs w)))).
  assert (Hagain : Array_sort by_createdAt_descending
                     (Array_sort by_createdAt_descending (urls w))
                   = Array_sort by_createdAt_descending (urls w))
    by apply Array_sort_sorted_id, Array_sort_newest_first.
  split; [reflexivity|]. split.
  - unfold getAllURLs at 1 3. unfold bind. cbn.
    rewrite Hagain. reflexivity.
  - split; [|reflexivity]. cbn. exact Hagain.
Qed.

End Listing.

Section Codes.
Variable platform : Platform.


Lemma charAt_chars (i : nat) :
  i < String.length chars ->
  exists c, charAt chars i = String c "" /\ URL.is_ascii_alphanumeric c = true.
Proof.
  intro Hi. cbn in Hi.
  do 62 (destruct i as [|i]; [eexists; split; reflexivity|]). lia.
Qed.

Lemma append_length (a b : string) :
  String.length (a ++ b) = String.length a + String.length b.
Proof. induction a as [|c a IH]; cbn; [reflexivity | rewrite IH; reflexivity]. Qed.

Lemma list_ascii_append (a b : string) :
  list_ascii_of_string (a ++ b)
  = (list_ascii_of_string a ++ list_ascii_of_string b)%list.
Proof. induction a as [|c a IH]; cbn; [reflexivity | rewrite IH; reflexivity]. Qed.

Lemma drawn_from_shape (remaining : nat) :
  draws_in_range platform ->
  forall result p,
    forallb URL.is_ascii_alphanumeric (list_ascii_of_string result) = true ->
    String.length (drawn_from platform result remaining p)
    = String.length result + remaining
    /\ forallb URL.is_ascii_alphanumeric
         (list_ascii_of_string (drawn_from platform result remaining p)) = true.
Proof.
  intro Hrange.
  induction remaining as [|k IH]; intros result p Hresult; cbn [drawn_from].
  - rewrite Nat.add_0_r. auto.
  - destruct (charAt_chars _ (Hrange p)) as (c & Hc & Halnum).
    destruct (IH (result ++ charAt chars
                    (Math_random_floor platform p (String.length chars))) (S p))
      as [Hlen Hall].
    + rewrite list_ascii_append, forallb_app, Hresult, Hc. cbn.
      rewrite Halnum. reflexivity.
    + split; [|exact Hall]. rewrite Hlen, append_length, Hc.
      cbn [String.length]. lia.
Qed.

Lemma drawn_code_well_formed (n p : nat) :
  draws_in_range platform -> 0 < n <= 20 ->
  well_formed_code (drawn_from platform "" n p).
Proof.
  intros Hrange [Hpos Hmax].
  destruct (drawn_from_shape n Hrange "" p eq_refl) as [Hlen Hall].
  change (String.length "" + n) with n in Hlen.
  split; [|lia].
  unfold alphanumeric. rewrite Hall, andb_true_r.
  destruct (drawn_from platform "" n p) as [|c s];
    [cbn [String.length] in Hlen; lia | reflexivity].
Qed.

(** X8: [generateShortCode(length)] never throws and touches nothing but
    the random source, from which it takes [length] draws; the code has
    [length] characters, all of them letters or digits, so a code of 6
    passes the format check made on custom short codes. *)
Theorem generateShortCode_shape (length : nat) (w : World) :
  draws_in_range platform ->
  exists code w',
    generateShortCode platform length w = (Normal code, w')
    /\ w' = set_random_draws (random_draws w + length) w
    /\ String.length code = length
    /\ forallb URL.is_ascii_alphanumeric (list_ascii_of_string code) = true
    /\ (0 < length <= 20 -> well_formed_code code).
Proof.
  intro Hrange. unfold generateShortCode.
  rewrite generateShortCode_from_draws.
  destruct (drawn_from_shape length Hrange "" (random_draws w) eq_refl)
    as [Hlen Hall].
  do 2 eexists. split; [reflexivity|]. split; [reflexivity|].
  split; [exact Hlen|]. split; [exact Hall|].
  intro Hlength. apply drawn_code_well_formed; assumption.
Qed.

(** X9: the short code of every record of the registry matches the
    format rule (one to twenty letters or digits) after any calls, if it
    did before them: a custom code is checked, a generated one is made
    of six characters of [chars]. *)
Theorem short_codes_stay_well_formed (cs : list call) (w : World) :
  draws_in_range platform ->
  Forall (fun u => well_formed_code (shortCode u)) (urls w) ->
  Forall (fun u => well_formed_code (shortCode u)) (urls (run platform cs w)).
Proof.
  intros Hrange. apply run_invariant.
  - intros u click Hu. exact Hu.
  - intros fuel url custom minutes w0 data w0' Hcall.
    pose proof (createShortURL_outcome platform fuel url custom minutes w0) as Hout.
    rewrite Hcall in Hout.
    destruct Hout as (_ & _ & _ & Hcode & _).
    destruct (truthy custom) as [code|].
    + destruct Hcode as [-> Hformat]. exact Hformat.
    + destruct Hcode as (k & _ & ->). unfold code_drawn_at.
      apply drawn_code_well_formed; [exact Hrange | lia].
Qed.

End Codes.

Section Purge.
Variable platform : Platform.

Lemma kept_from_length (l : list urlData) :
  forall p, List.length (kept_from platform p l) <= List.length l.
Proof.
  induction l as [|u t IH]; intro p; cbn; [lia|].
  specialize (IH (S p)).
  destruct (expiresAt u <? Date_now platform p)%Z; cbn; lia.
Qed.

Lemma kept_from_all (l : list urlData) :
  forall p,
    List.length (kept_from platform p l) = List.length l ->
    kept_from platform p l = l.
Proof.
  induction l as [|u t IH]; intros p Hlen; cbn in *; [reflexivity|].
  pose proof (kept_from_length t (S p)) as Hle.
  destruct (expiresAt u <? Date_now platform p)%Z; cbn in Hlen; [lia|].
  f_equal. apply IH. lia.
Qed.

Lemma kept_from_In (l : list urlData) (u : urlData) :
  forall p,
    In u (kept_from platform p l) ->
    In u l /\ exists i, i < List.length l
                /\ expired_at (Date_now platform (p + i)) u = false.
Proof.
  induction l as [|v t IH]; intros p Hin; cbn in *; [contradiction|].
  destruct (expiresAt v <? Date_now platform p)%Z eqn:Hv.
  - destruct (IH (S p) Hin) as (Ht & i & Hi & Hlive).
    split; [right; exact Ht|]. exists (S i). split; [lia|].
    replace (p + S i) with (S p + i) by lia. exact Hlive.
  - destruct Hin as [<- | Hin].
    + split; [left; reflexivity|]. exists 0. split; [lia|].
      rewrite Nat.add_0_r. exact Hv.
    + destruct (IH (S p) Hin) as (Ht & i & Hi & Hlive).
      split; [right; exact Ht|]. exists (S i). split; [lia|].
      replace (p + S i) with (S p + i) by lia. exact Hlive.
Qed.

Lemma kept_from_dropped (l : list urlData) (u : urlData) :
  forall p,
    In u l -> ~ In u (kept_from platform p l) ->
    exists i, i < List.length l
      /\ expired_at (Date_now platform (p + i)) u = true.
Proof.
  induction l as [|v t IH]; intros p Hin Hout; cbn in *; [contradiction|].
  destruct (expiresAt v <? Date_now platform p)%Z eqn:Hv.
  - destruct Hin as [<- | Hin].
    + exists 0. split; [lia|]. rewrite Nat.add_0_r. exact Hv.
    + destruct (IH (S p) Hin Hout) as (i & Hi & Hdead).
      exists (S i). split; [lia|].
      replace (p + S i) with (S p + i) by lia. exact Hdead.
  - destruct Hin as [<- | Hin]; [exfalso; apply Hout; left; reflexivity|].
    destruct (IH (S p) Hin) as (i & Hi & Hdead).
    + intro Hk. apply Hout. right. exact Hk.
    + exists (S i). split; [lia|].
      replace (p + S i) with (S p + i) by lia. exact Hdead.
Qed.

Lemma deleteExpiredURLs_nothing_removed (w : World) :
  List.length (kept_from platform (clock_reads w) (urls w))
  = List.length (urls w) ->
  deleteExpiredURLs platform w
  = (Normal 0, set_clock_reads (clock_reads w + List.length (urls w)) w).
Proof.
  intro Hlen. pose proof (kept_from_all _ _ Hlen) as Hkept.
  unfold deleteExpiredURLs.
  unfold bind at 1, get_urls. unfold bind at 1. rewrite filter_not_expired_kept.
  rewrite Hkept. unfold bind at 1, put_urls. unfold bind at 1.
  rewrite Nat.sub_diag. cbn. destruct w; reflexivity.
Qed.

(** X10: with a clock that never runs backwards, [deleteExpiredURLs]
    returns the number of records it removed; every record it keeps was
    in the registry and not expired when the sweep began, every record
    it removed is expired when the sweep ends; and a sweep that removes
    nothing writes nothing and logs nothing. *)
Theorem deleteExpiredURLs_removes_the_expired (w : World) :
  clock_monotone platform ->
  exists n w',
    deleteExpiredURLs platform w = (Normal n, w')
    /\ n + List.length (urls w') = List.length (urls w)
    /\ (forall u, In u (urls w') ->
          In u (urls w)
          /\ expired_at (Date_now platform (clock_reads w)) u = false)
    /\ (forall u, In u (urls w) -> ~ In u (urls w') ->
          expired_at (Date_now platform (clock_reads w')) u = true)
    /\ (n = 0 ->
          urls w' = urls w /\ localStorage w' = localStorage w
          /\ logs w' = logs w).
Proof.
  intro Hclock.
  destruct (deleteExpiredURLs_outcome platform w)
    as (w' & Hcall & Hurls & Hreads & _).
  pose proof (kept_from_length (urls w) (clock_reads w)) as Hle.
  do 2 eexists. split; [exact Hcall|]. rewrite Hurls.
  split; [lia|]. split; [|split].
  - intros u Hin.
    destruct (kept_from_In _ _ _ Hin) as (Hold & i & _ & Hlive).
    split; [exact Hold|]. unfold expired_at in *.
    apply Z.ltb_ge. apply Z.ltb_ge in Hlive.
    specialize (Hclock (clock_reads w) (clock_reads w + i)). lia.
  - intros u Hin Hout.
    destruct (kept_from_dropped _ _ _ Hin Hout) as (i & Hi & Hdead).
    unfold expired_at in *. apply Z.ltb_lt. apply Z.ltb_lt in Hdead.
    rewrite Hreads.
    specialize (Hclock (clock_reads w + i)
                  (clock_reads w + List.length (urls w))). lia.
  - intro Hzero.
    assert (Hlen : List.length (kept_from platform (clock_reads w) (urls w))
                   = List.length (urls w)) by lia.
    rewrite (deleteExpiredURLs_nothing_removed w Hlen) in Hcall.
    injection Hcall as _ <-. cbn.
    rewrite (kept_from_all _ _ Hlen). auto.
Qed.

(** X12: an expired link keeps its short code reserved until the sweep:
    a request for the code is a [ShortcodeConflict] before
    [deleteExpiredURLs], and creates the link after it. *)
Theorem sweep_frees_the_short_code
  (t : Z) (fuel : nat) (url code : string) (m : Z) (w : World) :
  (forall k, clock_reads w <= k -> Date_now platform k = t) ->
  In code (shortCodes (urls w)) ->
  (forall u, In u (urls w) -> shortCode u = code -> expired_at t u = true) ->
  well_formed_code code ->
  isValidURL platform url = true ->
  (0 < m)%Z ->
  valid_time t && valid_time (t + m * 60 * 1000) = true ->
  (exists w0,
     createShortURL platform fuel url (Some code) (Integer m) w
     = (Throw ShortcodeConflict, w0))
  /\ exists n w1 data w2,
       deleteExpiredURLs platform w = (Normal n, w1)
       /\ 0 < n
       /\ createShortURL platform fuel url (Some code) (Integer m) w1
          = (Normal data, w2)
       /\ shortCode data = code
       /\ expired_at t data = false.
Proof.
  intros Hfrozen Htaken Hdead Hformat Hvalid Hpos Hdate. split.
  - pose proof (createShortURL_outcome platform fuel url (Some code) (Integer m) w)
      as Hout.
    rewrite (truthy_well_formed code Hformat) in Hout.
    pose proof (proj2 (has_shortCode_In code (urls w)) Htaken) as Hexists.
    destruct (createShortURL platform fuel url (Some code) (Integer m) w)
      as [[data| e|] w0].
    + destruct Hout as (_ & _ & Hfresh & [Hcode _] & _).
      unfold fresh in Hfresh. congruence.
    + destruct Hout as [_ Hwhy]. exists w0.
      assert (e = ShortcodeConflict) as ->; [|reflexivity].
      inversion Hwhy as [Hbad | _ Hbad | m' c _ _ _ Hc Hbad | | m' _ _ _ Hc _];
        try reflexivity.
      * congruence.
      * destruct Hbad as [Hbad | (m' & Hm' & Hle)];
          [discriminate Hbad | injection Hm' as <-; lia].
      * rewrite (truthy_well_formed code Hformat) in Hc.
        injection Hc as <-. contradiction.
      * destruct (Hc code (truthy_well_formed code Hformat)) as [_ Hfresh].
        congruence.
    + destruct Hout as (_ & Hnone & _). discriminate Hnone.
  - destruct (deleteExpiredURLs_outcome platform w)
      as (w1 & Hsweep & Hurls & Hreads & _).
    rewrite (kept_from_frozen platform t (urls w) (clock_reads w) Hfrozen)
      in Hurls, Hsweep.
    assert (Hfresh : fresh code (urls w1)).
    { apply fresh_not_In. rewrite Hurls. unfold shortCodes.
      rewrite in_map_iff. intros (u & Hcode & Hin).
      apply filter_In in Hin. destruct Hin as [Hin Hlive].
      rewrite (Hdead u Hin Hcode) in Hlive. discriminate Hlive. }
    assert (Hnow : Date_now platform (clock_reads w1) = t)
      by (apply Hfrozen; lia).
    destruct (createShortURL_returns platform fuel url (Some code) m w1 Hvalid Hpos)
      as (data & w2 & Hcreate).
    + rewrite Hnow. exact Hdate.
    + unfold code_available. rewrite (truthy_well_formed code Hformat).
      split; assumption.
    + pose proof (createShortURL_outcome platform fuel url (Some code)
                    (Integer m) w1) as Hout.
      rewrite Hcreate, (truthy_well_formed code Hformat) in Hout.
      destruct Hout as (_ & (m' & Hm' & _ & _ & Hexp) & _ & [Hcode _] & _ & _
                        & _ & _ & Hcreated & _).
      injection Hm' as <-.
      do 4 eexists. split; [exact Hsweep|]. split.
      * apply in_map_iff in Htaken. destruct Htaken as (u & Hcode' & Hin).
        pose proof (Hdead u Hin Hcode') as Hu.
        assert (Hlt : List.length (filter (fun u => negb (expired_at t u)) (urls w))
                      < List.length (urls w)).
        { clear - Hin Hu. induction (urls w) as [|v l IH]; [contradiction|].
          cbn. destruct Hin as [-> | Hin].
          - rewrite Hu. cbn.
            pose proof (filter_length_le (fun u => negb (expired_at t u)) l). lia.
          - specialize (IH Hin). destruct (negb (expired_at t v)); cbn; lia. }
        lia.
      * split; [exact Hcreate|]. split; [exact Hcode|].
        unfold expired_at. apply Z.ltb_ge. rewrite Hexp, Hcreated, Hnow. lia.
Qed.

End Purge.

Section Clicking.
Variable platform : Platform.

(** X11: a link that [createShortURL] has just returned can be followed
    as long as the clock has not passed its expiry, the expiry instant
    included: [recordClick] on its code returns the record with this one
    click; once the clock is past the expiry the call throws [Expired]
    and the registry is as it was. *)
Theorem created_link_is_clickable_until_expiry
  (fuel : nat) (url : string) (custom : option string) (minutes : number)
  (source : string) (w w' : World) (data : urlData) :
  createShortURL platform fuel url custom minutes w = (Normal data, w') ->
  let t := Date_now platform (clock_reads w') in
  ((t <= expiresAt data)%Z ->
     exists click w'',
       recordClick platform (shortCode data) source w'
       = (Normal (push_click click data), w'')
       /\ clicks (push_click click data) = [click]
       /\ totalClicks (push_click click data) = 1
       /\ Click.source click = source
       /\ urls w'' = (urls w ++ [push_click click data])%list)
  /\ ((expiresAt data < t)%Z ->
       exists w'',
         recordClick platform (shortCode data) source w' = (Throw Expired, w'')
         /\ untouched w' w'').
Proof.
  intros Hcreate t.
  pose proof (createShortURL_outcome platform fuel url custom minutes w) as Hout.
  rewrite Hcreate in Hout.
  destruct Hout as (_ & _ & Hfresh & _ & _ & _ & Hclicks & Htotal & _ & Hurls & _).
  assert (Hfind : find (has_shortCode (shortCode data)) (urls w') = Some data)
    by (rewrite Hurls; apply find_appended; [exact Hfresh | reflexivity]).
  pose proof (recordClick_outcome platform (shortCode data) source w') as Hclick.
  split; intro Htime.
  - destruct (recordClick_returns platform (shortCode data) source w' data Hfind)
      as (click & w'' & Hcall).
    { unfold expired_at. apply Z.ltb_ge. exact Htime. }
    rewrite Hcall in Hclick.
    destruct Hclick as (found & click' & Hfound & _ & Hdata & Hsource & Hafter & _).
    rewrite Hfind in Hfound. injection Hfound as <-.
    exists click', w''. rewrite <- Hdata. split; [exact Hcall|].
    rewrite Hdata in *. 
    split; [unfold push_click; cbn; rewrite Hclicks; reflexivity|].
    split; [unfold push_click; cbn; rewrite Hclicks; reflexivity|].
    split; [exact Hsource|].
    rewrite Hafter, Hurls.
    apply fresh_not_In in Hfresh.
    clear - Hfresh. induction (urls w) as [|v l IH]; cbn.
    + unfold has_shortCode. rewrite String.eqb_refl. reflexivity.
    + cbn in Hfresh. unfold has_shortCode at 1.
      destruct (String.eqb_spec (shortCode v) (shortCode data)) as [Heq|Hne].
      * exfalso. apply Hfresh. left. exact Heq.
      * f_equal. apply IH. intro Hin. apply Hfresh. right. exact Hin.
  - destruct (recordClick platform (shortCode data) source w')
      as [[r| e|] w''].
    + destruct Hclick as (found & click & Hfound & Hlive & _).
      rewrite Hfind in Hfound. injection Hfound as <-.
      unfold expired_at in Hlive. apply Z.ltb_ge in Hlive. fold t in Hlive. lia.
    + destruct Hclick as [Hsame [[_ Hnone] | [-> _]]].
      * congruence.
      * exists w''. split; [reflexivity | exact Hsame].
    + contradiction.
Qed.

End Clicking.

Section LoggerClass.

Variable reading : nat -> Z.
Variable navigator_userAgent : string.
Variable location_href : string.

Local Abbreviation log :=
  (Logger.log reading navigator_userAgent location_href).
Local Abbreviation logger :=
  (Logger.logger reading navigator_userAgent location_href).
Local Abbreviation clearLogs :=
  (Logger.clearLogs reading navigator_userAgent location_href).
Local Abbreviation logs_after :=
  (log_all reading navigator_userAgent location_href).

Lemma firstn_cons_firstn {A} (n : nat) (a : A) (l : list A) :
  firstn n (a :: firstn n l) = firstn n (a :: l).
Proof.
  destruct n as [|n]; [reflexivity|].
  rewrite !firstn_cons. f_equal.
  rewrite firstn_firstn. f_equal. lia.
Qed.

Lemma log_logs (level message : string) (data : Logger.json) (s : Logger.state) :
  exists e,
    Logger.logs (log level message data s) = firstn maxLogs (e :: Logger.logs s)
    /\ logged_as e = (level, message, data)
    /\ Logger.timestamp e = reading (Logger.clock_reads s)
    /\ Logger.userAgent e = navigator_userAgent
    /\ Logger.url e = location_href.
Proof.
  unfold Logger.log. cbn [Logger.logs]. eexists. split.
  - match goal with |- (if ?b then _ else _) = _ => destruct b eqn:Hcap end;
      [reflexivity|].
    apply Nat.ltb_ge in Hcap. symmetry. apply firstn_all2. exact Hcap.
  - repeat split.
Qed.

Lemma log_app_logs (level message : string) (data : Logger.json)
  (s : Logger.state) :
  Logger.setItem_throws (log level message data s) = Logger.setItem_throws s
  /\ Logger.app_logs (log level message data s)
     = if Logger.setItem_throws s then Logger.app_logs s
       else Logger.Stored
              (map Logger.clone_entry
                 (firstn 100 (Logger.logs (log level message data s)))).
Proof.
  split; [reflexivity|]. unfold Logger.log. cbn [Logger.app_logs Logger.logs].
  reflexivity.
Qed.

Lemma log_all_snoc (cs : list log_call) (c : log_call) (s : Logger.state) :
  logs_after (cs ++ [c]) s
  = log (fst (fst c)) (snd (fst c)) (snd c) (logs_after cs s).
Proof. unfold log_all. rewrite fold_left_app. reflexivity. Qed.

(** X13: the logger keeps the most recent [maxLogs] entries, most recent
    first, whatever is logged; while the storage takes the item it holds
    the first hundred of them, and when the storage refuses it the
    entries are kept in memory all the same and the item is as it
    was. *)
Theorem logger_keeps_the_most_recent (cs : list log_call) (s : Logger.state) :
  List.length (Logger.logs s) <= maxLogs ->
  let s' := logs_after cs s in
  map logged_as (Logger.logs s')
  = firstn maxLogs (rev cs ++ map logged_as (Logger.logs s))
  /\ List.length (Logger.logs s')
     = Nat.min (List.length cs + List.length (Logger.logs s)) maxLogs
  /\ (Logger.setItem_throws s = false -> cs <> [] ->
      Logger.app_logs s'
      = Logger.Stored (map Logger.clone_entry (firstn 100 (Logger.logs s'))))
  /\ (Logger.setItem_throws s = true ->
      Logger.app_logs s' = Logger.app_logs s).
Proof.
  intro Hcap. cbn zeta.
  assert (Hlogs : map logged_as (Logger.logs (logs_after cs s))
                  = firstn maxLogs (rev cs ++ map logged_as (Logger.logs s))
                  /\ Logger.setItem_throws (logs_after cs s)
                     = Logger.setItem_throws s).
  { induction cs as [|c cs IH] using rev_ind.
    - cbn. split; [|reflexivity]. symmetry. apply firstn_all2.
      rewrite length_map. exact Hcap.
    - rewrite log_all_snoc. destruct IH as [IH Hthrows].
      destruct (log_logs (fst (fst c)) (snd (fst c)) (snd c) (logs_after cs s))
        as (e & -> & He & _).
      split; [|exact Hthrows].
      rewrite <- firstn_map. cbn [map]. rewrite He, IH, rev_app_distr.
      cbn [rev app].
      destruct c as [[level message] data]. cbn [fst snd].
      apply firstn_cons_firstn. }
  destruct Hlogs as [Hlogs Hthrows].
  split; [exact Hlogs|]. split; [|split].
  - rewrite <- (length_map logged_as), Hlogs, length_firstn, length_app,
      length_rev, length_map. lia.
  - intros Hworks Hsome.
    destruct cs as [|c cs] using rev_ind; [contradiction|].
    rewrite log_all_snoc.
    pose proof (log_app_logs (fst (fst c)) (snd (fst c)) (snd c) (logs_after cs s))
      as [_ Hitem].
    rewrite Hitem.
    assert (Logger.setItem_throws (logs_after cs s) = false) as ->; [|reflexivity].
    clear - Hworks. induction cs as [|d cs IH] using rev_ind; [exact Hworks|].
    rewrite log_all_snoc. exact IH.
  - intro Hfails. clear - Hfails.
    induction cs as [|c cs IH] using rev_ind; [reflexivity|].
    rewrite log_all_snoc.
    pose proof (log_app_logs (fst (fst c)) (snd (fst c)) (snd c) (logs_after cs s))
      as [_ Hitem].
    rewrite Hitem.
    assert (Logger.setItem_throws (logs_after cs s) = true) as ->; [|exact IH].
    clear IH Hitem. induction cs as [|d cs IH] using rev_ind; [exact Hfails|].
    rewrite log_all_snoc. exact IH.
Qed.

(** X14: the list of levels and messages that the model of the service
    keeps in its world is what the [Logger] class keeps: a call of
    [log] on the class and the same call on the world leave lists that
    agree, if the lists agreed before. *)
Theorem service_log_is_the_class_log
  (level message : string) (data : Logger.json) (s : Logger.state) (w : World) :
  map Logger.seen (Logger.logs s) = logs w ->
  exists w',
    logger_log level message w = (Normal tt, w')
    /\ map Logger.seen (Logger.logs (log level message data s)) = logs w'
    /\ untouched w w'
    /\ clock_reads w' = clock_reads w
    /\ random_draws w' = random_draws w.
Proof.
  intro Hsame. eexists. split; [reflexivity|].
  split; [|repeat split].
  destruct (log_logs level message data s) as (e & -> & He & _).
  cbn [logs set_logs]. rewrite <- firstn_map. cbn [map]. rewrite Hsame.
  unfold Logger.seen at 1. unfold logged_as in He.
  injection He as -> -> _. reflexivity.
Qed.

Lemma JSON_clone_twice :
  forall v, Logger.JSON_clone (Logger.JSON_clone v) = Logger.JSON_clone v.
Proof.
  fix IH 1. intros [ | b | z | s | items | members | ]; cbn; try reflexivity.
  - f_equal. rewrite map_map.
    induction items as [|i items IHitems]; cbn; [reflexivity|].
    f_equal; [apply IH | exact IHitems].
  - f_equal. rewrite map_map.
    induction members as [|[k v] members IHmembers]; cbn; [reflexivity|].
    f_equal; [f_equal; apply IH | exact IHmembers].
Qed.

Lemma clone_entry_twice (e : Logger.logEntry) :
  Logger.clone_entry (Logger.clone_entry e) = Logger.clone_entry e.
Proof.
  unfold Logger.clone_entry. cbn. rewrite JSON_clone_twice. reflexivity.
Qed.

(** X15: what a reload of the page finds of the log. After a call of
    [log] that the storage took, a new logger starts with one entry for
    the load in front of the hundred most recent entries of the old one,
    each as [JSON.stringify] wrote it and unchanged by another write;
    the rest of the old entries is gone. With no item the new logger
    starts empty and prints nothing; an item that does not parse gives
    one [error] entry. *)
Theorem logger_reload (level message : string) (data : Logger.json)
  (s : Logger.state) (throws : bool) :
  (Logger.setItem_throws s = false ->
   let s' := log level message data s in
   let kept := map Logger.clone_entry (firstn 100 (Logger.logs s')) in
   exists loaded,
     Logger.logs (logger (Logger.app_logs s') throws) = loaded :: kept
     /\ Logger.seen loaded = ("info", "Logs loaded from localStorage")
     /\ Logger.data loaded
        = Logger.JObject
            [("count", Logger.JNumber (Z.of_nat (List.length kept)))]
     /\ List.length kept
        = Nat.min 100 (Nat.min (S (List.length (Logger.logs s))) maxLogs)
     /\ map Logger.clone_entry kept = kept)
  /\ logger Logger.NoItem throws = Logger.new_Logger Logger.NoItem throws
  /\ exists failed,
       Logger.logs (logger Logger.Unparsable throws) = [failed]
       /\ Logger.seen failed = ("error", "Failed to load logs from localStorage")
       /\ Logger.app_logs (logger Logger.Unparsable throws)
          = if throws then Logger.Unparsable
            else Logger.Stored [Logger.clone_entry failed].
Proof.
  split; [|split].
  - intro Hworks. cbn zeta.
    pose proof (log_app_logs level message data s) as [_ Hitem].
    rewrite Hworks in Hitem.
    unfold Logger.logger, Logger.loadLogs.
    cbn [Logger.app_logs Logger.new_Logger]. rewrite Hitem.
    unfold Logger.info.
    match goal with
    | |- context [Logger.log _ _ _ ?l ?m ?d ?s0] =>
        destruct (log_logs l m d s0) as (e & He & Has & _)
    end.
    exists e. cbn [Logger.logs] in He.
    assert (Hlen : List.length
                     (map Logger.clone_entry
                        (firstn 100 (Logger.logs (log level message data s))))
                   = Nat.min 100
                       (Nat.min (S (List.length (Logger.logs s))) maxLogs)).
    { rewrite length_map, length_firstn.
      destruct (log_logs level message data s) as (e0 & -> & _).
      rewrite length_firstn. cbn [List.length]. lia. }
    split.
    + rewrite He. rewrite firstn_all2; [reflexivity|].
      cbn [List.length]. rewrite Hlen. unfold maxLogs. lia.
    + unfold logged_as in Has. injection Has as Hl Hm Hd.
      split; [unfold Logger.seen; rewrite Hl, Hm; reflexivity|].
      split; [exact Hd|]. split; [exact Hlen|].
      rewrite map_map. apply map_ext. intro a. apply clone_entry_twice.
  - reflexivity.
  - unfold Logger.logger, Logger.loadLogs.
    cbn [Logger.app_logs Logger.new_Logger]. unfold Logger.error.
    eexists. split; [reflexivity|]. split; [reflexivity|].
    destruct throws; reflexivity.
Qed.

(** X16: [clearLogs] does not leave the log empty: the logger holds the
    one entry that reports the clearing, and so does the item in
    storage, which is removed and written again. *)
Theorem clearLogs_leaves_its_own_entry (s : Logger.state) :
  exists cleared,
    Logger.getLogs (clearLogs s) = [cleared]
    /\ logged_as cleared = ("info", "Logs cleared", Logger.JNull)
    /\ Logger.app_logs (clearLogs s)
       = (if Logger.setItem_throws s then Logger.NoItem
          else Logger.Stored [cleared])
    /\ Logger.console (clearLogs s)
       = (Logger.console s
          ++ (if Logger.setItem_throws s then [Logger.Storage_warning] else [])
          ++ [Logger.Printed "log" cleared])%list.
Proof.
  eexists. split; [reflexivity|]. split; [reflexivity|].
  unfold Logger.clearLogs, Logger.info, Logger.log.
  cbn [Logger.app_logs Logger.console Logger.setItem_throws Logger.logs].
  destruct (Logger.setItem_throws s); cbn; split; try reflexivity.
  rewrite <- app_assoc. reflexivity.
Qed.

End LoggerClass.

Section FormFields.

Lemma filter_length_lt_one {A} (f : A -> bool) (l : list A) :
  List.length l - List.length (filter f l)
  = List.length (filter (fun a => negb (f a)) l).
Proof.
  induction l as [|a l IH]; cbn [filter List.length]; [reflexivity|].
  pose proof (filter_length_le f l) as Hle.
  destruct (f a); cbn [negb List.length]; lia.
Qed.

Lemma NoDup_ids_one (i : Z) (l : list Form.field) :
  NoDup (map Form.id l) ->
  List.length (filter (fun u => (Form.id u =? i)%Z) l) <= 1.
Proof.
  induction l as [|u l IH]; cbn; intro Hnodup; [lia|].
  inversion Hnodup as [|? ? Hnotin Hrest]; subst.
  destruct (Form.id u =? i)%Z eqn:Hu; [|apply IH; exact Hrest].
  apply Z.eqb_eq in Hu. cbn.
  assert (Hnone : filter (fun u => (Form.id u =? i)%Z) l = []).
  { clear - Hnotin Hu. induction l as [|v l IH]; cbn; [reflexivity|].
    destruct (Form.id v =? i)%Z eqn:Hv.
    - exfalso. apply Hnotin. left. apply Z.eqb_eq in Hv. congruence.
    - apply IH. intro Hin. apply Hnotin. right. exact Hin. }
  rewrite Hnone. cbn. lia.
Qed.

Lemma NoDup_map_filter {A B} (g : A -> B) (f : A -> bool) (l : list A) :
  NoDup (map g l) -> NoDup (map g (filter f l)).
Proof.
  induction l as [|a l IH]; cbn; intro Hnodup; [constructor|].
  inversion Hnodup as [|? ? Hnotin Hrest]; subst.
  destruct (f a); cbn; [|apply IH; exact Hrest].
  constructor; [|apply IH; exact Hrest].
  intro Hin. apply Hnotin. apply in_map_iff in Hin.
  destruct Hin as (x & Hx & Hin). apply filter_In in Hin.
  apply in_map_iff. exists x. tauto.
Qed.

(** X17: the form keeps one to five fields with distinct ids: a field is
    added only below five, and one is removed only above one; the two
    refusals show a toast and change nothing else; an edit changes no id.
    The ids are what keeps the lower bound: when all of two or more
    fields have the id that is removed, no field is left. *)
Theorem form_keeps_one_to_five_fields (s : Form.state) (w : World) :
  form_tidy s ->
  (forall now,
     ~ In now (map Form.id (Form.urls s)) ->
     exists s' w',
       Form.addURLField now s w = (Normal s', w')
       /\ untouched w w' /\ form_tidy s'
       /\ (List.length (Form.urls s) = 5 ->
           Form.urls s' = Form.urls s
           /\ Form.toasts s'
              = (Form.toasts s
                 ++ [destructive "Maximum Limit Reached"
                       "You can only shorten up to 5 URLs at once."])%list)
       /\ (List.length (Form.urls s) < 5 ->
           Form.urls s' = (Form.urls s ++ [blank_field now])%list
           /\ Form.toasts s' = Form.toasts s))
  /\ (forall i,
        exists s' w',
          Form.removeURLField i s w = (Normal s', w')
          /\ untouched w w' /\ form_tidy s'
          /\ (List.length (Form.urls s) = 1 ->
              Form.urls s' = Form.urls s
              /\ Form.toasts s'
                 = (Form.toasts s
                    ++ [destructive "Cannot Remove"
                          "At least one URL field is required."])%list)
          /\ (1 < List.length (Form.urls s) ->
              Form.toasts s' = Form.toasts s
              /\ forall u, In u (Form.urls s') <->
                           In u (Form.urls s) /\ Form.id u <> i))
  /\ (forall i c,
        form_tidy (Form.updateURL i c s)
        /\ map Form.id (Form.urls (Form.updateURL i c s))
           = map Form.id (Form.urls s))
  /\ (forall s0 i,
        1 < List.length (Form.urls s0) ->
        Forall (fun u => Form.id u = i) (Form.urls s0) ->
        exists s' w',
          Form.removeURLField i s0 w = (Normal s', w')
          /\ Form.urls s' = []).
Proof.
  intros [[Hmin Hmax] Hnodup]. split; [|split; [|split]].
  - intros now Hnew. unfold Form.addURLField.
    destruct (5 <=? List.length (Form.urls s))%nat eqn:Hfull.
    + apply Nat.leb_le in Hfull. do 2 eexists. split; [reflexivity|].
      split; [split; reflexivity|]. split; [split; [cbn; lia | exact Hnodup]|].
      split; [intros _; split; reflexivity | intro Hlt; lia].
    + apply Nat.leb_gt in Hfull. do 2 eexists. split; [reflexivity|].
      split; [split; reflexivity|]. split.
      * split; cbn; [rewrite length_app; cbn; lia|].
        rewrite map_app. cbn.
        apply NoDup_app; [exact Hnodup | repeat constructor; intros [] |].
        intros x Hx [<- | []]. exact (Hnew Hx).
      * split; [intro H5; lia | intros _; split; reflexivity].
  - intro i. unfold Form.removeURLField.
    destruct (List.length (Form.urls s) =? 1)%nat eqn:Hone.
    + apply Nat.eqb_eq in Hone. do 2 eexists. split; [reflexivity|].
      split; [split; reflexivity|]. split; [split; [cbn; lia | exact Hnodup]|].
      split; [intros _; split; reflexivity | intro Hlt; lia].
    + apply Nat.eqb_neq in Hone. do 2 eexists. split; [reflexivity|].
      split; [split; reflexivity|].
      pose proof (filter_length_lt_one (fun u => negb (Form.id u =? i)%Z)
                    (Form.urls s)) as Hcount.
      pose proof (NoDup_ids_one i (Form.urls s) Hnodup) as Hle.
      pose proof (filter_length_le (fun u => negb (Form.id u =? i)%Z)
                    (Form.urls s)) as Hless.
      assert (Hsame : filter (fun a => negb (negb (Form.id a =? i)%Z)) (Form.urls s)
                      = filter (fun u => (Form.id u =? i)%Z) (Form.urls s))
        by (apply filter_ext; intro a; apply negb_involutive).
      cbn beta in Hcount. rewrite Hsame in Hcount.
      split; [split; [cbn; lia | cbn; apply NoDup_map_filter; exact Hnodup]|].
      split; [intro H1; lia|]. intros _. split; [reflexivity|].
      intro u. cbn. rewrite filter_In, negb_true_iff, Z.eqb_neq. tauto.
  - intros i c.
    assert (Hids : map Form.id (Form.urls (Form.updateURL i c s))
                   = map Form.id (Form.urls s)).
    { cbn. rewrite map_map. apply map_ext. intro u.
      destruct (Form.id u =? i)%Z; [destruct c|]; reflexivity. }
    split; [|exact Hids]. split; [|rewrite Hids; exact Hnodup].
    cbn. rewrite length_map. lia.
  - intros s0 i Hmany Hall. unfold Form.removeURLField.
    destruct (List.length (Form.urls s0) =? 1)%nat eqn:Hone;
      [apply Nat.eqb_eq in Hone; lia|].
    do 2 eexists. split; [reflexivity|]. cbn.
    clear - Hall. induction Hall as [|u l Hu _ IH]; cbn; [reflexivity|].
    rewrite Hu, Z.eqb_refl. exact IH.
Qed.

End FormFields.

Section FormValidation.
Variable platform : Platform.

Lemma flat_map_indexed_nil {A B} (f : A -> nat -> list B) (l : list A) :
  forall i,
    flat_map_indexed f i l = []
    <-> forall j a, nth_error l j = Some a -> f a (i + j) = [].
Proof.
  induction l as [|a l IH]; intro i; cbn.
  - split; [intros _ [|j] b Hb; discriminate Hb | reflexivity].
  - split.
    + intro Hnil. apply app_eq_nil in Hnil. destruct Hnil as [Ha Hl].
      intros [|j] b Hb; cbn in Hb.
      * injection Hb as <-. rewrite Nat.add_0_r. exact Ha.
      * replace (i + S j) with (S i + j) by lia.
        apply (proj1 (IH (S i)) Hl j b Hb).
    + intro Hall. pose proof (Hall 0 a eq_refl) as Ha.
      rewrite Nat.add_0_r in Ha. rewrite Ha.
      cbn [app]. apply IH. intros j b Hb.
      replace (S i + j) with (i + S j) by lia. apply Hall. exact Hb.
Qed.

Lemma indexOf_range (x : string) (l : list string) :
  (-1 <= indexOf x l < Z.of_nat (List.length l))%Z.
Proof.
  induction l as [|y l IH]; cbn [indexOf List.length]; [lia|].
  destruct (String.eqb y x); [lia|].
  destruct (indexOf x l <? 0)%Z eqn:Hneg; [lia|].
  apply Z.ltb_ge in Hneg. lia.
Qed.

Lemma indexOf_In (x : string) (pre rest : list string) :
  In x pre -> (0 <= indexOf x (pre ++ rest) < Z.of_nat (List.length pre))%Z.
Proof.
  induction pre as [|y pre IH]; intro Hin; [contradiction|].
  cbn [app indexOf List.length].
  destruct (String.eqb_spec y x) as [Heq|Hne]; [lia|].
  destruct Hin as [Hin|Hin]; [contradiction|].
  specialize (IH Hin).
  destruct (indexOf x (pre ++ rest) <? 0)%Z eqn:Hneg;
    [apply Z.ltb_lt in Hneg; lia | lia].
Qed.

Lemma indexOf_first (x : string) (pre rest : list string) :
  ~ In x pre ->
  indexOf x (pre ++ x :: rest) = Z.of_nat (List.length pre).
Proof.
  induction pre as [|y pre IH]; intro Hnot; cbn [app indexOf List.length].
  - rewrite String.eqb_refl. reflexivity.
  - destruct (String.eqb_spec y x) as [Heq|Hne];
      [exfalso; apply Hnot; left; exact Heq|].
    rewrite IH by (intro Hin; apply Hnot; right; exact Hin).
    destruct (Z.of_nat (List.length pre) <? 0)%Z eqn:Hneg;
      [apply Z.ltb_lt in Hneg; lia | lia].
Qed.

Lemma duplicates_from (rest : list string) :
  forall pre,
    filter_indexed
      (fun code index =>
         negb (indexOf code (pre ++ rest) =? Z.of_nat index)%Z)
      (List.length pre) rest = []
    <-> NoDup rest /\ forall x, In x rest -> ~ In x pre.
Proof.
  induction rest as [|a rest IH]; intro pre.
  - cbn. split; [intros _; split; [constructor | intros x []] | reflexivity].
  - cbn [filter_indexed].
    specialize (IH (pre ++ [a])%list).
    rewrite <- app_assoc, length_app in IH. cbn [app List.length] in IH.
    rewrite Nat.add_1_r in IH.
    destruct (in_dec string_dec a pre) as [Hin|Hnot].
    + pose proof (indexOf_In a pre (a :: rest) Hin) as Hlt.
      destruct (indexOf a (pre ++ a :: rest) =? Z.of_nat (List.length pre))%Z
        eqn:Heq; [apply Z.eqb_eq in Heq; lia|].
      cbn [negb]. split; [discriminate|].
      intros [_ Hfresh]. exfalso. exact (Hfresh a (or_introl eq_refl) Hin).
    + rewrite (indexOf_first a pre rest Hnot), Z.eqb_refl. cbn [negb].
      rewrite IH. split.
      * intros [Hnodup Hfresh]. split.
        -- constructor; [|exact Hnodup].
           intro Ha. apply (Hfresh a Ha). apply in_or_app. right. left.
           reflexivity.
        -- intros x [<- | Hx]; [exact Hnot|].
           intro Hpre. apply (Hfresh x Hx). apply in_or_app. left. exact Hpre.
      * intros [Hnodup Hfresh].
        inversion Hnodup as [|? ? Ha Hrest]; subst. split; [exact Hrest|].
        intros x Hx Hpre. apply in_app_or in Hpre.
        destruct Hpre as [Hpre | [<- | []]].
        -- exact (Hfresh x (or_intror Hx) Hpre).
        -- exact (Ha Hx).
Qed.

Lemma duplicates_NoDup (codes : list string) :
  Form.duplicates codes = [] <-> NoDup codes.
Proof.
  unfold Form.duplicates.
  pose proof (duplicates_from codes []) as H. cbn [app List.length] in H.
  rewrite H. split; [tauto | intro Hn; split; [exact Hn | intros x _ []]].
Qed.

Lemma field_errors_nil (u : Form.field) (index : nat) :
  Form.field_errors platform u index = [] <-> field_ok platform u.
Proof.
  unfold Form.field_errors, field_ok, Form.truthy_string, Form.bad_format,
    Form.not_positive_integer, well_formed_code.
  destruct (String.eqb_spec (trim (Form.originalURL u)) "") as [Hblank|Hsome];
    cbn [negb].
  { split; [discriminate | intros [Hne _]; contradiction]. }
  destruct (isValidURL platform (Form.originalURL u)); cbn [negb];
    [|split; [discriminate | intros (_ & Hv & _); discriminate Hv]].
  destruct (Form.Number (Form.validityMinutes u)) as [z|].
  2:{ split; [discriminate | intros (_ & _ & (m & Hm & _) & _); discriminate Hm]. }
  destruct (Z.leb_spec z 0) as [Hle|Hpos].
  { split; [discriminate|].
    intros (_ & _ & (m & Hm & Hlt) & _). injection Hm as <-. lia. }
  destruct (String.eqb_spec (Form.customShortCode u) "") as [Hnone|Hcode];
    cbn [negb andb app].
  { split; [|reflexivity]. intros _. repeat split; eauto. }
  destruct (alphanumeric (Form.customShortCode u)); cbn [negb orb].
  - destruct (Nat.ltb_spec 20 (String.length (Form.customShortCode u)))
      as [Hlong|Hshort].
    + split; [discriminate|].
      intros (_ & _ & _ & [Hc | [_ Hlen]]); [contradiction | lia].
    + split; [|reflexivity]. intros _. repeat split; eauto.
  - split; [discriminate|].
    intros (_ & _ & _ & [Hc | [Hal _]]); [contradiction | discriminate Hal].
Qed.

(** X18: [validateForm] returns no error exactly when every field has a
    URL that is not blank and that [isValidURL] accepts, a validity that
    is a positive integer, and a custom short code that is empty or well
    formed, and no custom short code is entered twice. The service then
    rejects a field of the form only for a short code that is taken or a
    date out of range. *)
Theorem validateForm_passes_iff (s : Form.state) :
  (Form.validateForm platform s = []
   <-> Forall (field_ok platform) (Form.urls s)
       /\ NoDup (Form.customCodes (Form.urls s)))
  /\ (Form.validateForm platform s = [] ->
      forall u fuel w e w',
        In u (Form.urls s) ->
        createShortURL platform fuel (Form.originalURL u)
          (Form.or_null (Form.customShortCode u))
          (Form.Number (Form.validityMinutes u)) w = (Throw e, w') ->
        e = ShortcodeConflict \/ e = RangeError).
Proof.
  assert (Hiff : Form.validateForm platform s = []
                 <-> Forall (field_ok platform) (Form.urls s)
                     /\ NoDup (Form.customCodes (Form.urls s))).
  { unfold Form.validateForm. split.
    - intro Hnil. apply app_eq_nil in Hnil. destruct Hnil as [Hfields Hdup].
      split.
      + apply Forall_forall. intros u Hin.
        apply In_nth_error in Hin. destruct Hin as [j Hj].
        apply (field_errors_nil u (0 + j)).
        exact (proj1 (flat_map_indexed_nil _ _ 0) Hfields j u Hj).
      + apply duplicates_NoDup.
        destruct (Form.duplicates (Form.customCodes (Form.urls s)));
          [reflexivity | discriminate Hdup].
    - intros [Hfields Hnodup].
      rewrite (proj2 (duplicates_NoDup _) Hnodup). cbn.
      rewrite app_nil_r. apply flat_map_indexed_nil. intros j a Hj.
      apply field_errors_nil.
      rewrite Forall_forall in Hfields. apply Hfields.
      exact (nth_error_In _ _ Hj). }
  split; [exact Hiff|].
  intros Hnil u fuel w e w' Hin Hthrow.
  destruct (proj1 Hiff Hnil) as [Hfields _].
  rewrite Forall_forall in Hfields.
  destruct (Hfields u Hin) as (_ & Hvalid & (m & Hm & Hpos) & Hcode).
  pose proof (createShortURL_outcome platform fuel (Form.originalURL u)
                (Form.or_null (Form.customShortCode u))
                (Form.Number (Form.validityMinutes u)) w) as Hout.
  rewrite Hthrow in Hout. destruct Hout as [_ Hwhy].
  inversion Hwhy as [Hbad | _ Hbad | m' c _ _ _ Hc Hbad | | ]; auto.
  - congruence.
  - destruct Hbad as [Hbad | (m' & Hm' & Hle)]; [congruence|].
    rewrite Hm in Hm'. injection Hm' as <-. lia.
  - exfalso. unfold Form.or_null, Form.truthy_string in Hc.
    destruct Hcode as [Hempty | Hformat].
    + rewrite Hempty in Hc. discriminate Hc.
    + destruct (String.eqb (Form.customShortCode u) ""); cbn [negb] in Hc.
      * discriminate Hc.
      * rewrite (truthy_well_formed _ Hformat) in Hc.
        injection Hc as <-. contradiction.
Qed.

End FormValidation.

Section FormSubmit.
Variable platform : Platform.
Variable invalid_time_message : string.

Local Abbreviation shorten_one :=
  (Form.shorten_one platform invalid_time_message).
Local Abbreviation shorten_all :=
  (Form.shorten_all platform invalid_time_message).
Local Abbreviation handleSubmit :=
  (Form.handleSubmit platform invalid_time_message).

Lemma shown_snoc (title error : string) (errors : list string) (s : Form.state) :
  shown title (errors ++ [error]) s
  = Form.show (destructive title error) (shown title errors s).
Proof. unfold shown. rewrite fold_left_app. reflexivity. Qed.

Lemma shown_cons (title error : string) (errors : list string) (s : Form.state) :
  shown title (error :: errors) s
  = shown title errors (Form.show (destructive title error) s).
Proof. reflexivity. Qed.

Lemma shown_fields (title : string) (errors : list string) (s : Form.state) :
  Form.urls (shown title errors s) = Form.urls s
  /\ Form.isLoading (shown title errors s) = Form.isLoading s
  /\ Form.recentURLs (shown title errors s) = Form.recentURLs s
  /\ Form.toasts (shown title errors s)
     = (Form.toasts s ++ map (destructive title) errors)%list.
Proof.
  induction errors as [|e errors IH] using rev_ind.
  - cbn. rewrite app_nil_r. auto.
  - rewrite shown_snoc. destruct IH as (Hu & Hl & Hr & Ht). cbn.
    rewrite Hu, Hl, Hr, Ht, map_app, app_assoc. auto.
Qed.

(** One round of the loop of [handleSubmit]: the record is created and
    pushed, or the error is shown; nothing is thrown. *)
Lemma shorten_one_outcome (fuel : nat) (u : Form.field)
  (acc : list urlData * Form.state) (w : World) :
  match shorten_one fuel u acc w with
  | (Normal acc', w') =>
      (exists data w0,
         createShortURL platform fuel (Form.originalURL u)
           (Form.or_null (Form.customShortCode u))
           (Form.Number (Form.validityMinutes u)) w = (Normal data, w0)
         /\ acc' = ((fst acc ++ [data])%list, snd acc)
         /\ urls w' = (urls w ++ [data])%list)
      \/ (exists e w0,
            createShortURL platform fuel (Form.originalURL u)
              (Form.or_null (Form.customShortCode u))
              (Form.Number (Form.validityMinutes u)) w = (Throw e, w0)
            /\ acc' = (fst acc,
                       Form.show
                         (destructive "Error Creating Short URL"
                            (Form.message_of invalid_time_message e))
                         (snd acc))
            /\ untouched w w')
  | (Throw _, _) => False
  | (Looping, w') => untouched w w'
  end.
Proof.
  unfold Form.shorten_one, try_catch. unfold bind at 1.
  pose proof (createShortURL_outcome platform fuel (Form.originalURL u)
                (Form.or_null (Form.customShortCode u))
                (Form.Number (Form.validityMinutes u)) w) as Hout.
  destruct (createShortURL platform fuel (Form.originalURL u)
              (Form.or_null (Form.customShortCode u))
              (Form.Number (Form.validityMinutes u)) w) as [[data| e|] w0].
  - cbn. left. exists data, w0. split; [reflexivity|]. split; [reflexivity|].
    apply Hout.
  - cbn. right. exists e, w0. split; [reflexivity|]. split; [reflexivity|].
    destruct Hout as [[Hu Hs] _]. split; cbn; assumption.
  - cbn. destruct Hout as [Hsame _]. exact Hsame.
Qed.

Lemma shorten_all_outcome (fuel : nat) (l : list Form.field) :
  forall acc w,
    match shorten_all fuel l acc w with
    | (Normal acc', w') =>
        exists created errors,
          fst acc' = (fst acc ++ created)%list
          /\ snd acc' = shown "Error Creating Short URL" errors (snd acc)
          /\ urls w' = (urls w ++ created)%list
          /\ List.length created + List.length errors = List.length l
    | (Throw _, _) => False
    | (Looping, w') =>
        exists created, urls w' = (urls w ++ created)%list
    end.
Proof.
  induction l as [|u l IH]; intros acc w.
  - cbn. exists [], []. rewrite !app_nil_r. auto.
  - cbn [Form.shorten_all]. unfold bind at 1.
    pose proof (shorten_one_outcome fuel u acc w) as Hone.
    destruct (shorten_one fuel u acc w) as [[acc1| e|] w1].
    + specialize (IH acc1 w1).
      destruct (shorten_all fuel l acc1 w1) as [[acc2| e|] w2].
      * destruct IH as (created & errors & Hres & Hst & Hurls & Hlen).
        destruct Hone as [(data & w0 & _ & -> & Hw1)
                         | (e & w0 & _ & -> & [Hw1 _])];
          cbn [fst snd] in Hres, Hst.
        -- exists (data :: created), errors.
           rewrite Hres, Hurls, Hw1, <- !app_assoc. cbn [List.length app].
           repeat split; [exact Hst | lia].
        -- exists created,
             (Form.message_of invalid_time_message e :: errors).
           rewrite Hres, Hurls, Hw1, shown_cons. cbn [List.length].
           repeat split; [exact Hst | lia].
      * exact IH.
      * destruct IH as (created & Hurls).
        destruct Hone as [(data & w0 & _ & _ & Hw1)
                         | (e & w0 & _ & _ & [Hw1 _])].
        -- exists (data :: created). rewrite Hurls, Hw1, <- app_assoc.
           reflexivity.
        -- exists created. rewrite Hurls, Hw1. reflexivity.
    + exact Hone.
    + exists []. rewrite app_nil_r. apply Hone.
Qed.

(** X19: a form with a validation error is not submitted: every error
    is shown in a toast of its own, the service is not called, and the
    fields, the loading flag and the list of recent links stay as they
    are. *)
Theorem handleSubmit_validation_failure
  (fuel : nat) (now : Z) (s : Form.state) (w : World) :
  Form.validateForm platform s <> [] ->
  exists s' w',
    handleSubmit fuel now s w = (Normal s', w')
    /\ untouched w w'
    /\ clock_reads w' = clock_reads w
    /\ random_draws w' = random_draws w
    /\ Form.urls s' = Form.urls s
    /\ Form.isLoading s' = Form.isLoading s
    /\ Form.recentURLs s' = Form.recentURLs s
    /\ Form.toasts s'
       = (Form.toasts s
          ++ map (destructive "Validation Error")
               (Form.validateForm platform s))%list.
Proof.
  intro Herrors. unfold Form.handleSubmit.
  destruct (Form.validateForm platform s) as [|e errors] eqn:Hv;
    [contradiction|].
  cbn [List.length Nat.ltb Nat.leb].
  do 2 eexists. split; [reflexivity|].
  split; [split; reflexivity|]. split; [reflexivity|]. split; [reflexivity|].
  pose proof (shown_fields "Validation Error" (e :: errors) s)
    as (Hu & Hl & Hr & Ht).
  cbn [snd]. unfold shown in *. auto.
Qed.

(** X20: a form that passes the validation is submitted field by field,
    and the batch is not all or nothing: the records created are appended
    to the registry in the order of the fields, each field that the
    service rejects gets an error toast, and the handler itself throws
    nothing. When at least one record was created the form is reset to a
    blank field, the records become the recent links and a toast counts
    them; when none was, the form stays as filled in. The loading flag is
    off at the end. *)
Theorem handleSubmit_creates_what_it_can
  (fuel : nat) (now : Z) (s : Form.state) (w : World) :
  Form.validateForm platform s = [] ->
  match handleSubmit fuel now s w with
  | (Normal s', w') =>
      exists created errors,
        urls w' = (urls w ++ created)%list
        /\ List.length created + List.length errors
           = List.length (Form.urls s)
        /\ Form.isLoading s' = false
        /\ Form.toasts s'
           = (Form.toasts s
              ++ map (destructive "Error Creating Short URL") errors
              ++ match created with
                 | [] => []
                 | _ => [Form.success (List.length created)]
                 end)%list
        /\ Form.recentURLs s'
           = match created with [] => Form.recentURLs s | _ => created end
        /\ Form.urls s'
           = match created with
             | [] => Form.urls s
             | _ => [blank_field now]
             end
  | (Throw _, _) => False
  | (Looping, w') => exists created, urls w' = (urls w ++ created)%list
  end.
Proof.
  intro Hvalid. unfold Form.handleSubmit. rewrite Hvalid.
  cbn [List.length Nat.ltb Nat.leb].
  unfold bind at 1. cbn [logger_info logger_log].
  set (w1 := set_logs _ w).
  assert (Hw1 : urls w1 = urls w) by reflexivity.
  unfold bind at 1. unfold try_catch. unfold bind at 1.
  pose proof (shorten_all_outcome fuel (Form.urls s)
                ([], Form.setIsLoading true s) w1) as Hall.
  destruct (shorten_all fuel (Form.urls s) ([], Form.setIsLoading true s) w1)
    as [[[results st]| e|] w2].
  - destruct Hall as (created & errors & Hres & Hst & Hurls & Hlen).
    cbn [fst snd app] in Hres, Hst. subst results st.
    pose proof (shown_fields "Error Creating Short URL" errors
                  (Form.setIsLoading true s)) as (Hu & _ & Hr & Ht).
    cbn [Form.urls Form.setIsLoading Form.recentURLs Form.toasts] in Hu, Hr, Ht.
    destruct created as [|r created].
    + cbn. exists [], errors. rewrite Hurls, Hu, Hr, Ht, !app_nil_r.
      repeat split. exact Hlen.
    + cbn. exists (r :: created), errors. rewrite Hurls, Ht, <- app_assoc.
      repeat split. exact Hlen.
  - contradiction.
  - cbn. destruct Hall as (created & Hurls). exists created. exact Hurls.
Qed.

End FormSubmit.

Section Display.

Lemma numeral_not_Expired (z : Z) (rest : string) :
  numeral z ++ rest <> "Expired".
Proof.
  unfold numeral, NilZero.string_of_int, NilZero.string_of_uint.
  destruct (Z.to_int z) as [d|d]; destruct d; cbn; discriminate.
Qed.

Lemma time_breakdown (diff d h m r : Z) :
  (0 <= d)%Z -> (0 <= h < 24)%Z -> (0 <= m < 60)%Z -> (0 <= r < 60000)%Z ->
  diff = (((d * 24 + h) * 60 + m) * 60000 + r)%Z ->
  let minutes := (diff / (1000 * 60))%Z in
  let hours := (minutes / 60)%Z in
  minutes = ((d * 24 + h) * 60 + m)%Z
  /\ hours = (d * 24 + h)%Z
  /\ (hours / 24)%Z = d
  /\ Z.rem hours 24 = h
  /\ Z.rem minutes 60 = m.
Proof.
  intros Hd Hh Hm Hr Hdiff minutes hours.
  assert (Hminutes : minutes = ((d * 24 + h) * 60 + m)%Z).
  { unfold minutes. symmetry. apply Z.div_unique with r; lia. }
  assert (Hhours : hours = (d * 24 + h)%Z).
  { unfold hours. rewrite Hminutes. symmetry.
    apply Z.div_unique with m; lia. }
  split; [exact Hminutes|]. split; [exact Hhours|].
  rewrite Hhours, Hminutes. split; [|split].
  - symmetry. apply Z.div_unique with h; lia.
  - rewrite Z.rem_mod_nonneg by lia. symmetry.
    apply Z.mod_unique with d; lia.
  - rewrite Z.rem_mod_nonneg by lia. symmetry.
    apply Z.mod_unique with (d * 24 + h)%Z; lia.
Qed.

(** X21: when a link counts as expired. The card of a new link says
    [Expired] from the expiry instant on, the statistics page and the
    service only after it: at the instant itself the card says
    [Expired], the page shows [0m remaining], and the service still
    takes the click. *)
Theorem expired_wording_and_service (now : Z) (u : urlData) :
  (Results.getTimeRemaining now (expiresAt u) = "Expired"
   <-> expired_at now u = true \/ expiresAt u = now)
  /\ (Statistics.getStatusText now now (expiresAt u) = "Expired"
      <-> expired_at now u = true)
  /\ (Statistics.isExpired now (expiresAt u) = expired_at now u)
  /\ Results.getTimeRemaining (expiresAt u) (expiresAt u) = "Expired"
  /\ Statistics.getStatusText (expiresAt u) (expiresAt u) (expiresAt u)
     = "0m remaining"
  /\ expired_at (expiresAt u) u = false.
Proof.
  unfold expired_at. split; [|split; [|split; [|split; [|split]]]].
  - unfold Results.getTimeRemaining. cbn zeta.
    destruct (Z.leb_spec (expiresAt u - now) 0) as [Hle|Hgt].
    + split; [intros _|reflexivity].
      destruct (Z.ltb_spec (expiresAt u) now); [left; reflexivity | right; lia].
    + split.
      * intro Htext. exfalso. revert Htext.
        repeat match goal with
               | |- context [if ?b then _ else _] => destruct b
               end; apply numeral_not_Expired.
      * intros [Hlt | Heq]; [apply Z.ltb_lt in Hlt|]; lia.
  - unfold Statistics.getStatusText, Statistics.isExpired. cbn zeta.
    destruct (expiresAt u <? now)%Z; [split; reflexivity|].
    split; [|discriminate]. intro Htext. exfalso. revert Htext.
    repeat match goal with
           | |- context [if ?b then _ else _] => destruct b
           end; apply numeral_not_Expired.
  - reflexivity.
  - unfold Results.getTimeRemaining. cbn zeta.
    rewrite Z.sub_diag. reflexivity.
  - unfold Statistics.getStatusText, Statistics.isExpired. cbn zeta.
    rewrite Z.ltb_irrefl, Z.sub_diag. reflexivity.
  - apply Z.ltb_irrefl.
Qed.

(** X22: the time left that the card and the statistics page show for a
    link that is not expired: the whole minutes left are split into
    days, hours and minutes; with a day or more the minutes are not
    shown, below a day the hours and minutes, below an hour the minutes,
    which are [0] in the last minute. *)
Theorem time_remaining_text (now expiry d h m r : Z) :
  (0 <= d)%Z -> (0 <= h < 24)%Z -> (0 <= m < 60)%Z -> (0 <= r < 60000)%Z ->
  (expiry - now = ((d * 24 + h) * 60 + m) * 60000 + r)%Z ->
  (0 < expiry - now)%Z ->
  Results.getTimeRemaining now expiry = remaining_text d h m
  /\ Statistics.getStatusText now now expiry = remaining_text d h m.
Proof.
  intros Hd Hh Hm Hr Hdiff Hpos.
  destruct (time_breakdown (expiry - now) d h m r Hd Hh Hm Hr Hdiff)
    as (Hminutes & Hhours & Hdays & Hrh & Hrm).
  unfold Results.getTimeRemaining, Statistics.getStatusText,
    Statistics.isExpired, remaining_text. cbn zeta.
  rewrite Hdays, Hrh, Hrm, Hhours, Hminutes.
  destruct (Z.leb_spec (expiry - now) 0) as [Hle|_]; [lia|].
  destruct (Z.ltb_spec expiry now) as [Hlt|_]; [lia|].
  split.
  - destruct (Z.ltb_spec 0 d) as [_|Hzero]; [reflexivity|].
    assert (d = 0%Z) as -> by lia. cbn [Z.mul Z.add].
    destruct (Z.ltb_spec 0 h) as [_|Hzero']; [reflexivity|].
    assert (h = 0%Z) as -> by lia. reflexivity.
  - destruct (Z.ltb_spec 0 d) as [_|Hzero]; [reflexivity|].
    assert (d = 0%Z) as -> by lia. cbn [Z.mul Z.add].
    destruct (Z.ltb_spec 0 h) as [_|Hzero']; [reflexivity|].
    assert (h = 0%Z) as -> by lia. reflexivity.
Qed.

(** X23: the status of a link on the statistics page. The colour is red
    exactly when the text is [Expired], and green exactly when an hour
    or more is left. The two functions read the clock once for the test
    and once more for the time left: a link that expires between the two
    readings is shown in yellow with a negative number of minutes. *)
Theorem status_colour_and_text (first second expiry : Z) :
  (Statistics.getStatusColor first second expiry = "text-red-400"
   <-> Statistics.getStatusText first second expiry = "Expired")
  /\ (Statistics.getStatusColor first second expiry = "text-green-400"
      <-> (first <= expiry /\ 3600000 <= expiry - second)%Z)
  /\ ((first <= expiry < second)%Z ->
      Statistics.getStatusColor first second expiry = "text-yellow-400"
      /\ Statistics.getStatusText first second expiry
         = numeral ((expiry - second) / 60000) ++ "m remaining"
      /\ ((expiry - second) / 60000 < 0)%Z).
Proof.
  unfold Statistics.getStatusColor, Statistics.getStatusText,
    Statistics.isExpired. cbn zeta.
  change (1000 * 60)%Z with 60000%Z.
  split; [|split].
  - destruct (expiry <? first)%Z; [split; reflexivity|].
    split.
    + destruct ((expiry - second) / 60000 <? 60)%Z; discriminate.
    + intro Htext. exfalso. revert Htext.
      repeat match goal with
             | |- context [if ?b then _ else _] => destruct b
             end; apply numeral_not_Expired.
  - destruct (Z.ltb_spec expiry first) as [Hlt|Hge].
    + split; [discriminate | lia].
    + destruct (Z.ltb_spec ((expiry - second) / 60000) 60) as [Hlow|Hhigh].
      * split; [discriminate|]. intros [_ Hhour]. exfalso.
        assert (60 <= (expiry - second) / 60000)%Z
          by (apply Z.div_le_lower_bound; lia).
        lia.
      * split; [intros _|reflexivity]. split; [exact Hge|].
        pose proof (Z.mul_div_le (expiry - second) 60000 ltac:(lia)). lia.
  - intros [Hge Hlt].
    assert (Hneg : ((expiry - second) / 60000 < 0)%Z)
      by (apply Z.div_lt_upper_bound; lia).
    destruct (Z.ltb_spec expiry first) as [Hbad|_]; [lia|].
    destruct (Z.ltb_spec ((expiry - second) / 60000) 60) as [_|Hbad]; [|lia].
    split; [reflexivity|]. split; [|exact Hneg].
    assert (Hhours : ((expiry - second) / 60000 / 60 < 0)%Z)
      by (apply Z.div_lt_upper_bound; lia).
    assert (Hdays : ((expiry - second) / 60000 / 60 / 24 < 0)%Z)
      by (apply Z.div_lt_upper_bound; lia).
    destruct (Z.ltb_spec 0 ((expiry - second) / 60000 / 60 / 24)); [lia|].
    destruct (Z.ltb_spec 0 ((expiry - second) / 60000 / 60)); [lia|].
    reflexivity.
Qed.

End Display.

Section StatisticsPage.
Variable platform : Platform.

Lemma kept_from_live (l : list urlData) (u : urlData) :
  forall p,
    In u l ->
    (forall i, i < List.length l ->
       expired_at (Date_now platform (p + i)) u = false) ->
    In u (kept_from platform p l).
Proof.
  induction l as [|v l IH]; intros p Hin Hlive; [contradiction|].
  cbn [kept_from].
  assert (Hrest : forall i, i < List.length l ->
                    expired_at (Date_now platform (S p + i)) u = false).
  { intros i Hi. replace (S p + i) with (p + S i) by lia.
    apply Hlive. cbn. lia. }
  destruct Hin as [-> | Hin].
  - pose proof (Hlive 0 ltac:(cbn; lia)) as Hu.
    rewrite Nat.add_0_r in Hu. unfold expired_at in Hu. rewrite Hu.
    left. reflexivity.
  - destruct (expiresAt v <? Date_now platform p)%Z;
      [|right]; apply IH; assumption.
Qed.

(** X24: loading the statistics page sweeps the registry and shows what
    is left of it, the most recent link first; the list of the page is
    the array of the service. With a clock that never runs backwards, a
    link shown was not expired when the load began and every link that
    is not expired when the sweep is over is shown. The load throws
    nothing and shows no toast, and the loading flag is off at the
    end. *)
Theorem loadStatistics_shows_the_live_links
  (s : Statistics.state) (w : World) :
  clock_monotone platform ->
  exists s' w',
    Statistics.loadStatistics platform s w = (Normal s', w')
    /\ Statistics.loading s' = false
    /\ Statistics.toasts s' = Statistics.toasts s
    /\ Statistics.urls s' = urls w'
    /\ StronglySorted newest_first (Statistics.urls s')
    /\ (forall u, In u (Statistics.urls s') ->
          In u (urls w)
          /\ expired_at (Date_now platform (clock_reads w)) u = false)
    /\ (forall u, In u (urls w) ->
          expired_at
            (Date_now platform (clock_reads w + List.length (urls w))) u
          = false ->
          In u (Statistics.urls s')).
Proof.
  intro Hclock.
  destruct (deleteExpiredURLs_outcome platform w)
    as (w1 & Hsweep & Hurls & Hreads & _).
  set (kept := kept_from platform (clock_reads w) (urls w)) in *.
  set (deleted := List.length (urls w) - List.length kept) in *.
  assert (Hcall : exists w',
            Statistics.loadStatistics platform s w
            = (Normal (Statistics.setLoading false
                         (Statistics.setUrls
                            (Array_sort by_createdAt_descending kept)
                            (Statistics.setLoading true s))), w')
            /\ urls w' = Array_sort by_createdAt_descending kept).
  { unfold Statistics.loadStatistics. cbn zeta.
    unfold bind at 1. unfold try_catch. unfold bind at 1. rewrite Hsweep.
    destruct (0 <? deleted)%nat; cbn; rewrite Hurls;
      eexists; split; reflexivity. }
  destruct Hcall as (w' & Hcall & Hshown).
  do 2 eexists. split; [exact Hcall|].
  cbn [Statistics.loading Statistics.toasts Statistics.urls
       Statistics.setLoading Statistics.setUrls].
  split; [reflexivity|]. split; [reflexivity|]. split; [symmetry; exact Hshown|].
  split; [apply Array_sort_newest_first|]. split.
  - intros u Hin.
    apply (Permutation_in u
             (Permutation_sym (Array_sort_Permutation _ kept))) in Hin.
    destruct (kept_from_In platform _ _ _ Hin) as (Hold & i & _ & Hlive).
    split; [exact Hold|]. unfold expired_at in *.
    apply Z.ltb_ge. apply Z.ltb_ge in Hlive.
    specialize (Hclock (clock_reads w) (clock_reads w + i)). lia.
  - intros u Hin Hlive.
    apply (Permutation_in u (Array_sort_Permutation _ kept)).
    apply kept_from_live; [exact Hin|]. intros i Hi.
    unfold expired_at in *. apply Z.ltb_ge. apply Z.ltb_ge in Hlive.
    specialize (Hclock (clock_reads w + i)
                  (clock_reads w + List.length (urls w))). lia.
Qed.

End StatisticsPage.

Section RedirectPage.
Variable platform : Platform.


End RedirectPage.

Section History.
Variable platform : Platform.

Lemma advances_bind {A B} (c : M A) (k : A -> M B) :
  advances c -> (forall a, advances (k a)) -> advances (bind c k).
Proof.
  intros Hc Hk w. unfold bind. specialize (Hc w).
  destruct (c w) as [[a| e|] w1]; cbn [snd] in *; [|exact Hc|exact Hc].
  specialize (Hk a w1). lia.
Qed.

Lemma advances_ret {A} (a : A) : advances (ret a).
Proof. intro w. cbn. lia. Qed.

Lemma advances_throw {A} (e : exn) : advances (@throw A e).
Proof. intro w. cbn. lia. Qed.

Lemma advances_logger_log (level message : string) :
  advances (logger_log level message).
Proof. intro w. cbn. lia. Qed.

Lemma advances_get_urls : advances get_urls.
Proof. intro w. cbn. lia. Qed.

Lemma advances_put_urls (l : list urlData) : advances (put_urls l).
Proof. intro w. cbn. lia. Qed.

Lemma advances_new_Date : advances (new_Date platform).
Proof. intro w. cbn. lia. Qed.

Lemma advances_random_index (n : nat) : advances (random_index platform n).
Proof. intro w. cbn. lia. Qed.

Lemma advances_saveURLs : advances saveURLs.
Proof. intro w. unfold saveURLs. destruct (quota_exceeded w); cbn; lia. Qed.

Lemma advances_fresh_token : advances (fresh_token platform).
Proof.
  unfold fresh_token. apply advances_bind; [apply advances_new_Date|].
  intros t w. cbn. lia.
Qed.

Ltac advance :=
  repeat first
    [ apply advances_ret
    | apply advances_throw
    | apply advances_logger_log
    | apply advances_get_urls
    | apply advances_put_urls
    | apply advances_new_Date
    | apply advances_random_index
    | apply advances_saveURLs
    | apply advances_fresh_token
    | apply advances_bind; [|intro]
    | match goal with
      | |- advances (if ?b then _ else _) => destruct b
      | |- advances (match ?x with _ => _ end) => destruct x
      end ].

Lemma advances_generate_unique (fuel : nat) :
  advances (generate_unique platform fuel).
Proof.
  induction fuel as [|fuel IH]; cbn [generate_unique].
  - intro w. cbn. lia.
  - unfold generateShortCode, isShortCodeUnique. advance. exact IH.
Qed.

Lemma advances_filter_not_expired (l : list urlData) :
  advances (filter_not_expired platform l).
Proof.
  induction l as [|u l IH]; cbn [filter_not_expired]; unfold isURLExpired;
    advance. exact IH.
Qed.

Lemma perform_clock (c : call) (w : World) :
  clock_reads w <= clock_reads (perform platform c w).
Proof.
  revert w. change (advances (fun w => (Normal tt, perform platform c w))).
  destruct c as [fuel url custom minutes|code|data|code source| |];
    intro w; cbn [snd perform].
  - revert w. change (advances (createShortURL platform fuel url custom minutes)).
    unfold createShortURL, logger_info, logger_error, toISOString,
      isShortCodeUnique.
    advance; cbv zeta; advance; apply advances_generate_unique.
  - revert w. change (advances (getURLByShortCode code)).
    unfold getURLByShortCode, logger_info, logger_warn. cbv zeta. advance.
  - revert w. change (advances (isURLExpired platform data)).
    unfold isURLExpired. advance.
  - revert w. change (advances (recordClick platform code source)).
    unfold recordClick, getURLByShortCode, isURLExpired, getLocationData,
      logger_info, logger_warn, logger_error.
    cbv zeta. advance.
  - revert w. change (advances getAllURLs).
    unfold getAllURLs, logger_info. cbv zeta. advance.
  - revert w. change (advances (deleteExpiredURLs platform)).
    unfold deleteExpiredURLs, logger_info. cbv zeta. advance.
    apply advances_filter_not_expired.
Qed.

(** The click that [recordClick] pushes: its timestamp is the third
    reading of the clock in the call, after the one for the expiry test
    and the one for the id. *)
Lemma recordClick_click (code source : string) (w : World) (data : urlData)
  (w' : World) :
  recordClick platform code source w = (Normal data, w') ->
  exists found click,
    find (has_shortCode code) (urls w) = Some found
    /\ data = push_click click found
    /\ urls w' = update_found code (push_click click) (urls w)
    /\ Click.timestamp click = Date_now platform (clock_reads w + 2)
    /\ Click.id click
       = (Date_now platform (clock_reads w + 1), S (random_draws w))
    /\ Click.location click
       = nth (Math_random_floor platform (random_draws w)
                (List.length mockLocations)) mockLocations "undefined"
    /\ Click.userAgent click = navigator_userAgent platform
    /\ Click.source click = source
    /\ clock_reads w' = clock_reads w + 3
    /\ random_draws w' = random_draws w + 2.
Proof.
  unfold recordClick. unfold bind at 1. cbn [logger_info logger_log].
  unfold bind at 1. unfold getURLByShortCode, bind at 1, get_urls.
  cbn [urls set_logs].
  destruct (find (has_shortCode code) (urls w)) as [found|] eqn:Hfind.
  - unfold bind at 1. cbn [logger_info logger_log ret].
    unfold bind at 1. unfold isURLExpired, bind at 1, new_Date, ret.
    cbn [clock_reads set_logs].
    destruct (expiresAt found <? Date_now platform (clock_reads w))%Z.
    + cbn. discriminate.
    + unfold bind at 1, getLocationData, bind at 1, random_index, ret.
      unfold bind at 1, fresh_token, bind at 1, new_Date.
      unfold bind at 1, new_Date. unfold bind at 1, get_urls.
      unfold bind at 1, put_urls. unfold bind at 1. rewrite saveURLs_outcome.
      cbn [quota_exceeded set_urls tick_random set_random_draws tick_clock
           set_clock_reads set_logs urls clock_reads random_draws].
      destruct (quota_exceeded w); cbn; intro Hcall;
        injection Hcall as <- <-; exists found; eexists; cbn;
        replace (clock_reads w + 2) with (S (S (clock_reads w))) by lia;
        replace (clock_reads w + 1) with (S (clock_reads w)) by lia;
        replace (clock_reads w + 3) with (S (S (S (clock_reads w)))) by lia;
        replace (random_draws w + 2) with (S (S (random_draws w))) by lia;
        repeat split; reflexivity.
  - cbn. discriminate.
Qed.

Lemma chronological_later (t t' : Z) (u : urlData) :
  (t <= t')%Z -> chronological t u -> chronological t' u.
Proof.
  intros Hle (Hcreated & Hall & Hsorted).
  split; [lia|]. split; [|exact Hsorted].
  eapply Forall_impl; [|exact Hall]. cbn. intros c Hc. lia.
Qed.

Lemma StronglySorted_snoc {A} (R : A -> A -> Prop) (l : list A) (a : A) :
  StronglySorted R l -> Forall (fun b => R b a) l ->
  StronglySorted R (l ++ [a]).
Proof.
  induction 1 as [|b l Hsorted IH Hb]; intro Hall; cbn.
  - repeat constructor.
  - inversion Hall as [|? ? Hba Hrest]; subst.
    constructor; [apply IH; exact Hrest|].
    apply Forall_app. split; [exact Hb | repeat constructor; exact Hba].
Qed.

Lemma chronological_push (t ts t' : Z) (click : Click.clickData) (u : urlData) :
  (t <= ts <= t')%Z -> Click.timestamp click = ts ->
  chronological t u -> chronological t' (push_click click u).
Proof.
  intros Hle Hts (Hcreated & Hall & Hsorted).
  unfold chronological, push_click. cbn [createdAt clicks].
  split; [lia|]. split.
  - apply Forall_app. split.
    + eapply Forall_impl; [|exact Hall]. cbn. intros c Hc. lia.
    + repeat constructor; lia.
  - apply StronglySorted_snoc; [exact Hsorted|].
    eapply Forall_impl; [|exact Hall]. cbn. intros c Hc. lia.
Qed.

Lemma perform_chronological (c : call) (w : World) :
  clock_monotone platform ->
  Forall (chronological (Date_now platform (clock_reads w))) (urls w) ->
  Forall (chronological
            (Date_now platform (clock_reads (perform platform c w))))
    (urls (perform platform c w)).
Proof.
  intros Hclock Hall.
  pose proof (perform_clock c w) as Hreads.
  pose proof (Hclock _ _ Hreads) as Hlater.
  assert (Hold : Forall (chronological
                           (Date_now platform
                              (clock_reads (perform platform c w)))) (urls w)).
  { eapply Forall_impl; [|exact Hall].
    intros u Hu. eapply chronological_later; eassumption. }
  pose proof (perform_registry platform c w) as Hreg.
  destruct c as [fuel url custom minutes|code|data|code source| |].
  - destruct Hreg as [->|(data & w' & Hcall & ->)]; [exact Hold|].
    apply Forall_app. split; [exact Hold|]. repeat constructor.
    + pose proof (createShortURL_outcome platform fuel url custom minutes w)
        as Hout.
      rewrite Hcall in Hout.
      destruct Hout as (_ & _ & _ & _ & _ & _ & _ & _ & -> & _). exact Hlater.
    + pose proof (createShortURL_outcome platform fuel url custom minutes w)
        as Hout.
      rewrite Hcall in Hout.
      destruct Hout as (_ & _ & _ & _ & _ & _ & -> & _). constructor.
    + pose proof (createShortURL_outcome platform fuel url custom minutes w)
        as Hout.
      rewrite Hcall in Hout.
      destruct Hout as (_ & _ & _ & _ & _ & _ & -> & _). constructor.
  - rewrite Hreg. exact Hold.
  - rewrite Hreg. exact Hold.
  - clear Hreg. cbn [perform] in *.
    pose proof (recordClick_outcome platform code source w) as Hout.
    destruct (recordClick platform code source w) as [[data| e|] w'] eqn:Hcall;
      cbn [snd] in *.
    + destruct (recordClick_click code source w data w' Hcall)
        as (found & click & _ & _ & Hurls & Hts & _ & _ & _ & _ & Hreads' & _).
      rewrite Hurls. rewrite Forall_forall in *. intros u Hin.
      apply update_found_In in Hin. destruct Hin as [Hin|(u0 & Hu0 & ->)].
      * apply Hold. exact Hin.
      * apply (chronological_push (Date_now platform (clock_reads w))
                 (Date_now platform (clock_reads w + 2))).
        -- split; apply Hclock; lia.
        -- exact Hts.
        -- apply Hall. exact Hu0.
    + destruct Hout as [[-> _] _]. exact Hold.
    + contradiction.
  - rewrite Hreg. rewrite Forall_forall in *. intros u Hin. apply Hold.
    eapply Permutation_in; [|exact Hin].
    apply Permutation_sym, Array_sort_Permutation.
  - rewrite Hreg. rewrite Forall_forall in *. intros u Hin. apply Hold.
    eapply kept_from_incl. exact Hin.
Qed.

(** X26: with a clock that never runs backwards, the clicks of every
    record stay in the order of their timestamps, none of them earlier
    than the creation of the record or later than the clock, whatever
    calls are made on the service. *)
Theorem clicks_stay_in_order_of_time (cs : list call) (w : World) :
  clock_monotone platform ->
  Forall (chronological (Date_now platform (clock_reads w))) (urls w) ->
  Forall (chronological
            (Date_now platform (clock_reads (run platform cs w))))
    (urls (run platform cs w)).
Proof.
  intro Hclock. revert w.
  induction cs as [|c cs IH]; intros w Hall; [exact Hall|].
  cbn. apply IH. apply perform_chronological; assumption.
Qed.

(** X27: the click that [recordClick] records. Its location is one of
    the eight places of the mock list, drawn at random, and never the
    fallback [Unknown Location]; its timestamp is read from the clock
    after the expiry test, so that it can be later than the expiry of
    the link; the source is the one given and the user agent the one of
    the browser. *)
Theorem recordClick_click_record
  (code source : string) (w w' : World) (data : urlData) :
  random_floor_in_range platform ->
  recordClick platform code source w = (Normal data, w') ->
  exists found click,
    find (has_shortCode code) (urls w) = Some found
    /\ data = push_click click found
    /\ In (Click.location click) mockLocations
    /\ Click.location click <> "Unknown Location"
    /\ Click.source click = source
    /\ Click.userAgent click = navigator_userAgent platform
    /\ Click.timestamp click = Date_now platform (clock_reads w + 2)
    /\ (expiresAt found >= Date_now platform (clock_reads w))%Z.
Proof.
  intros Hrange Hcall.
  destruct (recordClick_click code source w data w' Hcall)
    as (found & click & Hfind & Hdata & _ & Hts & _ & Hloc & Hagent & Hsource
        & _).
  pose proof (recordClick_outcome platform code source w) as Hout.
  rewrite Hcall in Hout.
  destruct Hout as (found' & _ & Hfind' & Hlive & _).
  rewrite Hfind in Hfind'. injection Hfind' as <-.
  exists found, click. split; [exact Hfind|]. split; [exact Hdata|].
  assert (Hin : In (Click.location click) mockLocations).
  { rewrite Hloc. apply nth_In. apply Hrange. cbn. lia. }
  split; [exact Hin|]. split.
  - intro Hunknown. rewrite Hunknown in Hin. cbn in Hin.
    repeat (destruct Hin as [Hin|Hin]; [discriminate Hin|]). exact Hin.
  - split; [exact Hsource|]. split; [exact Hagent|]. split; [exact Hts|].
    unfold expired_at in Hlive. apply Z.ltb_ge in Hlive. lia.
Qed.

End History.

Section Uniqueness.
Variable platform : Platform.

(** X28: no two records of the registry have the same short code,
    whatever calls are made on the service, expired records included,
    if none had before; so every record is the one that a lookup of its
    short code finds. *)
Theorem short_codes_stay_distinct (cs : list call) (w : World) :
  NoDup (shortCodes (urls w)) ->
  NoDup (shortCodes (urls (run platform cs w)))
  /\ forall u,
       In u (urls (run platform cs w)) ->
       exists w',
         getURLByShortCode (shortCode u) (run platform cs w)
         = (Normal (Some u), w').
Proof.
  intro Hnodup.
  pose proof (run_distinct_codes platform cs w Hnodup) as Hafter.
  split; [exact Hafter|]. intros u Hin.
  destruct (getURLByShortCode_outcome (shortCode u) (run platform cs w))
    as (w' & Hcall & _).
  exists w'. rewrite Hcall, (find_unique u _ Hafter Hin). reflexivity.
Qed.

End Uniqueness.

(** * The properties on the demo platform and its registries *)

Section Examples.

Lemma demo_draws_in_range : draws_in_range demo_platform.
Proof.
  intro k. cbn [demo_platform Math_random_floor].
  destruct (k <? 13)%nat; [cbn; lia|].
  apply Nat.mod_upper_bound. cbn. lia.
Qed.

Lemma demo_random_floor_in_range : random_floor_in_range demo_platform.
Proof.
  intros k n Hn. cbn [demo_platform Math_random_floor].
  destruct (k <? 13)%nat; [exact Hn|].
  apply Nat.mod_upper_bound. lia.
Qed.

Lemma demo_clock_monotone : clock_monotone demo_platform.
Proof. intros j k Hjk. cbn [demo_platform Date_now]. lia. Qed.

Lemma one_link_created :
  createShortURL demo_platform 3 "https://a.b" (Some "promo1") (Integer 30)
    empty_world
  = (Normal promo1_link, one_link).
Proof. vm_compute. reflexivity. Qed.

Lemma one_link_registry : urls one_link = [promo1_link].
Proof. vm_compute. reflexivity. Qed.

Lemma lookup_after_creating_promo1 :
  exists w'',
    getURLByShortCode (shortCode promo1_link) one_link
    = (Normal (Some promo1_link), w'')
    /\ untouched one_link w''.
Proof.
  apply (createShortURL_then_lookup demo_platform 3 "https://a.b"
           (Some "promo1") (Integer 30) empty_world promo1_link one_link).
  exact one_link_created.
Defined.

Lemma recordClick_on_a_code_not_there :
  exists w',
    recordClick demo_platform "nosuch" "direct" one_link
    = (Throw NotFound, w')
    /\ untouched one_link w'
    /\ clock_reads w' = clock_reads one_link
    /\ random_draws w' = random_draws one_link.
Proof.
  apply (recordClick_unknown_code demo_platform "nosuch" "direct" one_link).
  rewrite one_link_registry. intros [Hin|[]]. discriminate Hin.
Defined.


Lemma reload_after_a_second_link :
  localStorage two_links = Stored (urls two_links)
  /\ urls (snd (constructor two_links)) = urls two_links.
Proof.
  assert (Hquota : quota_exceeded one_link = false)
    by (vm_compute; reflexivity).
  assert (Hcall : exists data,
            createShortURL demo_platform 3 "https://example.com" None
              (Integer 1) one_link = (Normal data, two_links))
    by (eexists; vm_compute; reflexivity).
  destruct Hcall as [data Hcall].
  exact (proj1 (reload_restores_registry demo_platform one_link Hquota)
           3 "https://example.com" None (Integer 1) data two_links Hcall).
Defined.


Lemma generateShortCode_six_characters :
  exists code w',
    generateShortCode demo_platform 6 empty_world = (Normal code, w')
    /\ w' = set_random_draws (random_draws empty_world + 6) empty_world
    /\ String.length code = 6
    /\ forallb URL.is_ascii_alphanumeric (list_ascii_of_string code) = true
    /\ (0 < 6 <= 20 -> well_formed_code code).
Proof.
  apply (generateShortCode_shape demo_platform 6 empty_world).
  exact demo_draws_in_range.
Defined.

Lemma well_formed_codes_after_the_calls :
  Forall (fun u => well_formed_code (shortCode u))
    (urls (run demo_platform demo_calls one_link)).
Proof.
  apply (short_codes_stay_well_formed demo_platform demo_calls one_link).
  - exact demo_draws_in_range.
  - rewrite one_link_registry. constructor; [|constructor].
    split; [reflexivity | cbn; lia].
Defined.

Lemma sweep_of_two_links :
  exists n w',
    deleteExpiredURLs demo_platform two_links = (Normal n, w')
    /\ n + List.length (urls w') = List.length (urls two_links)
    /\ (forall u, In u (urls w') ->
          In u (urls two_links)
          /\ expired_at (Date_now demo_platform (clock_reads two_links)) u
             = false)
    /\ (forall u, In u (urls two_links) -> ~ In u (urls w') ->
          expired_at (Date_now demo_platform (clock_reads w')) u = true)
    /\ (n = 0 ->
          urls w' = urls two_links /\ localStorage w' = localStorage two_links
          /\ logs w' = logs two_links).
Proof.
  apply (deleteExpiredURLs_removes_the_expired demo_platform two_links).
  exact demo_clock_monotone.
Defined.

Lemma promo1_clickable_until_expiry :
  ((Date_now demo_platform (clock_reads one_link) <= expiresAt promo1_link)%Z ->
     exists click w'',
       recordClick demo_platform (shortCode promo1_link) "direct" one_link
       = (Normal (push_click click promo1_link), w'')
       /\ clicks (push_click click promo1_link) = [click]
       /\ totalClicks (push_click click promo1_link) = 1
       /\ Click.source click = "direct"
       /\ urls w'' = (urls empty_world ++ [push_click click promo1_link])%list)
  /\ ((expiresAt promo1_link < Date_now demo_platform (clock_reads one_link))%Z ->
       exists w'',
         recordClick demo_platform (shortCode promo1_link) "direct" one_link
         = (Throw Expired, w'')
         /\ untouched one_link w'').
Proof.
  apply (created_link_is_clickable_until_expiry demo_platform 3 "https://a.b"
           (Some "promo1") (Integer 30) "direct" empty_world one_link
           promo1_link).
  exact one_link_created.
Defined.

Lemma promo1_free_after_the_sweep :
  (exists w0,
     createShortURL (frozen_platform 2000000) 3 "https://example.com"
       (Some "promo1") (Integer 10) one_link
     = (Throw ShortcodeConflict, w0))
  /\ exists n w1 data w2,
       deleteExpiredURLs (frozen_platform 2000000) one_link = (Normal n, w1)
       /\ 0 < n
       /\ createShortURL (frozen_platform 2000000) 3 "https://example.com"
            (Some "promo1") (Integer 10) w1
          = (Normal data, w2)
       /\ shortCode data = "promo1"
       /\ expired_at 2000000 data = false.
Proof.
  apply (sweep_frees_the_short_code (frozen_platform 2000000) 2000000 3
           "https://example.com" "promo1" 10 one_link).
  - intros k _. reflexivity.
  - rewrite one_link_registry. left. reflexivity.
  - rewrite one_link_registry. intros u [<-|[]] _. reflexivity.
  - split; [reflexivity | cbn; lia].
  - vm_compute. reflexivity.
  - lia.
  - vm_compute. reflexivity.
Defined.

Lemma logger_after_two_calls :
  map logged_as
    (Logger.logs
       (log_all demo_reading "Mozilla/5.0" "http://localhost:3000/"
          [("info", "a", Logger.JNull); ("error", "b", Logger.JError)]
          demo_logger))
  = firstn maxLogs
      (rev [("info", "a", Logger.JNull); ("error", "b", Logger.JError)]
       ++ map logged_as (Logger.logs demo_logger))
  /\ List.length
       (Logger.logs
          (log_all demo_reading "Mozilla/5.0" "http://localhost:3000/"
             [("info", "a", Logger.JNull); ("error", "b", Logger.JError)]
             demo_logger))
     = 2.
Proof.
  assert (Hcap : List.length (Logger.logs demo_logger) <= maxLogs)
    by apply Nat.le_0_l.
  destruct (logger_keeps_the_most_recent demo_reading "Mozilla/5.0"
              "http://localhost:3000/"
              [("info", "a", Logger.JNull); ("error", "b", Logger.JError)]
              demo_logger Hcap) as (Hlogs & Hlen & _).
  split; [exact Hlogs|]. rewrite Hlen. reflexivity.
Defined.

Lemma first_log_of_the_service :
  exists w',
    logger_log "info" "URL Service initialized" empty_world = (Normal tt, w')
    /\ map Logger.seen
         (Logger.logs
            (Logger.log demo_reading "Mozilla/5.0" "http://localhost:3000/"
               "info" "URL Service initialized" Logger.JNull demo_logger))
       = logs w'
    /\ untouched empty_world w'
    /\ clock_reads w' = clock_reads empty_world
    /\ random_draws w' = random_draws empty_world.
Proof.
  apply (service_log_is_the_class_log demo_reading "Mozilla/5.0"
           "http://localhost:3000/" "info" "URL Service initialized"
           Logger.JNull demo_logger empty_world).
  reflexivity.
Defined.

Lemma remove_the_only_field :
  exists s' w',
    Form.removeURLField 1 Form.initial empty_world = (Normal s', w')
    /\ untouched empty_world w' /\ form_tidy s'
    /\ (List.length (Form.urls Form.initial) = 1 ->
        Form.urls s' = Form.urls Form.initial
        /\ Form.toasts s'
           = (Form.toasts Form.initial
              ++ [destructive "Cannot Remove"
                    "At least one URL field is required."])%list)
    /\ (1 < List.length (Form.urls Form.initial) ->
        Form.toasts s' = Form.toasts Form.initial
        /\ forall u, In u (Form.urls s') <->
                     In u (Form.urls Form.initial) /\ Form.id u <> 1%Z).
Proof.
  assert (Htidy : form_tidy Form.initial).
  { split; [cbn; lia|]. cbn. constructor; [intros [] | constructor]. }
  exact (proj1 (proj2 (form_keeps_one_to_five_fields Form.initial empty_world
                         Htidy)) 1%Z).
Defined.

Lemma submit_of_the_blank_form :
  exists s' w',
    Form.handleSubmit demo_platform "Invalid time value" 3 2000 Form.initial
      empty_world = (Normal s', w')
    /\ untouched empty_world w'
    /\ clock_reads w' = clock_reads empty_world
    /\ random_draws w' = random_draws empty_world
    /\ Form.urls s' = Form.urls Form.initial
    /\ Form.isLoading s' = Form.isLoading Form.initial
    /\ Form.recentURLs s' = Form.recentURLs Form.initial
    /\ Form.toasts s'
       = (Form.toasts Form.initial
          ++ map (destructive "Validation Error")
               (Form.validateForm demo_platform Form.initial))%list.
Proof.
  apply (handleSubmit_validation_failure demo_platform "Invalid time value"
           3 2000 Form.initial empty_world).
  vm_compute. discriminate.
Defined.

Lemma submit_of_the_filled_form :
  match
    Form.handleSubmit demo_platform "Invalid time value" 3 2000 filled_form
      empty_world
  with
  | (Normal s', w') =>
      exists created errors,
        urls w' = (urls empty_world ++ created)%list
        /\ List.length created + List.length errors
           = List.length (Form.urls filled_form)
        /\ Form.isLoading s' = false
        /\ Form.toasts s'
           = (Form.toasts filled_form
              ++ map (destructive "Error Creating Short URL") errors
              ++ match created with
                 | [] => []
                 | _ => [Form.success (List.length created)]
                 end)%list
        /\ Form.recentURLs s'
           = match created with
             | [] => Form.recentURLs filled_form
             | _ => created
             end
        /\ Form.urls s'
           = match created with
             | [] => Form.urls filled_form
             | _ => [blank_field 2000]
             end
  | (Throw _, _) => False
  | (Looping, w') =>
      exists created, urls w' = (urls empty_world ++ created)%list
  end.
Proof.
  apply (handleSubmit_creates_what_it_can demo_platform "Invalid time value"
           3 2000 filled_form empty_world).
  vm_compute. reflexivity.
Defined.

Lemma ninety_minutes_remaining :
  Results.getTimeRemaining 0 5400000 = remaining_text 0 1 30
  /\ Statistics.getStatusText 0 0 5400000 = remaining_text 0 1 30.
Proof.
  apply (time_remaining_text 0 5400000 0 1 30 0); lia.
Defined.

Lemma statistics_of_two_links :
  exists s' w',
    Statistics.loadStatistics demo_platform loading_page two_links
    = (Normal s', w')
    /\ Statistics.loading s' = false
    /\ Statistics.toasts s' = Statistics.toasts loading_page
    /\ Statistics.urls s' = urls w'
    /\ StronglySorted newest_first (Statistics.urls s')
    /\ (forall u, In u (Statistics.urls s') ->
          In u (urls two_links)
          /\ expired_at (Date_now demo_platform (clock_reads two_links)) u
             = false)
    /\ (forall u, In u (urls two_links) ->
          expired_at
            (Date_now demo_platform
               (clock_reads two_links + List.length (urls two_links))) u
          = false ->
          In u (Statistics.urls s')).
Proof.
  apply (loadStatistics_shows_the_live_links demo_platform loading_page
           two_links).
  exact demo_clock_monotone.
Defined.

Lemma clicks_in_order_after_the_calls :
  Forall (chronological
            (Date_now demo_platform
               (clock_reads (run demo_platform demo_calls one_link))))
    (urls (run demo_platform demo_calls one_link)).
Proof.
  apply (clicks_stay_in_order_of_time demo_platform demo_calls one_link).
  - exact demo_clock_monotone.
  - rewrite one_link_registry. constructor; [|constructor].
    split; [|split; constructor].
    assert (Hreads : clock_reads one_link = 2) by (vm_compute; reflexivity).
    rewrite Hreads. cbn. lia.
Defined.

Lemma click_record_on_promo1 :
  exists data w' found click,
    recordClick demo_platform "promo1" "qr" one_link = (Normal data, w')
    /\ find (has_shortCode "promo1") (urls one_link) = Some found
    /\ data = push_click click found
    /\ In (Click.location click) mockLocations
    /\ Click.source click = "qr".
Proof.
  assert (Hcall : exists data w',
            recordClick demo_platform "promo1" "qr" one_link
            = (Normal data, w'))
    by (do 2 eexists; vm_compute; reflexivity).
  destruct Hcall as (data & w' & Hcall).
  destruct (recordClick_click_record demo_platform "promo1" "qr" one_link w'
              data demo_random_floor_in_range Hcall)
    as (found & click & Hfind & Hdata & Hin & _ & Hsource & _).
  exists data, w', found, click. auto.
Defined.

Lemma distinct_codes_after_the_calls :
  NoDup (shortCodes (urls (run demo_platform demo_calls one_link)))
  /\ forall u,
       In u (urls (run demo_platform demo_calls one_link)) ->
       exists w',
         getURLByShortCode (shortCode u) (run demo_platform demo_calls one_link)
         = (Normal (Some u), w').
Proof.
  apply (short_codes_stay_distinct demo_platform demo_calls one_link).
  rewrite one_link_registry. cbn. constructor; [intros [] | constructor].
Defined.

End Examples.
